(** * Team migration orchestrator: a shallow embedding and its properties

    The Python module migrates the teams of a source organisation to a target
    organisation through the PyGithub client and raw HTTP requests.  Every
    function of the module is embedded below as a computation in a small
    state-and-exception monad:

    - the Python locals a function mutates live in the monad's local store, so
      a mutation made before an exception is still there in the handler;
    - every call that leaves the module (PyGithub, [requests], the helpers
      [make_github_request], [smart_rate_limit_handler], ...) is appended to the
      call history of the world, and what it answers is decided by an oracle of
      the environment that sees the history so far;
    - [log_and_print] appends to the log of the world. *)

From Stdlib Require Import String Ascii List ZArith Bool Lia Arith.
From Stdlib Require Import DecimalString.
Import ListNotations.
Open Scope string_scope.
Open Scope Z_scope.

Set Implicit Arguments.

(* ------------------------------------------------------------------ *)
(** ** Python strings *)

Module PyStr.

(** [str.lower], on the ASCII range (slugs and logins are ASCII). *)
Definition lower_ascii (c : ascii) : ascii :=
  let n := nat_of_ascii c in
  if (andb (Nat.leb 65 n) (Nat.leb n 90)) then ascii_of_nat (n + 32) else c.

Fixpoint lower (s : string) : string :=
  match s with
  | EmptyString => EmptyString
  | String c s' => String (lower_ascii c) (lower s')
  end.

(** The characters [str.strip] removes: space, tab, newline, vertical tab,
    form feed, carriage return. *)
Definition is_space (c : ascii) : bool :=
  let n := nat_of_ascii c in
  orb (Nat.eqb n 32) (andb (Nat.leb 9 n) (Nat.leb n 13)).

Fixpoint lstrip (s : string) : string :=
  match s with
  | EmptyString => EmptyString
  | String c s' => if is_space c then lstrip s' else s
  end.

Definition rev (s : string) : string :=
  string_of_list_ascii (List.rev (list_ascii_of_string s)).

Definition strip (s : string) : string := rev (lstrip (rev (lstrip s))).

(** [needle in hay]. *)
Fixpoint contains (needle hay : string) : bool :=
  if String.prefix needle hay then true
  else match hay with
       | EmptyString => false
       | String _ hay' => contains needle hay'
       end.

(** [s.replace(a, b)] for single characters. *)
Fixpoint replace (a b : ascii) (s : string) : string :=
  match s with
  | EmptyString => EmptyString
  | String c s' => String (if Ascii.eqb c a then b else c) (replace a b s')
  end.

(** Truth value of a string: the empty string is false. *)
Definition truthy (s : string) : bool :=
  match s with EmptyString => false | _ => true end.

Definition of_Z (z : Z) : string := NilZero.string_of_int (Z.to_int z).
Definition of_nat (n : nat) : string := of_Z (Z.of_nat n).

(** [x in [a, b, ...]] on strings. *)
Definition mem (x : string) (l : list string) : bool :=
  existsb (String.eqb x) l.

End PyStr.

(* ------------------------------------------------------------------ *)
(** ** Python dictionaries with string keys

    A [dict] keeps its keys in insertion order; assigning to a key that is
    already present replaces the value and leaves the position alone. *)

Module PyDict.

Definition dict (V : Type) : Type := list (string * V).

Definition empty {V} : dict V := [].

Fixpoint get {V} (k : string) (d : dict V) : option V :=
  match d with
  | [] => None
  | (k', v) :: d' => if String.eqb k k' then Some v else get k d'
  end.

Definition mem {V} (k : string) (d : dict V) : bool :=
  match get k d with Some _ => true | None => false end.

Fixpoint set {V} (k : string) (v : V) (d : dict V) : dict V :=
  match d with
  | [] => [(k, v)]
  | (k', v') :: d' =>
      if String.eqb k k' then (k', v) :: d' else (k', v') :: set k v d'
  end.

Definition keys {V} (d : dict V) : list string := map fst d.
Definition values {V} (d : dict V) : list V := map snd d.
Definition items {V} (d : dict V) : list (string * V) := d.

(** Truth value of a dictionary: the empty one is false. *)
Definition truthy {V} (d : dict V) : bool :=
  match d with [] => false | _ => true end.

End PyDict.
Import PyDict.

(* ------------------------------------------------------------------ *)
(** ** Python lists *)

Module PyList.

(** [[l[i:i+n] for i in range(0, len(l), n)]]. *)
Fixpoint chunks_fuel {A} (fuel : nat) (n : nat) (l : list A) : list (list A) :=
  match fuel with
  | O => []
  | S fuel' =>
      match l with
      | [] => []
      | _ => firstn n l :: chunks_fuel fuel' n (skipn n l)
      end
  end.

Definition chunks {A} (n : nat) (l : list A) : list (list A) :=
  chunks_fuel (length l) n l.

(** [l.index(x)] for a string list; [None] stands for [ValueError]. *)
Fixpoint index (x : string) (l : list string) : option nat :=
  match l with
  | [] => None
  | y :: l' =>
      if String.eqb y x then Some O
      else match index x l' with Some i => Some (S i) | None => None end
  end.

Fixpoint list_eqb (l1 l2 : list string) : bool :=
  match l1, l2 with
  | [], [] => true
  | x :: l1', y :: l2' => andb (String.eqb x y) (list_eqb l1' l2')
  | _, _ => false
  end.

(** [enumerate(l, 1)]. *)
Definition enumerate1 {A} (l : list A) : list (nat * A) :=
  combine (seq 1 (length l)) l.

End PyList.

(* ------------------------------------------------------------------ *)
(** ** Exceptions

    The class hierarchy the handlers of the module discriminate on:
    [RateLimitExceededException] and [UnknownObjectException] are subclasses
    of PyGithub's [GithubException]; [HTTPError] (what
    [response.raise_for_status()] raises) is a subclass of
    [requests.exceptions.RequestException]; everything is an [Exception]. *)

Inductive exn : Type :=
| RateLimitExceededException (status : Z) (msg : string)
| UnknownObjectException (status : Z) (msg : string)
| GithubException (status : Z) (msg : string)
| HTTPError (status : Z) (msg : string)
| RequestException (msg : string)
| PyException (msg : string).

Definition is_GithubException (e : exn) : bool :=
  match e with
  | RateLimitExceededException _ _ | UnknownObjectException _ _
  | GithubException _ _ => true
  | _ => false
  end.

Definition is_RateLimitExceededException (e : exn) : bool :=
  match e with RateLimitExceededException _ _ => true | _ => false end.

Definition is_RequestException (e : exn) : bool :=
  match e with HTTPError _ _ | RequestException _ => true | _ => false end.

(** [e.status] of a [GithubException]. *)
Definition exn_status (e : exn) : Z :=
  match e with
  | RateLimitExceededException s _ | UnknownObjectException s _
  | GithubException s _ | HTTPError s _ => s
  | _ => 0
  end.

(** [str(e)]. *)
Definition str_exn (e : exn) : string :=
  match e with
  | RateLimitExceededException _ m | UnknownObjectException _ m
  | GithubException _ m | HTTPError _ m | RequestException m
  | PyException m => m
  end.

Inductive result (A : Type) : Type :=
| Val (a : A)
| Exc (e : exn).
Arguments Val {A} a.
Arguments Exc {A} e.

(* ------------------------------------------------------------------ *)
(** ** The objects the module handles *)

(** The two [Github] clients of a run. *)
Inductive Github : Type := gh_source_client | gh_target_client.

Record Organization : Type := {
  org_client : Github;
  org_login : string
}.

Record NamedUser : Type := { login : string }.

Record Team : Type := {
  team_id : Z;
  team_name : string;
  team_slug : string;
  team_description : option string;
  team_privacy : string;
  team_parent : option string     (* [team.parent.slug], when there is a parent *)
}.

(** An external (IDP) group, as the platform's JSON gives it. *)
Record Group : Type := {
  group_id : Z;
  group_name : string
}.

(** An HTTP response: [response.json()] is read only through its ['groups']
    key, [None] when the key is absent. *)
Record Response : Type := {
  status_code : Z;
  text : string;
  json_groups : option (list Group)
}.

(** [response.raise_for_status()] of the requests library. *)
Definition raise_for_status (r : Response) : result unit :=
  if andb (400 <=? status_code r) (status_code r <? 600)
  then Exc (HTTPError (status_code r) (text r))
  else Val tt.

(** The per-team entry of [migration_details]. *)
Record team_details_t : Type := {
  td_description : string;
  td_privacy : string;
  td_total_members : nat;
  td_members_migrated : nat;
  td_members_failed : nat;
  td_member_details : list string;
  td_idp_group_name : string;
  td_idp_mapping_status : string
}.

(** A value of [team_cache]. *)
Record team_info_t : Type := {
  ti_name : string;
  ti_description : string;
  ti_privacy : string;
  ti_parent : option string;
  ti_team_obj : option Team
}.

(** Locals and result of [migrate_team_members]. *)
Record user_status_t : Type := {
  us_status : string;
  us_detail : string * string     (* the second key and its value *)
}.

Record mtm_locals : Type := {
  users_status : dict user_status_t;
  member_details : list string;
  members_migrated : nat;
  members_failed : nat;
  source_members : list NamedUser
}.

Definition mtm_init : mtm_locals :=
  {| users_status := []; member_details := []; members_migrated := 0;
     members_failed := 0; source_members := [] |}.

Definition set_users_status (k : string) (v : user_status_t) (l : mtm_locals) :=
  {| users_status := PyDict.set k v (users_status l);
     member_details := member_details l;
     members_migrated := members_migrated l;
     members_failed := members_failed l;
     source_members := source_members l |}.

Definition append_member_details (s : string) (l : mtm_locals) :=
  {| users_status := users_status l;
     member_details := member_details l ++ [s];
     members_migrated := members_migrated l;
     members_failed := members_failed l;
     source_members := source_members l |}.

Definition incr_members_migrated (l : mtm_locals) :=
  {| users_status := users_status l;
     member_details := member_details l;
     members_migrated := S (members_migrated l);
     members_failed := members_failed l;
     source_members := source_members l |}.

Definition incr_members_failed (l : mtm_locals) :=
  {| users_status := users_status l;
     member_details := member_details l;
     members_migrated := members_migrated l;
     members_failed := S (members_failed l);
     source_members := source_members l |}.

Definition set_source_members (ms : list NamedUser) (l : mtm_locals) :=
  {| users_status := users_status l;
     member_details := member_details l;
     members_migrated := members_migrated l;
     members_failed := members_failed l;
     source_members := ms |}.

(** What [migrate_team_members] returns. *)
Record member_results_t : Type := {
  mr_success : bool;
  mr_total_members : nat;
  mr_members_migrated : nat;
  mr_members_failed : nat;
  mr_member_details : list string
}.

(** Locals of [migrate_teams_optimized]. *)
Record mto_locals : Type := {
  team_cache : dict team_info_t;
  migration_status : dict string;
  migration_details : dict team_details_t;
  teams_to_migrate : list string;      (* [None] and [[]] are both [[]] *)
  target_teams_cache : dict Team;
  idp_group_cache : dict Group;
  parent_child_relationships : list (string * string);
  team_details : team_details_t
}.

Definition empty_team_details : team_details_t :=
  {| td_description := ""; td_privacy := ""; td_total_members := 0;
     td_members_migrated := 0; td_members_failed := 0;
     td_member_details := []; td_idp_group_name := "";
     td_idp_mapping_status := "" |}.

Definition mto_init (teams : list string) : mto_locals :=
  {| team_cache := []; migration_status := []; migration_details := [];
     teams_to_migrate := teams; target_teams_cache := [];
     idp_group_cache := []; parent_child_relationships := [];
     team_details := empty_team_details |}.

Definition with_team_cache (f : dict team_info_t -> dict team_info_t)
    (l : mto_locals) : mto_locals :=
  {| team_cache := f (team_cache l);
     migration_status := migration_status l;
     migration_details := migration_details l;
     teams_to_migrate := teams_to_migrate l;
     target_teams_cache := target_teams_cache l;
     idp_group_cache := idp_group_cache l;
     parent_child_relationships := parent_child_relationships l;
     team_details := team_details l |}.

Definition with_migration_status (f : dict string -> dict string)
    (l : mto_locals) : mto_locals :=
  {| team_cache := team_cache l;
     migration_status := f (migration_status l);
     migration_details := migration_details l;
     teams_to_migrate := teams_to_migrate l;
     target_teams_cache := target_teams_cache l;
     idp_group_cache := idp_group_cache l;
     parent_child_relationships := parent_child_relationships l;
     team_details := team_details l |}.

Definition with_migration_details
    (f : dict team_details_t -> dict team_details_t)
    (l : mto_locals) : mto_locals :=
  {| team_cache := team_cache l;
     migration_status := migration_status l;
     migration_details := f (migration_details l);
     teams_to_migrate := teams_to_migrate l;
     target_teams_cache := target_teams_cache l;
     idp_group_cache := idp_group_cache l;
     parent_child_relationships := parent_child_relationships l;
     team_details := team_details l |}.

Definition with_teams_to_migrate (f : list string -> list string)
    (l : mto_locals) : mto_locals :=
  {| team_cache := team_cache l;
     migration_status := migration_status l;
     migration_details := migration_details l;
     teams_to_migrate := f (teams_to_migrate l);
     target_teams_cache := target_teams_cache l;
     idp_group_cache := idp_group_cache l;
     parent_child_relationships := parent_child_relationships l;
     team_details := team_details l |}.

Definition with_target_teams_cache (f : dict Team -> dict Team)
    (l : mto_locals) : mto_locals :=
  {| team_cache := team_cache l;
     migration_status := migration_status l;
     migration_details := migration_details l;
     teams_to_migrate := teams_to_migrate l;
     target_teams_cache := f (target_teams_cache l);
     idp_group_cache := idp_group_cache l;
     parent_child_relationships := parent_child_relationships l;
     team_details := team_details l |}.

Definition with_idp_group_cache (f : dict Group -> dict Group)
    (l : mto_locals) : mto_locals :=
  {| team_cache := team_cache l;
     migration_status := migration_status l;
     migration_details := migration_details l;
     teams_to_migrate := teams_to_migrate l;
     target_teams_cache := target_teams_cache l;
     idp_group_cache := f (idp_group_cache l);
     parent_child_relationships := parent_child_relationships l;
     team_details := team_details l |}.

Definition with_parent_child_relationships
    (f : list (string * string) -> list (string * string))
    (l : mto_locals) : mto_locals :=
  {| team_cache := team_cache l;
     migration_status := migration_status l;
     migration_details := migration_details l;
     teams_to_migrate := teams_to_migrate l;
     target_teams_cache := target_teams_cache l;
     idp_group_cache := idp_group_cache l;
     parent_child_relationships := f (parent_child_relationships l);
     team_details := team_details l |}.

Definition with_team_details (f : team_details_t -> team_details_t)
    (l : mto_locals) : mto_locals :=
  {| team_cache := team_cache l;
     migration_status := migration_status l;
     migration_details := migration_details l;
     teams_to_migrate := teams_to_migrate l;
     target_teams_cache := target_teams_cache l;
     idp_group_cache := idp_group_cache l;
     parent_child_relationships := parent_child_relationships l;
     team_details := f (team_details l) |}.

Definition set_idp_mapping_status (s : string) (d : team_details_t)
  : team_details_t :=
  {| td_description := td_description d; td_privacy := td_privacy d;
     td_total_members := td_total_members d;
     td_members_migrated := td_members_migrated d;
     td_members_failed := td_members_failed d;
     td_member_details := td_member_details d;
     td_idp_group_name := td_idp_group_name d;
     td_idp_mapping_status := s |}.

(** [team_details.update({...})] with the member results. *)
Definition update_member_results (r : member_results_t) (d : team_details_t)
  : team_details_t :=
  {| td_description := td_description d; td_privacy := td_privacy d;
     td_total_members := mr_total_members r;
     td_members_migrated := mr_members_migrated r;
     td_members_failed := mr_members_failed r;
     td_member_details := mr_member_details r;
     td_idp_group_name := td_idp_group_name d;
     td_idp_mapping_status := td_idp_mapping_status d |}.

(** How one invocation of [migrate_teams_optimized] ends: with its return
    value, or with the tail call [return migrate_teams_optimized(...)], whose
    only changing argument is [teams_to_migrate]. *)
Inductive outcome : Type :=
| Done (b : bool)
| Restart (teams : list string).

(** Locals of [remove_users_from_team]. *)
Record rm_locals : Type := {
  success_count : nat;
  failed_count : nat;
  details : list string
}.

Definition rm_init : rm_locals :=
  {| success_count := 0; failed_count := 0; details := [] |}.

(* ------------------------------------------------------------------ *)
(** ** The world: call history and log *)

Inductive call : Type :=
| get_user_call (gh : Github) (username : string)
| get_organization_call (gh : Github) (org_name : string)
| org_get_members_call (org : Organization)
| org_create_team_call (org : Organization)
    (name description privacy notification_setting : string)
| org_get_teams_call (org : Organization)
| org_get_team_by_slug_call (org : Organization) (slug : string)
| team_get_members_call (team : Team)
| team_get_team_membership_call (team : Team) (member : NamedUser)
| team_add_membership_call (team : Team) (member : NamedUser) (role : string)
| team_edit_call (team : Team) (name : string) (parent_team_id : Z)
| team_rate_limiting_call (team : Team)
| make_github_request_call (method url token : string)
    (json_data : option Z)     (* [{'group_id': id}], when there is a body *)
| get_all_external_groups_call (org_name token : string)
| smart_rate_limit_handler_call (gh : option Github)
| time_sleep_call (seconds : Z)
| write_migration_summary_call (output_folder source_org target_org : string)
    (successful_migrations failed_migrations : list string)
    (migration_details : dict team_details_t).

Record World : Type := {
  calls : list call;
  logs : list (string * string)     (* message, level *)
}.

Definition empty_world : World := {| calls := []; logs := [] |}.

(** What the outside answers.  Each oracle receives the calls made before the
    one it answers. *)
Record Env : Type := {
  GH_TARGET_BASE_API_URL : string;
  GH_TARGET_TOKEN : string;
  on_get_user : list call -> Github -> string -> result (option NamedUser);
  on_get_organization : list call -> Github -> string -> result unit;
  on_org_get_members : list call -> Organization -> result (list NamedUser);
  on_org_create_team :
    list call -> Organization -> string -> string -> string -> result Team;
  on_org_get_teams : list call -> Organization -> result (list Team);
  on_org_get_team_by_slug : list call -> Organization -> string -> result Team;
  on_team_get_members : list call -> Team -> result (list NamedUser);
  on_team_get_team_membership : list call -> Team -> NamedUser -> result string;
  on_team_add_membership :
    list call -> Team -> NamedUser -> string -> result unit;
  on_team_edit : list call -> Team -> string -> Z -> result unit;
  on_team_rate_limiting : list call -> Team -> result unit;
  on_make_github_request :
    list call -> string -> string -> option Z -> result Response;
  on_get_all_external_groups : list call -> string -> result (list Group);
  on_write_migration_summary : list call -> result unit;
  optimize_parent_child_migration :
    list (string * string) -> dict team_info_t -> list string
}.

(* ------------------------------------------------------------------ *)
(** ** The monad *)

Definition M (L A : Type) : Type := L -> World -> result A * L * World.

Definition ret {L A} (a : A) : M L A := fun l w => (Val a, l, w).

Definition raise {L A} (e : exn) : M L A := fun l w => (Exc e, l, w).

Definition bind {L A B} (m : M L A) (f : A -> M L B) : M L B :=
  fun l w =>
    let '(r, l', w') := m l w in
    match r with
    | Val a => f a l' w'
    | Exc e => (Exc e, l', w')
    end.

(** [try: body except ... as e: handler e]; a handler that does not apply to
    [e] re-raises it. *)
Definition try_except {L A} (body : M L A) (handler : exn -> M L A) : M L A :=
  fun l w =>
    let '(r, l', w') := body l w in
    match r with
    | Val a => (Val a, l', w')
    | Exc e => handler e l' w'
    end.

Definition get_locals {L} : M L L := fun l w => (Val l, l, w).
Definition gets {L A} (f : L -> A) : M L A := fun l w => (Val (f l), l, w).
Definition modify {L} (f : L -> L) : M L unit := fun l w => (Val tt, f l, w).

(** Calling a function of the module: it runs on locals of its own, which are
    dropped when it returns or raises. *)
Definition invoke {L L' A} (m : M L' A) (l0 : L') : M L A :=
  fun l w => let '(r, _, w') := m l0 w in (r, l, w').

(** A call that leaves the module. *)
Definition extern {L A} (c : call) (answer : list call -> result A) : M L A :=
  fun l w =>
    (answer (calls w), l, {| calls := calls w ++ [c]; logs := logs w |}).

Definition log_and_print {L} (message level : string) : M L unit :=
  fun l w =>
    (Val tt, l, {| calls := calls w; logs := logs w ++ [(message, level)] |}).

Declare Scope py_scope.
Delimit Scope py_scope with py.
Notation "x <- m ;; k" := (bind m (fun x => k))
  (at level 61, m at next level, right associativity) : py_scope.
Notation "m ;; k" := (bind m (fun _ => k))
  (at level 61, right associativity) : py_scope.
Open Scope py_scope.

(** [for x in xs: body x], for a body without [break] or [return]. *)
Fixpoint for_each {L A} (xs : list A) (body : A -> M L unit) : M L unit :=
  match xs with
  | [] => ret tt
  | x :: xs' => body x ;; for_each xs' body
  end.

Definition when {L} (c : bool) (m : M L unit) : M L unit :=
  if c then m else ret tt.

(* ------------------------------------------------------------------ *)
(** ** The module *)

Section Migration.

Variable env : Env.

(** *** Calls that leave the module *)

Definition map_result {A B} (f : A -> B) (r : result A) : result B :=
  match r with Val a => Val (f a) | Exc e => Exc e end.

Definition get_user {L} (gh : Github) (username : string)
  : M L (option NamedUser) :=
  extern (get_user_call gh username)
         (fun h => on_get_user env h gh username).

Definition get_organization {L} (gh : Github) (org_name : string)
  : M L Organization :=
  extern (get_organization_call gh org_name)
         (fun h => map_result
                     (fun _ => {| org_client := gh; org_login := org_name |})
                     (on_get_organization env h gh org_name)).

Definition org_get_members {L} (org : Organization) : M L (list NamedUser) :=
  extern (org_get_members_call org) (fun h => on_org_get_members env h org).

Definition org_create_team {L} (org : Organization)
    (name description privacy notification_setting : string) : M L Team :=
  extern (org_create_team_call org name description privacy
                               notification_setting)
         (fun h => on_org_create_team env h org name description privacy).

Definition org_get_teams {L} (org : Organization) : M L (list Team) :=
  extern (org_get_teams_call org) (fun h => on_org_get_teams env h org).

Definition org_get_team_by_slug {L} (org : Organization) (slug : string)
  : M L Team :=
  extern (org_get_team_by_slug_call org slug)
         (fun h => on_org_get_team_by_slug env h org slug).

Definition team_get_members {L} (team : Team) : M L (list NamedUser) :=
  extern (team_get_members_call team)
         (fun h => on_team_get_members env h team).

Definition team_get_team_membership {L} (team : Team) (member : NamedUser)
  : M L string :=
  extern (team_get_team_membership_call team member)
         (fun h => on_team_get_team_membership env h team member).

Definition team_add_membership {L} (team : Team) (member : NamedUser)
    (role : string) : M L unit :=
  extern (team_add_membership_call team member role)
         (fun h => on_team_add_membership env h team member role).

Definition team_edit {L} (team : Team) (name : string) (parent_team_id : Z)
  : M L unit :=
  extern (team_edit_call team name parent_team_id)
         (fun h => on_team_edit env h team name parent_team_id).

(** Reading [team._requester._Requester__connection.rate_limiting]. *)
Definition team_rate_limiting {L} (team : Team) : M L unit :=
  extern (team_rate_limiting_call team)
         (fun h => on_team_rate_limiting env h team).

Definition make_github_request {L} (method url token : string)
    (json_data : option Z) : M L Response :=
  extern (make_github_request_call method url token json_data)
         (fun h => on_make_github_request env h method url json_data).

Definition get_all_external_groups {L} (org_name token : string)
  : M L (list Group) :=
  extern (get_all_external_groups_call org_name token)
         (fun h => on_get_all_external_groups env h org_name).

(** Modelled from the spec: [smart_rate_limit_handler] is not in the module;
    the Rate Limit Governor blocks until quota is available and never
    raises. *)
Definition smart_rate_limit_handler {L} (gh : option Github) : M L unit :=
  extern (smart_rate_limit_handler_call gh) (fun _ => Val tt).

Definition time_sleep {L} (seconds : Z) : M L unit :=
  extern (time_sleep_call seconds) (fun _ => Val tt).

(** *** [validate_user] *)

Definition validate_user {L} (gh_client : Github) (username : string)
  : M L (option string) :=
  try_except
    (user <- get_user gh_client (PyStr.strip username) ;;
     ret (match user with Some u => Some (login u) | None => None end))
    (fun e =>
       match e with
       | UnknownObjectException _ _ =>
           log_and_print ("User '" ++ username ++ "' not found on GitHub")
                         "warning" ;;
           ret None
       | _ =>
           log_and_print ("Error validating user '" ++ username ++ "': "
                          ++ str_exn e) "error" ;;
           ret None
       end).

(** *** [user_exists_in_org] *)

Definition max_attempts : nat := 2.

(** The [while rate_limited and attempt < max_attempts] loop, by recursion on
    [max_attempts - attempt]; [rate_limited] is only cleared on the line
    before a [return].  An iteration that returns gives [Some] of the
    returned value, one that goes round again gives [None]. *)
Definition org_fetch_attempt {L} (gh_client : Github)
    (org_name username validated_username : string) : M L (option bool) :=
  try_except
    (org <- get_organization gh_client org_name ;;
     try_except
       (members <- org_get_members org ;;
        ret (Some (existsb
                     (fun member => String.eqb (login member)
                                               validated_username)
                     members)))
       (fun e =>
          if is_GithubException e then
            log_and_print ("Error checking members for '"
                           ++ validated_username ++ "': " ++ str_exn e)
                          "error" ;;
            ret (Some false)
          else raise e))
    (fun e =>
       match e with
       | RateLimitExceededException _ _ =>
           log_and_print ("Rate limit exceeded when checking if '"
                          ++ username ++ "' is in org, waiting for reset")
                         "warning" ;;
           smart_rate_limit_handler (Some gh_client) ;;
           ret None
       | _ =>
           log_and_print ("Error checking user existence for '"
                          ++ username ++ "': " ++ str_exn e) "error" ;;
           ret (Some false)
       end).

Fixpoint org_fetch_loop {L} (remaining : nat) (gh_client : Github)
    (org_name username validated_username : string) : M L bool :=
  match remaining with
  | O => ret false
  | S remaining' =>
      r <- org_fetch_attempt gh_client org_name username
                             validated_username ;;
      match r with
      | Some b => ret b
      | None => org_fetch_loop remaining' gh_client org_name username
                               validated_username
      end
  end.

Definition user_exists_in_org {L} (gh_client : Github)
    (org_name username : string) : M L bool :=
  if orb (negb (PyStr.truthy username))
         (negb (PyStr.truthy (PyStr.strip username)))
  then ret false
  else
    validated_username <- validate_user gh_client username ;;
    match validated_username with
    | None => ret false
    | Some validated =>
        if negb (PyStr.truthy validated) then ret false
        else org_fetch_loop max_attempts gh_client org_name username
                            validated
    end.

(** *** [create_gh_team] *)

Definition create_gh_team {L} (gh_target : Github)
    (org_name team_name description privacy : string)
    (target_teams_cache : option (dict Team))
  : M L (option Team * string) :=
  try_except
    (org <- get_organization gh_target org_name ;;
     let cache := match target_teams_cache with
                  | Some c => c
                  | None => PyDict.empty
                  end in
     match PyDict.get (PyStr.lower team_name) cache with
     | Some team =>
         log_and_print ("Team '" ++ team_name
                        ++ "' already exists in organization '" ++ org_name
                        ++ "' with privacy '" ++ team_privacy team ++ "'")
                       "warning" ;;
         ret (Some team, "exist")
     | None =>
         try_except
           (team <- org_create_team org team_name description privacy
                                    "notifications_enabled" ;;
            log_and_print ("Created team '" ++ team_name
                           ++ "' in organization '" ++ org_name
                           ++ "' with privacy '" ++ privacy ++ "'")
                          "success" ;;
            ret (Some team, "new"))
           (fun e =>
              if is_GithubException e then
                (if exn_status e =? 422 then
                   log_and_print ("Validation failed while creating team '"
                                  ++ team_name ++ "': " ++ str_exn e)
                                 "error"
                 else if exn_status e =? 403 then
                   log_and_print ("Permission denied while creating team '"
                                  ++ team_name ++ "': " ++ str_exn e)
                                 "error"
                 else
                   log_and_print ("GitHub error creating team '"
                                  ++ team_name ++ "': " ++ str_exn e)
                                 "error") ;;
                raise e
              else raise e)
     end)
    (fun e =>
       match e with
       | RateLimitExceededException _ _ =>
           log_and_print ("Rate limit exceeded while creating team '"
                          ++ team_name ++ "': " ++ str_exn e) "error" ;;
           raise e
       | _ =>
           log_and_print ("Error creating/updating team '" ++ team_name
                          ++ "' in '" ++ org_name ++ "': " ++ str_exn e)
                         "error" ;;
           raise e
       end).

(** *** [set_team_parent] *)

Definition set_team_parent {L} (gh_target : Github) (org_name : string)
    (team parent_team : Team) : M L bool :=
  try_except
    (log_and_print ("Setting parent team - Team: " ++ team_name team
                    ++ " (ID: " ++ PyStr.of_Z (team_id team)
                    ++ "), Parent: " ++ team_name parent_team
                    ++ " (ID: " ++ PyStr.of_Z (team_id parent_team) ++ ")")
                   "info" ;;
     team_edit team (team_name team) (team_id parent_team) ;;
     log_and_print ("Successfully set parent team '"
                    ++ team_name parent_team ++ "' for team '"
                    ++ team_name team ++ "'") "success" ;;
     ret true)
    (fun e =>
       log_and_print ("Error setting parent team: " ++ str_exn e) "error" ;;
       ret false).

(** *** [get_team_by_name] *)

Definition get_team_by_name {L} (gh_target : Github)
    (org_name name : string) : M L (option Team) :=
  try_except
    (org <- get_organization gh_target org_name ;;
     teams <- org_get_teams org ;;
     ret (find (fun team => String.eqb (team_name team) name) teams))
    (fun e =>
       log_and_print ("Error getting team '" ++ name ++ "': " ++ str_exn e)
                     "error" ;;
       ret None).

(** *** [migrate_team_members] *)

Definition role_of (membership_role : string) : string :=
  if String.eqb membership_role "maintainer" then "maintainer" else "member".

(** The three ways a member is recorded: lines 164-169, 192-197 and
    202-207 / 209-214. *)
Definition record_skipped (member : NamedUser) : M mtm_locals unit :=
  modify (set_users_status (login member)
            {| us_status := "skipped";
               us_detail :=
                 ("reason", "User not found in target organization") |}) ;;
  modify incr_members_failed ;;
  modify (append_member_details
            (login member
             ++ ": Skipped - User not found in target organization")).

Definition record_success (member : NamedUser) (role : string)
  : M mtm_locals unit :=
  modify (set_users_status (login member)
            {| us_status := "success"; us_detail := ("role", role) |}) ;;
  modify incr_members_migrated ;;
  modify (append_member_details
            (login member ++ ": Success - Added as " ++ role)).

Definition record_failed (member : NamedUser) (error detail : string)
  : M mtm_locals unit :=
  modify (set_users_status (login member)
            {| us_status := "failed"; us_detail := ("error", error) |}) ;;
  modify incr_members_failed ;;
  modify (append_member_details (login member ++ ": Failed - " ++ detail)).

(** Line 159. *)
Definition member_progress_line (source_team : Team) (index : nat)
    (member : NamedUser) (l : mtm_locals) : string :=
  "Processing user '" ++ login member ++ "' for team '"
  ++ team_name source_team ++ "' (" ++ PyStr.of_nat index ++ "/"
  ++ PyStr.of_nat (length (source_members l)) ++ ")".

(** Lines 162-198: the [try] block of one member. *)
Definition member_try (source_team target_team : Team)
    (gh_target : Github) (target_org : string) (member : NamedUser)
  : M mtm_locals unit :=
  exists_in_org <- user_exists_in_org gh_target target_org (login member) ;;
  if negb exists_in_org then
    record_skipped member
    (* continue *)
  else
    role <- try_except
              (log_and_print ("Checking current role for user '"
                              ++ login member ++ "' in team '"
                              ++ team_name source_team ++ "'") "info" ;;
               r <- team_get_team_membership source_team member ;;
               ret (role_of r))
              (fun e =>
                 if is_RateLimitExceededException e then
                   log_and_print
                     ("Rate limit exceeded when checking role for '"
                      ++ login member ++ "'. Waiting for reset...")
                     "warning" ;;
                   r <- team_get_team_membership source_team member ;;
                   ret (role_of r)
                 else raise e) ;;
    log_and_print ("Adding/Updating user '" ++ login member
                   ++ "' with role '" ++ role ++ "' to team '"
                   ++ team_name source_team ++ "'") "info" ;;
    try_except
      (team_add_membership target_team member role)
      (fun e =>
         if is_RateLimitExceededException e then
           log_and_print ("Rate limit exceeded when adding '"
                          ++ login member ++ "'. Waiting for reset...")
                         "warning" ;;
           team_rate_limiting target_team ;;
           smart_rate_limit_handler None ;;
           team_add_membership target_team member role
         else raise e) ;;
    record_success member role ;;
    log_and_print ("Successfully added " ++ login member ++ " as " ++ role
                   ++ " to team '" ++ team_name source_team ++ "'")
                  "success".

(** Lines 200-215: the handlers of that block. *)
Definition member_except (source_team : Team) (member : NamedUser) (e : exn)
  : M mtm_locals unit :=
  match e with
  | RateLimitExceededException _ _ =>
      log_and_print ("Rate limit exceeded when processing '"
                     ++ login member ++ "'. This user will be skipped.")
                    "error" ;;
      record_failed member ("Rate limit exceeded: " ++ str_exn e)
                    "Rate limit exceeded"
  | _ =>
      record_failed member (str_exn e) (str_exn e) ;;
      log_and_print ("Error adding user '" ++ login member
                     ++ "' to team '" ++ team_name source_team ++ "': "
                     ++ str_exn e) "error"
  end.

(** The body of [for index, member in enumerate(source_members, 1)]. *)
Definition member_step (source_team target_team : Team)
    (gh_target : Github) (target_org : string)
    (index : nat) (member : NamedUser) : M mtm_locals unit :=
  line <- gets (member_progress_line source_team index member) ;;
  log_and_print line "info" ;;
  try_except
    (member_try source_team target_team gh_target target_org member)
    (member_except source_team member).

Definition members_loop (source_team target_team : Team)
    (gh_target : Github) (target_org : string)
    (members : list (nat * NamedUser)) : M mtm_locals unit :=
  for_each members
           (fun im => member_step source_team target_team gh_target
                                  target_org (fst im) (snd im)).

(** Lines 148-154: the members of the source team, asked for a second time
    when the first listing is rate limited. *)
Definition list_source_members {L} (source_team : Team)
  : M L (list NamedUser) :=
  try_except
    (team_get_members source_team)
    (fun e =>
       if is_RateLimitExceededException e then
         log_and_print ("Rate limit exceeded when getting members for team '"
                        ++ team_name source_team ++ "'. Waiting for reset...")
                       "warning" ;;
         team_get_members source_team
       else raise e).

Definition migrate_team_members (source_team target_team : Team)
    (gh_target : Github) (target_org : string)
  : M mtm_locals member_results_t :=
  modify (fun _ => mtm_init) ;;
  try_except
    (modify (set_source_members []) ;;
     members <- list_source_members source_team ;;
     modify (set_source_members members) ;;
     log_and_print ("Found " ++ PyStr.of_nat (length members)
                    ++ " members in source team '" ++ team_name source_team
                    ++ "'") "info" ;;
     members_loop source_team target_team gh_target target_org
                  (PyList.enumerate1 members) ;;
     l <- get_locals ;;
     ret {| mr_success := Nat.eqb (members_failed l) 0;
            mr_total_members := length (source_members l);
            mr_members_migrated := members_migrated l;
            mr_members_failed := members_failed l;
            mr_member_details := member_details l |})
    (fun e =>
       match e with
       | RateLimitExceededException _ _ =>
           log_and_print ("Rate limit exceeded during team member migration: "
                          ++ str_exn e) "error" ;;
           l <- get_locals ;;
           ret {| mr_success := false;
                  mr_total_members := 0;
                  mr_members_migrated := members_migrated l;
                  mr_members_failed := members_failed l;
                  mr_member_details :=
                    member_details l ++ ["Error: Rate limit exceeded"] |}
       | _ =>
           log_and_print ("Error migrating members for team '"
                          ++ team_name source_team ++ "': " ++ str_exn e)
                         "error" ;;
           l <- get_locals ;;
           ret {| mr_success := false;
                  mr_total_members := 0;
                  mr_members_migrated := members_migrated l;
                  mr_members_failed := members_failed l;
                  mr_member_details :=
                    member_details l ++ ["Error: " ++ str_exn e] |}
       end).


(** *** [remove_users_from_team] *)

Definition rm_incr_success (l : rm_locals) :=
  {| success_count := S (success_count l); failed_count := failed_count l;
     details := details l |}.

Definition rm_incr_failed (l : rm_locals) :=
  {| success_count := success_count l; failed_count := S (failed_count l);
     details := details l |}.

Definition rm_append_details (s : string) (l : rm_locals) :=
  {| success_count := success_count l; failed_count := failed_count l;
     details := details l ++ [s] |}.

(** Lifting what a library call answers into the monad. *)
Definition of_result {L A} (r : result A) : M L A := fun l w => (r, l, w).

(** The body of [for username in batch]. *)
Definition remove_one (org_name team_slug token : string) (username0 : string)
  : M rm_locals unit :=
  let username := PyStr.strip username0 in
  if negb (PyStr.truthy username) then ret tt (* continue *)
  else
    let remove_url := GH_TARGET_BASE_API_URL env ++ "/orgs/" ++ org_name
                      ++ "/teams/" ++ team_slug ++ "/memberships/"
                      ++ username in
    try_except
      (log_and_print ("Removing user '" ++ username ++ "' from team '"
                      ++ team_slug ++ "'") "info" ;;
       response <- make_github_request "delete" remove_url token None ;;
       if orb (status_code response =? 204) (status_code response =? 404) then
         modify rm_incr_success ;;
         modify (rm_append_details
                   (username ++ ": Success - Removed from team")) ;;
         log_and_print ("Successfully removed user '" ++ username
                        ++ "' from team '" ++ team_slug ++ "'") "success"
       else if status_code response =? 403 then
         modify rm_incr_failed ;;
         modify (rm_append_details
                   (username ++ ": Failed - Permission denied - "
                    ++ text response)) ;;
         log_and_print ("Permission denied removing user '" ++ username
                        ++ "': " ++ text response) "error"
       else if status_code response >=? 500 then
         modify (rm_append_details
                   (username ++ ": Failed (will retry) - "
                    ++ PyStr.of_Z (status_code response) ++ " - "
                    ++ text response)) ;;
         log_and_print ("Server error removing user '" ++ username
                        ++ "' (will retry): "
                        ++ PyStr.of_Z (status_code response)) "warning" ;;
         of_result (raise_for_status response)
       else
         modify rm_incr_failed ;;
         modify (rm_append_details
                   (username ++ ": Failed - "
                    ++ PyStr.of_Z (status_code response) ++ " - "
                    ++ text response)) ;;
         log_and_print ("Failed to remove user '" ++ username ++ "': "
                        ++ PyStr.of_Z (status_code response) ++ " - "
                        ++ text response) "error")
      (fun e =>
         if is_RequestException e then
           log_and_print ("Network error removing user '" ++ username
                          ++ "' (will retry): " ++ str_exn e) "warning" ;;
           raise e
         else
           modify rm_incr_failed ;;
           modify (rm_append_details
                     (username ++ ": Failed - " ++ str_exn e)) ;;
           log_and_print ("Error removing user '" ++ username ++ "': "
                          ++ str_exn e) "error").

Definition remove_users_from_team (org_name team_slug token : string)
    (users : list string) : M rm_locals (nat * nat * list string) :=
  let batch_size := 10%nat in
  let user_batches := PyList.chunks batch_size users in
  for_each user_batches
    (fun batch =>
       for_each batch (remove_one org_name team_slug token) ;;
       when (andb (Nat.ltb 1 (length user_batches))
                  (negb (PyList.list_eqb batch (last user_batches []))))
            (time_sleep 1)) ;;
  l <- get_locals ;;
  ret (success_count l, failed_count l, details l).

(** *** [check_team_external_group_mapping] *)

Definition binding_url (org_name team_slug : string) : string :=
  GH_TARGET_BASE_API_URL env ++ "/orgs/" ++ org_name ++ "/teams/" ++ team_slug
  ++ "/external-groups".

(** [group_name.lower() == expected.lower() or
     expected.lower() in group_name.lower()]. *)
Definition is_expected_group (name expected : string) : bool :=
  orb (String.eqb (PyStr.lower name) (PyStr.lower expected))
      (PyStr.contains (PyStr.lower expected) (PyStr.lower name)).

Definition check_team_external_group_mapping {L}
    (org_name team_slug token : string) (expected_group_name : option string)
  : M L (bool * option Group) :=
  let url := binding_url org_name team_slug in
  try_except
    (log_and_print ("Checking if team '" ++ team_slug
                    ++ "' is already mapped to an external group") "info" ;;
     response <- make_github_request "get" url token None ;;
     if status_code response =? 200 then
       match json_groups response with
       | Some (group_data :: _) =>
           log_and_print ("Team '" ++ team_slug
                          ++ "' is already correctly mapped to external group.  No changes needed.")
                         "warning" ;;
           match expected_group_name with
           | Some expected =>
               if PyStr.truthy expected then
                 if is_expected_group (group_name group_data) expected then
                   log_and_print ("Team '" ++ team_slug
                                  ++ "' is corectly mapped to the expected group '"
                                  ++ group_name group_data ++ "'") "success" ;;
                   ret (true, Some group_data)
                 else
                   log_and_print ("Team '" ++ team_slug
                                  ++ "' is mapped to group '"
                                  ++ group_name group_data ++ "' but expected '"
                                  ++ expected ++ "'") "info" ;;
                   ret (false, Some group_data)
               else ret (true, Some group_data)
           | None => ret (true, Some group_data)
           end
       | _ =>
           log_and_print ("Team '" ++ team_slug
                          ++ "' is not mapped to any external group") "info" ;;
           ret (false, None)
       end
     else if status_code response =? 404 then
       log_and_print ("Team '" ++ team_slug
                      ++ "' not found or has no external group mapping")
                     "info" ;;
       ret (false, None)
     else
       log_and_print ("Error checking team external group mapping: "
                      ++ PyStr.of_Z (status_code response) ++ " - "
                      ++ text response) "error" ;;
       ret (false, None))
    (fun e =>
       log_and_print ("Error checking team external group mapping: "
                      ++ str_exn e) "error" ;;
       ret (false, None)).

(** *** [map_external_group_to_team] *)

Definition external_groups_url (org_name team_slug : string) : string :=
  GH_TARGET_BASE_API_URL env ++ "/orgs/" ++ org_name
  ++ "/external-groups?display_name=" ++ team_slug.

(** Lines 451-480: the group id the team is to be bound to; [None] stands for
    the three [return False] of the lookup. *)
Definition resolve_group_id {L} (org_name team_slug token : string)
    (group_id_arg : option Z) (idp_group_cache : option (dict Group))
  : M L (option Z) :=
  match group_id_arg with
  | Some id => ret (Some id)
  | None =>
      let cache := match idp_group_cache with Some c => c | None => [] end in
      match PyDict.get (PyStr.lower team_slug) cache with
      | Some group_data =>
          log_and_print ("Using cached external group '"
                         ++ group_name group_data ++ "' with ID '"
                         ++ PyStr.of_Z (group_id group_data) ++ "' for team '"
                         ++ team_slug ++ "'") "info" ;;
          ret (Some (group_id group_data))
      | None =>
          log_and_print ("Looking up external group ID for team '"
                         ++ team_slug ++ "'") "info" ;;
          response <- make_github_request
                        "get" (external_groups_url org_name team_slug)
                        token None ;;
          if negb (status_code response =? 200) then
            log_and_print ("Failed to get external groups by display name: "
                           ++ PyStr.of_Z (status_code response) ++ " - "
                           ++ text response) "error" ;;
            ret None
          else
            let groups := match json_groups response with
                          | Some gs => gs
                          | None => []
                          end in
            match groups with
            | [] =>
                log_and_print ("No external group found matching team name '"
                               ++ team_slug ++ "'") "warning" ;;
                ret None
            | _ =>
                match find (fun g => String.eqb (PyStr.lower (group_name g))
                                                (PyStr.lower team_slug))
                           groups with
                | None =>
                    log_and_print ("No matching external group found for team '"
                                   ++ team_slug ++ "'") "warning" ;;
                    ret None
                | Some matching_group =>
                    log_and_print ("Found matching external group '"
                                   ++ group_name matching_group
                                   ++ "' with ID '"
                                   ++ PyStr.of_Z (group_id matching_group)
                                   ++ "'") "success" ;;
                    ret (Some (group_id matching_group))
                end
            end
      end
  end.

(** Lines 482-507: the patch of the binding and the response-code policy. *)
Definition patch_binding {L} (org_name team_slug token : string) (id : Z)
  : M L bool :=
  let url := binding_url org_name team_slug in
  log_and_print ("Mapping team '" ++ team_slug
                 ++ "' to external group with ID '" ++ PyStr.of_Z id ++ "'")
                "info" ;;
  response <- make_github_request "patch" url token (Some id) ;;
  if orb (status_code response =? 200) (status_code response =? 201) then
    log_and_print ("Successfully mapped team '" ++ team_slug
                   ++ "' to external group") "success" ;;
    ret true
  else if status_code response =? 404 then
    log_and_print ("Team '" ++ team_slug ++ "' or external group not found: "
                   ++ text response) "error" ;;
    ret false
  else if status_code response =? 422 then
    log_and_print ("Validation failed for team '" ++ team_slug ++ "' mapping: "
                   ++ text response) "error" ;;
    ret false
  else if status_code response =? 403 then
    log_and_print ("Permission denied for mapping team '" ++ team_slug
                   ++ "' to external group: " ++ text response) "error" ;;
    ret false
  else
    log_and_print ("Failed to map team to external group: "
                   ++ PyStr.of_Z (status_code response) ++ " - "
                   ++ text response) "error" ;;
    of_result (raise_for_status response) ;;
    ret false.

Definition map_external_group_to_team {L} (org_name team_slug token : string)
    (group_id_arg : option Z) (idp_group_cache : option (dict Group))
  : M L bool :=
  try_except
    (mapping <- check_team_external_group_mapping org_name team_slug token
                                                  (Some team_slug) ;;
     if fst mapping then
       log_and_print ("Team '" ++ team_slug
                      ++ "' is already mapped to external group. No changes needed.")
                     "info" ;;
       ret true
     else
       resolved <- resolve_group_id org_name team_slug token group_id_arg
                                    idp_group_cache ;;
       match resolved with
       | None => ret false
       | Some id => patch_binding org_name team_slug token id
       end)
    (fun e =>
       if is_RequestException e then
         log_and_print ("Network error mapping team to external group: "
                        ++ str_exn e) "error" ;;
         raise e
       else
         log_and_print ("Error mapping team to external group: " ++ str_exn e)
                       "error" ;;
         raise e).

(** *** [migrate_teams_optimized] *)

Definition success_states : list string := ["success"; "exists"].

Definition team_info_of (team : Team) : team_info_t :=
  {| ti_name := team_name team;
     ti_description := match team_description team with
                       | Some d => if PyStr.truthy d then d else ""
                       | None => ""
                       end;
     ti_privacy := team_privacy team;
     ti_parent := team_parent team;
     ti_team_obj := Some team |}.

(** [team_cache[team.slug] = {...}]. *)
Definition cache_team (team : Team) : mto_locals -> mto_locals :=
  with_team_cache (PyDict.set (team_slug team) (team_info_of team)).

(** A stage that may end the invocation, followed by the rest of it. *)
Definition and_then {L} (m : M L (option outcome)) (k : M L outcome)
  : M L outcome :=
  r <- m ;;
  match r with
  | Some o => ret o
  | None => k
  end.

(** Lines 595-620: the body of [for team_name in teams_to_migrate]. *)
Definition fetch_named_team (gh_source : Github) (source_org_obj : Organization)
    (name : string) : M mto_locals unit :=
  try_except
    (team <- org_get_team_by_slug source_org_obj (PyStr.strip name) ;;
     modify (cache_team team) ;;
     log_and_print ("Fetched team: " ++ name) "info")
    (fun e =>
       match e with
       | RateLimitExceededException _ _ =>
           log_and_print ("Rate limit reached fetching team '" ++ name
                          ++ "'. Waiting for reset...") "error" ;;
           smart_rate_limit_handler (Some gh_source) ;;
           team <- org_get_team_by_slug source_org_obj (PyStr.strip name) ;;
           modify (cache_team team)
       | _ =>
           log_and_print ("Error fetching team '" ++ name ++ "': "
                          ++ str_exn e) "error"
       end).

(** Lines 593-650: the source cache. *)
Definition fetch_source_teams (gh_source : Github)
    (source_org_obj : Organization) : M mto_locals (option outcome) :=
  teams <- gets teams_to_migrate ;;
  r <- match teams with
       | _ :: _ =>
           log_and_print ("Fetching specific teams ("
                          ++ PyStr.of_nat (length teams)
                          ++ ") from source organization...") "info" ;;
           for_each teams (fetch_named_team gh_source source_org_obj) ;;
           cache <- gets team_cache ;;
           log_and_print ("Successfully fetched "
                          ++ PyStr.of_nat (length cache)
                          ++ " teams from source organization") "info" ;;
           ret None
       | [] =>
           log_and_print "Pre-fetching all teams from source organization..."
                         "info" ;;
           try_except
             (all_source_teams <- org_get_teams source_org_obj ;;
              log_and_print ("Found "
                             ++ PyStr.of_nat (length all_source_teams)
                             ++ " teams in source organization") "info" ;;
              for_each all_source_teams
                       (fun team => modify (cache_team team)) ;;
              ret None)
             (fun e =>
                if is_RateLimitExceededException e then
                  log_and_print
                    "Rate limit reached during initial team fetch. Waiting for reset..."
                    "error" ;;
                  smart_rate_limit_handler (Some gh_source) ;;
                  ret (Some (Restart teams))
                else raise e)
       end ;;
  match r with
  | Some o => ret (Some o)
  | None =>
      teams <- gets teams_to_migrate ;;
      when (match teams with [] => true | _ => false end)
           (cache <- gets team_cache ;;
            modify (with_teams_to_migrate (fun _ => PyDict.keys cache))) ;;
      ret None
  end.

(** Lines 652-670: the target cache, by name and by slug. *)
Definition fetch_target_teams (gh_target : Github)
    (target_org_obj : Organization) : M mto_locals (option outcome) :=
  modify (with_target_teams_cache (fun _ => [])) ;;
  try_except
    (all_target_teams <- org_get_teams target_org_obj ;;
     log_and_print ("Found " ++ PyStr.of_nat (length all_target_teams)
                    ++ " teams in target organization") "info" ;;
     for_each all_target_teams
       (fun team =>
          modify (with_target_teams_cache
                    (PyDict.set (PyStr.lower (team_name team)) team)) ;;
          modify (with_target_teams_cache
                    (PyDict.set (PyStr.lower (team_slug team)) team))) ;;
     ret None)
    (fun e =>
       if is_RateLimitExceededException e then
         log_and_print
           "Rate limit reached during target team fetch. Waiting for reset..."
           "error" ;;
         smart_rate_limit_handler (Some gh_target) ;;
         teams <- gets teams_to_migrate ;;
         ret (Some (Restart teams))
       else raise e).

(** Lines 672-692: the IDP group cache. *)
Definition prefetch_idp_groups (target_org : string) (map_idp_groups : bool)
  : M mto_locals unit :=
  modify (with_idp_group_cache (fun _ => [])) ;;
  when map_idp_groups
    (try_except
       (log_and_print "Pre-fetching all available IDP groups..." "info" ;;
        idp_groups <- get_all_external_groups target_org
                                              (GH_TARGET_TOKEN env) ;;
        for_each idp_groups
          (fun group =>
             let name := PyStr.lower (group_name group) in
             modify (with_idp_group_cache (PyDict.set name group)) ;;
             let normalized_name :=
               PyStr.replace " " "_" (PyStr.replace "-" "_" name) in
             when (negb (String.eqb normalized_name name))
                  (modify (with_idp_group_cache
                             (PyDict.set normalized_name group)))) ;;
        cache <- gets idp_group_cache ;;
        log_and_print ("Cached " ++ PyStr.of_nat (length cache)
                       ++ " external IDP groups") "info")
       (fun e =>
          log_and_print ("Error fetching IDP groups: " ++ str_exn e) "error")).

(** Lines 694-703: the parent-child pairs and the creation order. *)
Definition order_parent_child (migrate_parent_child : bool)
  : M mto_locals unit :=
  modify (with_parent_child_relationships (fun _ => [])) ;;
  when migrate_parent_child
    (cache <- gets team_cache ;;
     for_each (PyDict.items cache)
       (fun item =>
          match ti_parent (snd item) with
          | Some parent =>
              when (PyStr.truthy parent)
                   (modify (with_parent_child_relationships
                              (fun rels => (rels ++ [(fst item, parent)])%list)))
          | None => ret tt
          end) ;;
     rels <- gets parent_child_relationships ;;
     modify (with_teams_to_migrate
               (fun _ => optimize_parent_child_migration env rels cache)) ;;
     log_and_print
       "Optimized team creation order for parent-child relationships" "info").

Definition set_status (team status : string) : mto_locals -> mto_locals :=
  with_migration_status (PyDict.set team status).

(** [migration_details[team_name] = team_details]. *)
Definition store_team_details (team : string) : M mto_locals unit :=
  d <- gets team_details ;;
  modify (with_migration_details (PyDict.set team d)).

(** Lines 782-830: the IDP binding of a team that was created or found. *)
Definition bind_idp_group (gh_target : Github) (target_org : string)
    (index : nat) (name : string) (target_team : Team) : M mto_locals unit :=
  try_except
    (when (Nat.eqb (index mod 10) 0)
          (smart_rate_limit_handler (Some gh_target)) ;;
     mapping <- check_team_external_group_mapping
                  target_org name (GH_TARGET_TOKEN env) (Some name) ;;
     if negb (fst mapping) then
       target_team_members <-
         try_except
           (log_and_print ("Getting existing members of team '" ++ name
                           ++ "' before IDP mapping") "info" ;;
            members <- team_get_members target_team ;;
            ret (map login members))
           (fun e =>
              if is_RateLimitExceededException e then
                log_and_print
                  "Rate limit exceeded when getting members. Waiting for reset..."
                  "warning" ;;
                smart_rate_limit_handler (Some gh_target) ;;
                members <- team_get_members target_team ;;
                ret (map login members)
              else raise e) ;;
       when (match target_team_members with [] => false | _ => true end)
            (log_and_print ("Removing "
                            ++ PyStr.of_nat (length target_team_members)
                            ++ " existing members from team '" ++ name
                            ++ "' before IDP mapping") "info" ;;
             removed <- invoke (remove_users_from_team
                                  target_org name (GH_TARGET_TOKEN env)
                                  target_team_members) rm_init ;;
             log_and_print ("Removed " ++ PyStr.of_nat (fst (fst removed))
                            ++ " members, "
                            ++ PyStr.of_nat (snd (fst removed)) ++ " failed")
                           "info") ;;
       cache <- gets idp_group_cache ;;
       let id := match PyDict.get (PyStr.lower name) cache with
                 | Some group_data => Some (group_id group_data)
                 | None => None
                 end in
       mapped <- map_external_group_to_team
                   target_org name (GH_TARGET_TOKEN env) id (Some cache) ;;
       if mapped then
         log_and_print ("Successfully mapped team '" ++ name
                        ++ "' to IDP group") "success" ;;
         modify (with_team_details (set_idp_mapping_status "success"))
       else
         log_and_print ("Failed to map team '" ++ name ++ "' to IDP group")
                       "error" ;;
         modify (with_team_details (set_idp_mapping_status "failed"))
     else
       log_and_print ("Team '" ++ name
                      ++ "' is already mapped to an IDP group. Skipping mapping.")
                     "success" ;;
       modify (with_team_details (set_idp_mapping_status "already_mapped")))
    (fun e =>
       log_and_print ("Error mapping team to IDP group: " ++ str_exn e)
                     "error" ;;
       modify (with_team_details (set_idp_mapping_status "failed"))).

(** Lines 728-737: the details a team starts with. *)
Definition fresh_team_details (name : string) (team_info : team_info_t)
  : team_details_t :=
  {| td_description := ti_description team_info;
     td_privacy := ti_privacy team_info;
     td_total_members := 0;
     td_members_migrated := 0;
     td_members_failed := 0;
     td_member_details := [];
     td_idp_group_name := name;
     td_idp_mapping_status := "not_attempted" |}.

(** Lines 727-864: the [try] block of one team.  The [continue] of line 756
    leaves the block; every other path ends with line 864. *)
Definition migrate_one_team (gh_target : Github)
    (source_org_obj : Organization) (target_org : string)
    (migrate_users map_idp_groups : bool)
    (index : nat) (name : string) (team_info : team_info_t)
  : M mto_locals unit :=
  modify (with_team_details (fun _ => fresh_team_details name team_info)) ;;
  idp_cache <- gets idp_group_cache ;;
  let idp_group_exists :=
    if map_idp_groups then PyDict.mem (PyStr.lower name) idp_cache
    else false in
  if andb map_idp_groups (negb idp_group_exists) then
    log_and_print ("IDP group '" ++ name
                   ++ "' not found in cache. Skipping team creation.")
                  "warning" ;;
    modify (set_status name "skipped") ;;
    modify (with_team_details (set_idp_mapping_status "group_not_found")) ;;
    store_team_details name
    (* continue *)
  else
    source_team <- match ti_team_obj team_info with
                   | Some t => ret t
                   | None => org_get_team_by_slug source_org_obj name
                   end ;;
    cache <- gets target_teams_cache ;;
    created <- create_gh_team gh_target target_org name
                              (ti_description team_info)
                              (ti_privacy team_info) (Some cache) ;;
    let new_or_exist := snd created in
    match fst created with
    | Some target_team =>
        when (String.eqb new_or_exist "new")
             (modify (with_target_teams_cache
                        (PyDict.set (PyStr.lower name) target_team)) ;;
              modify (with_target_teams_cache
                        (PyDict.set (PyStr.lower (team_slug target_team))
                                    target_team))) ;;
        when (andb map_idp_groups idp_group_exists)
             (bind_idp_group gh_target target_org index name target_team) ;;
        if andb migrate_users (negb map_idp_groups) then
          when (Nat.eqb (index mod 5) 0)
               (smart_rate_limit_handler (Some gh_target)) ;;
          member_results <- invoke (migrate_team_members
                                      source_team target_team gh_target
                                      target_org) mtm_init ;;
          modify (set_status name (if mr_success member_results
                                   then "success" else "partial_success")) ;;
          modify (with_team_details (update_member_results member_results))
        else
          modify (set_status name "success")
    | None =>
        if String.eqb new_or_exist "exist" then
          log_and_print ("Team '" ++ name
                         ++ "' already exists in the target organization.")
                        "info" ;;
          modify (set_status name "exists") ;;
          mapped <- map_external_group_to_team
                      target_org name (GH_TARGET_TOKEN env) None None ;;
          if mapped then
            log_and_print ("Successfully mapped team '" ++ name
                           ++ "' to IDP group") "success" ;;
            modify (with_team_details (set_idp_mapping_status "success"))
          else
            log_and_print ("Failed to map team '" ++ name ++ "' to IDP group")
                          "error" ;;
            modify (with_team_details (set_idp_mapping_status "failed"))
        else
          modify (set_status name "failed")
    end ;;
    store_team_details name.

(** Line 872: [batch[batch.index(team_name):] +
    [t for b in batches[batch_num:] for t in b]]; [batch_num] counts from 1. *)
Definition remaining_teams (batches : list (list string)) (batch_num : nat)
    (batch : list string) (name : string) : option (list string) :=
  match PyList.index name batch with
  | Some i => Some (skipn i batch ++ concat (skipn batch_num batches))%list
  | None => None
  end.

(** Line 717. *)
Definition team_progress_line (batch_num batch_size index total_teams : nat)
    (name : string) : string :=
  "Processing team " ++ PyStr.of_nat ((batch_num - 1) * batch_size + index)
  ++ "/" ++ PyStr.of_nat total_teams ++ ": " ++ name.

(** Lines 716-879: the body of [for index, team_name in enumerate(batch, 1)]. *)
Definition process_team (gh_target : Github)
    (source_org_obj : Organization) (target_org : string)
    (migrate_users map_idp_groups : bool)
    (batches : list (list string)) (batch_num : nat) (batch : list string)
    (total_teams : nat) (batch_size : nat)
    (index : nat) (name : string) : M mto_locals (option outcome) :=
  log_and_print (team_progress_line batch_num batch_size index total_teams
                                    name) "info" ;;
  cache <- gets team_cache ;;
  match PyDict.get (PyStr.lower name) cache with
  | None =>
      log_and_print ("Team " ++ name
                     ++ " not found in source cache, skipping") "error" ;;
      modify (set_status name "failed") ;;
      ret None
  | Some team_info =>
      try_except
        (migrate_one_team gh_target source_org_obj target_org migrate_users
                          map_idp_groups index name team_info ;;
         ret None)
        (fun e =>
           match e with
           | RateLimitExceededException _ _ =>
               log_and_print ("Rate limit reached processing team '" ++ name
                              ++ "'. Waiting for reset...") "error" ;;
               smart_rate_limit_handler (Some gh_target) ;;
               match remaining_teams batches batch_num batch name with
               | Some remaining => ret (Some (Restart remaining))
               | None => raise (PyException "ValueError")
               end
           | _ =>
               log_and_print ("Error processing team '" ++ name ++ "': "
                              ++ str_exn e) "error" ;;
               modify (set_status name "failed") ;;
               store_team_details name ;;
               ret None
           end)
  end.

(** A [for] loop whose body may end the invocation. *)
Fixpoint for_each_until {L A} (xs : list A)
    (body : A -> M L (option outcome)) : M L (option outcome) :=
  match xs with
  | [] => ret None
  | x :: xs' =>
      r <- body x ;;
      match r with
      | Some o => ret (Some o)
      | None => for_each_until xs' body
      end
  end.

(** Lines 705-883: the batches. *)
Definition process_batches (gh_target : Github)
    (source_org_obj : Organization) (target_org : string)
    (migrate_users map_idp_groups : bool) : M mto_locals (option outcome) :=
  teams <- gets teams_to_migrate ;;
  let total_teams := length teams in
  log_and_print ("Starting migration of " ++ PyStr.of_nat total_teams
                 ++ " teams") "info" ;;
  let batch_size := 100%nat in
  let batches := PyList.chunks batch_size teams in
  for_each_until (PyList.enumerate1 batches)
    (fun nb =>
       let batch_num := fst nb in
       let batch := snd nb in
       log_and_print ("Processing batch " ++ PyStr.of_nat batch_num ++ "/"
                      ++ PyStr.of_nat (length batches) ++ " ("
                      ++ PyStr.of_nat (length batch) ++ " teams)") "info" ;;
       r <- for_each_until (PyList.enumerate1 batch)
              (fun it =>
                 process_team gh_target source_org_obj target_org
                              migrate_users map_idp_groups batches batch_num
                              batch total_teams batch_size (fst it) (snd it)) ;;
       match r with
       | Some o => ret (Some o)
       | None =>
           when (Nat.ltb batch_num (length batches))
                (smart_rate_limit_handler (Some gh_target)) ;;
           ret None
       end).

(** Lines 895-916: the body of [for child, parent in relationship_batch]. *)
Definition link_parent (gh_target : Github) (target_org : string)
    (child parent : string) : M mto_locals unit :=
  statuses <- gets migration_status ;;
  when (match PyDict.get child statuses with
        | Some status => PyStr.mem status success_states
        | None => false
        end)
    (try_except
       (cache <- gets target_teams_cache ;;
        let cached_target := PyDict.get (PyStr.lower child) cache in
        let cached_parent := PyDict.get (PyStr.lower parent) cache in
        target_team <-
          match cached_target with
          | Some t => ret (Some t)
          | None =>
              t <- get_team_by_name gh_target target_org child ;;
              match t with
              | Some t' =>
                  modify (with_target_teams_cache
                            (PyDict.set (PyStr.lower child) t'))
              | None => ret tt
              end ;;
              ret t
          end ;;
        parent_team <-
          match cached_parent with
          | Some t => ret (Some t)
          | None =>
              t <- get_team_by_name gh_target target_org parent ;;
              match t with
              | Some t' =>
                  modify (with_target_teams_cache
                            (PyDict.set (PyStr.lower parent) t'))
              | None => ret tt
              end ;;
              ret t
          end ;;
        match target_team, parent_team with
        | Some t, Some p =>
            set_team_parent gh_target target_org t p ;; ret tt
        | _, _ => ret tt
        end)
       (fun e =>
          log_and_print ("Error setting parent for team '" ++ child ++ "': "
                         ++ str_exn e) "error")).

(** Lines 885-920: the parent links. *)
Definition link_parents (gh_target : Github) (target_org : string)
    (migrate_parent_child : bool) : M mto_locals unit :=
  rels <- gets parent_child_relationships ;;
  when (andb migrate_parent_child
             (match rels with [] => false | _ => true end))
    (log_and_print "Setting up parent-child relationships" "info" ;;
     let nbatches := ((length rels + 49) / 50)%nat in
     for_each (PyList.enumerate1 (PyList.chunks 50 rels))
       (fun nb =>
          log_and_print ("Processing parent-child batch "
                         ++ PyStr.of_nat (fst nb) ++ "/"
                         ++ PyStr.of_nat nbatches) "info" ;;
          for_each (snd nb)
                   (fun cp => link_parent gh_target target_org
                                          (fst cp) (snd cp)) ;;
          when (Nat.ltb (fst nb) nbatches)
               (smart_rate_limit_handler (Some gh_target)))).

(** Modelled from the spec: [write_migration_summary] is not in the module;
    the Migration Reporter consumes the final status and detail maps and
    persists a summary. *)
Definition write_migration_summary {L}
    (output_folder source_org target_org : string)
    (successful_migrations failed_migrations : list string)
    (details : dict team_details_t) : M L unit :=
  extern (write_migration_summary_call output_folder source_org target_org
                                       successful_migrations
                                       failed_migrations details)
         (fun h => on_write_migration_summary env h).

Definition successful_of (statuses : dict string) : list string :=
  map fst (filter (fun ts => PyStr.mem (snd ts) success_states)
                  (PyDict.items statuses)).

Definition failed_of (statuses : dict string) : list string :=
  map fst (filter (fun ts => negb (PyStr.mem (snd ts) success_states))
                  (PyDict.items statuses)).

(** [all(status in ["success", "exists"] for status in
    migration_status.values())]. *)
Definition all_succeeded (statuses : dict string) : bool :=
  forallb (fun status => PyStr.mem status success_states)
          (PyDict.values statuses).

(** Lines 922-934: the summary and the return value. *)
Definition write_summary (output_folder source_org target_org : string)
  : M mto_locals outcome :=
  statuses <- gets migration_status ;;
  let successful_migrations := successful_of statuses in
  let failed_migrations := failed_of statuses in
  details <- gets migration_details ;;
  write_migration_summary output_folder source_org target_org
                          successful_migrations failed_migrations details ;;
  ret (Done (all_succeeded statuses)).

(** One invocation of [migrate_teams_optimized], up to its [return]. *)
Definition migrate_teams_optimized_body (gh_source gh_target : Github)
    (source_org target_org output_folder : string)
    (migrate_users map_idp_groups migrate_parent_child : bool)
  : M mto_locals outcome :=
  modify (with_team_cache (fun _ => [])) ;;
  modify (with_migration_status (fun _ => [])) ;;
  modify (with_migration_details (fun _ => [])) ;;
  source_org_obj <- get_organization gh_source source_org ;;
  and_then (fetch_source_teams gh_source source_org_obj)
    (log_and_print "Pre-fetching all teams from target organization..."
                   "info" ;;
     target_org_obj <- get_organization gh_target target_org ;;
     and_then (fetch_target_teams gh_target target_org_obj)
       (prefetch_idp_groups target_org map_idp_groups ;;
        order_parent_child migrate_parent_child ;;
        and_then (process_batches gh_target source_org_obj target_org
                                  migrate_users map_idp_groups)
          (link_parents gh_target target_org migrate_parent_child ;;
           write_summary output_folder source_org target_org))).

(** [migrate_teams_optimized]: every recursive call of the function is a tail
    call, so a run is its invocations one after the other, each on fresh
    locals; [fuel] bounds their number and [None] means it ran out. *)
Fixpoint migrate_teams_optimized (fuel : nat) (gh_source gh_target : Github)
    (source_org target_org output_folder : string)
    (teams : list string)
    (migrate_users map_idp_groups migrate_parent_child : bool)
    (w : World) : option (result bool * World) :=
  match fuel with
  | O => None
  | S fuel' =>
      let '(r, _, w') :=
        migrate_teams_optimized_body gh_source gh_target source_org target_org
          output_folder migrate_users map_idp_groups migrate_parent_child
          (mto_init teams) w in
      match r with
      | Val (Done b) => Some (Val b, w')
      | Val (Restart teams') =>
          migrate_teams_optimized fuel' gh_source gh_target source_org
            target_org output_folder teams' migrate_users map_idp_groups
            migrate_parent_child w'
      | Exc e => Some (Exc e, w')
      end
  end.

End Migration.

(* ------------------------------------------------------------------ *)
(** ** Reading call histories *)

Definition count_calls (p : call -> bool) (h : list call) : nat :=
  length (filter p h).

Definition is_get_organization (c : call) : bool :=
  match c with get_organization_call _ _ => true | _ => false end.

Definition is_rate_limit_wait (c : call) : bool :=
  match c with smart_rate_limit_handler_call _ => true | _ => false end.

Definition is_add_membership (c : call) : bool :=
  match c with team_add_membership_call _ _ _ => true | _ => false end.

(** A request that changes the target: [patch] or [delete]. *)
Definition is_mutating (c : call) : bool :=
  match c with
  | make_github_request_call method _ _ _ =>
      orb (String.eqb method "patch") (String.eqb method "delete")
  | _ => false
  end.

(** The world after a line of log. *)
Definition logged (message level : string) (w : World) : World :=
  {| calls := calls w; logs := logs w ++ [(message, level)] |}.

(** The world after a call. *)
Definition called (c : call) (w : World) : World :=
  {| calls := calls w ++ [c]; logs := logs w |}.

(** The three requests of the Identity Mapping Binder. *)
Definition binding_query (env : Env) (org_name team_slug token : string)
  : call :=
  make_github_request_call "get" (binding_url env org_name team_slug) token
                           None.

Definition group_search (env : Env) (org_name team_slug token : string)
  : call :=
  make_github_request_call "get" (external_groups_url env org_name team_slug)
                           token None.

Definition binding_patch (env : Env) (org_name team_slug token : string)
    (id : Z) : call :=
  make_github_request_call "patch" (binding_url env org_name team_slug) token
                           (Some id).

(** Line 472: the first group whose name is the slug, letter case apart. *)
Definition matching_group (team_slug : string) (groups : list Group)
  : option Group :=
  find (fun g => String.eqb (PyStr.lower (group_name g))
                            (PyStr.lower team_slug)) groups.

(** The groups of a response: [response.json().get('groups', [])]. *)
Definition groups_of (r : Response) : list Group :=
  match json_groups r with Some gs => gs | None => [] end.

(** The locals after a member was recorded as skipped, added or failed. *)
Definition skipped_in (member : NamedUser) (l : mtm_locals) : mtm_locals :=
  append_member_details
    (login member ++ ": Skipped - User not found in target organization")
    (incr_members_failed
       (set_users_status (login member)
          {| us_status := "skipped";
             us_detail :=
               ("reason", "User not found in target organization") |} l)).

Definition added_in (member : NamedUser) (role : string) (l : mtm_locals)
  : mtm_locals :=
  append_member_details
    (login member ++ ": Success - Added as " ++ role)
    (incr_members_migrated
       (set_users_status (login member)
          {| us_status := "success"; us_detail := ("role", role) |} l)).

Definition failed_in (member : NamedUser) (error detail : string)
    (l : mtm_locals) : mtm_locals :=
  append_member_details
    (login member ++ ": Failed - " ++ detail)
    (incr_members_failed
       (set_users_status (login member)
          {| us_status := "failed"; us_detail := ("error", error) |} l)).

(** What a computation returns, when it returns. *)
Definition returns {L A : Type} (m : M L A) (P : A -> L -> World -> Prop)
  : Prop :=
  forall l w a l' w', m l w = (Val a, l', w') -> P a l' w'.

(** A stage that does not end the invocation with its return value: it goes
    on, or it restarts. *)
Definition goes_on_or_restarts {L : Type} (r : option outcome) (_ : L)
    (_ : World) : Prop :=
  match r with
  | Some (Done _) => False
  | _ => True
  end.

(** The return value of an invocation is read off its final status map,
    which is the one handed to the summary. *)
Definition summarised (output_folder source_org target_org : string)
    (o : outcome) (l : mto_locals) (w : World) : Prop :=
  match o with
  | Done b =>
      b = all_succeeded (migration_status l)
      /\ exists before,
          calls w = (before ++
            [write_migration_summary_call
               output_folder source_org target_org
               (successful_of (migration_status l))
               (failed_of (migration_status l))
               (migration_details l)])%list
  | Restart _ => True
  end.

(** While members are processed, every status other than "success" in
    [users_status] has been counted in [members_failed]. *)
Definition counted (l : mtm_locals) : Prop :=
  forall name st,
    PyDict.get name (users_status l) = Some st ->
    us_status st <> "success" ->
    (0 < members_failed l)%nat.

(* ------------------------------------------------------------------ *)
(** ** Scenarios

    Concrete environments on which the module is run below. *)

Module Scenario.

Definition a_team (id : Z) (name : string) : Team :=
  {| team_id := id; team_name := name; team_slug := PyStr.lower name;
     team_description := Some ""; team_privacy := "closed";
     team_parent := None |}.

Definition not_found : Response :=
  {| status_code := 404; text := "Not Found"; json_groups := None |}.

(** An environment in which every call succeeds: users exist, the
    organisations have no members, teams and groups, and no team is bound. *)
Definition quiet : Env :=
  {| GH_TARGET_BASE_API_URL := "https://api.example";
     GH_TARGET_TOKEN := "t0ken";
     on_get_user := fun _ _ username => Val (Some {| login := username |});
     on_get_organization := fun _ _ _ => Val tt;
     on_org_get_members := fun _ _ => Val [];
     on_org_create_team := fun h _ name _ _ =>
                             Val (a_team (Z.of_nat (length h)) name);
     on_org_get_teams := fun _ _ => Val [];
     on_org_get_team_by_slug := fun h _ slug =>
                                  Val (a_team (Z.of_nat (length h)) slug);
     on_team_get_members := fun _ _ => Val [];
     on_team_get_team_membership := fun _ _ _ => Val "member";
     on_team_add_membership := fun _ _ _ _ => Val tt;
     on_team_edit := fun _ _ _ _ => Val tt;
     on_team_rate_limiting := fun _ _ => Val tt;
     on_make_github_request := fun _ _ _ _ => Val not_found;
     on_get_all_external_groups := fun _ _ => Val [];
     on_write_migration_summary := fun _ => Val tt;
     optimize_parent_child_migration := fun _ cache => PyDict.keys cache |}.

Definition with_get_organization
    (f : list call -> Github -> string -> result unit) (e : Env) : Env :=
  {| GH_TARGET_BASE_API_URL := GH_TARGET_BASE_API_URL e;
     GH_TARGET_TOKEN := GH_TARGET_TOKEN e;
     on_get_user := on_get_user e;
     on_get_organization := f;
     on_org_get_members := on_org_get_members e;
     on_org_create_team := on_org_create_team e;
     on_org_get_teams := on_org_get_teams e;
     on_org_get_team_by_slug := on_org_get_team_by_slug e;
     on_team_get_members := on_team_get_members e;
     on_team_get_team_membership := on_team_get_team_membership e;
     on_team_add_membership := on_team_add_membership e;
     on_team_edit := on_team_edit e;
     on_team_rate_limiting := on_team_rate_limiting e;
     on_make_github_request := on_make_github_request e;
     on_get_all_external_groups := on_get_all_external_groups e;
     on_write_migration_summary := on_write_migration_summary e;
     optimize_parent_child_migration := optimize_parent_child_migration e |}.

Definition with_org_get_members
    (f : list call -> Organization -> result (list NamedUser)) (e : Env)
  : Env :=
  {| GH_TARGET_BASE_API_URL := GH_TARGET_BASE_API_URL e;
     GH_TARGET_TOKEN := GH_TARGET_TOKEN e;
     on_get_user := on_get_user e;
     on_get_organization := on_get_organization e;
     on_org_get_members := f;
     on_org_create_team := on_org_create_team e;
     on_org_get_teams := on_org_get_teams e;
     on_org_get_team_by_slug := on_org_get_team_by_slug e;
     on_team_get_members := on_team_get_members e;
     on_team_get_team_membership := on_team_get_team_membership e;
     on_team_add_membership := on_team_add_membership e;
     on_team_edit := on_team_edit e;
     on_team_rate_limiting := on_team_rate_limiting e;
     on_make_github_request := on_make_github_request e;
     on_get_all_external_groups := on_get_all_external_groups e;
     on_write_migration_summary := on_write_migration_summary e;
     optimize_parent_child_migration := optimize_parent_child_migration e |}.

Definition with_org_create_team
    (f : list call -> Organization -> string -> string -> string
         -> result Team) (e : Env) : Env :=
  {| GH_TARGET_BASE_API_URL := GH_TARGET_BASE_API_URL e;
     GH_TARGET_TOKEN := GH_TARGET_TOKEN e;
     on_get_user := on_get_user e;
     on_get_organization := on_get_organization e;
     on_org_get_members := on_org_get_members e;
     on_org_create_team := f;
     on_org_get_teams := on_org_get_teams e;
     on_org_get_team_by_slug := on_org_get_team_by_slug e;
     on_team_get_members := on_team_get_members e;
     on_team_get_team_membership := on_team_get_team_membership e;
     on_team_add_membership := on_team_add_membership e;
     on_team_edit := on_team_edit e;
     on_team_rate_limiting := on_team_rate_limiting e;
     on_make_github_request := on_make_github_request e;
     on_get_all_external_groups := on_get_all_external_groups e;
     on_write_migration_summary := on_write_migration_summary e;
     optimize_parent_child_migration := optimize_parent_child_migration e |}.

Definition with_team_get_members
    (f : list call -> Team -> result (list NamedUser)) (e : Env) : Env :=
  {| GH_TARGET_BASE_API_URL := GH_TARGET_BASE_API_URL e;
     GH_TARGET_TOKEN := GH_TARGET_TOKEN e;
     on_get_user := on_get_user e;
     on_get_organization := on_get_organization e;
     on_org_get_members := on_org_get_members e;
     on_org_create_team := on_org_create_team e;
     on_org_get_teams := on_org_get_teams e;
     on_org_get_team_by_slug := on_org_get_team_by_slug e;
     on_team_get_members := f;
     on_team_get_team_membership := on_team_get_team_membership e;
     on_team_add_membership := on_team_add_membership e;
     on_team_edit := on_team_edit e;
     on_team_rate_limiting := on_team_rate_limiting e;
     on_make_github_request := on_make_github_request e;
     on_get_all_external_groups := on_get_all_external_groups e;
     on_write_migration_summary := on_write_migration_summary e;
     optimize_parent_child_migration := optimize_parent_child_migration e |}.

Definition with_team_get_team_membership
    (f : list call -> Team -> NamedUser -> result string) (e : Env) : Env :=
  {| GH_TARGET_BASE_API_URL := GH_TARGET_BASE_API_URL e;
     GH_TARGET_TOKEN := GH_TARGET_TOKEN e;
     on_get_user := on_get_user e;
     on_get_organization := on_get_organization e;
     on_org_get_members := on_org_get_members e;
     on_org_create_team := on_org_create_team e;
     on_org_get_teams := on_org_get_teams e;
     on_org_get_team_by_slug := on_org_get_team_by_slug e;
     on_team_get_members := on_team_get_members e;
     on_team_get_team_membership := f;
     on_team_add_membership := on_team_add_membership e;
     on_team_edit := on_team_edit e;
     on_team_rate_limiting := on_team_rate_limiting e;
     on_make_github_request := on_make_github_request e;
     on_get_all_external_groups := on_get_all_external_groups e;
     on_write_migration_summary := on_write_migration_summary e;
     optimize_parent_child_migration := optimize_parent_child_migration e |}.

Definition with_make_github_request
    (f : list call -> string -> string -> option Z -> result Response)
    (e : Env) : Env :=
  {| GH_TARGET_BASE_API_URL := GH_TARGET_BASE_API_URL e;
     GH_TARGET_TOKEN := GH_TARGET_TOKEN e;
     on_get_user := on_get_user e;
     on_get_organization := on_get_organization e;
     on_org_get_members := on_org_get_members e;
     on_org_create_team := on_org_create_team e;
     on_org_get_teams := on_org_get_teams e;
     on_org_get_team_by_slug := on_org_get_team_by_slug e;
     on_team_get_members := on_team_get_members e;
     on_team_get_team_membership := on_team_get_team_membership e;
     on_team_add_membership := on_team_add_membership e;
     on_team_edit := on_team_edit e;
     on_team_rate_limiting := on_team_rate_limiting e;
     on_make_github_request := f;
     on_get_all_external_groups := on_get_all_external_groups e;
     on_write_migration_summary := on_write_migration_summary e;
     optimize_parent_child_migration := optimize_parent_child_migration e |}.

(** The organisation fetch is rate limited every time. *)
Definition always_rate_limited : Env :=
  with_get_organization
    (fun _ _ _ => Exc (RateLimitExceededException 403 "API rate limit exceeded"))
    quiet.

(** Team creation is refused: validation error, permission error, server
    error. *)
Definition validation_fails : Env :=
  with_org_create_team
    (fun _ _ _ _ _ => Exc (GithubException 422 "Validation Failed")) quiet.

Definition permission_denied : Env :=
  with_org_create_team
    (fun _ _ _ _ _ => Exc (GithubException 403 "Forbidden")) quiet.

Definition server_error : Env :=
  with_org_create_team
    (fun _ _ _ _ _ => Exc (GithubException 500 "Server Error")) quiet.

Definition ok_with (groups : list Group) : Response :=
  {| status_code := 200; text := "OK"; json_groups := Some groups |}.

(** Every team is bound to the group [Platform-Team-Admins]. *)
Definition bound_to_admins : Env :=
  with_make_github_request
    (fun _ _ _ _ =>
       Val (ok_with [{| group_id := 42;
                        group_name := "Platform-Team-Admins" |}]))
    quiet.

(** No team is bound; the group search answers with [groups]; a patch is
    accepted. *)
Definition searching (groups : list Group) : Env :=
  with_make_github_request
    (fun _ method url _ =>
       if String.eqb method "patch" then Val (ok_with [])
       else if PyStr.contains "display_name" url then Val (ok_with groups)
       else Val not_found)
    quiet.

(** The search finds one group, whose name only contains the slug. *)
Definition substring_only : Env :=
  searching [{| group_id := 7; group_name := "platform-team-admins" |}].

(** The search finds a group whose name contains the slug and then the group
    named like the slug. *)
Definition two_groups : Env :=
  searching [{| group_id := 7; group_name := "platform-team-admins" |};
             {| group_id := 9; group_name := "Platform-Team" |}].

(** No team is bound and the platform is down for patches. *)
Definition patch_unavailable : Env :=
  with_make_github_request
    (fun _ method _ _ =>
       if String.eqb method "patch"
       then Val {| status_code := 503; text := "Service Unavailable";
                   json_groups := None |}
       else Val not_found)
    quiet.

Definition bob : NamedUser := {| login := "bob" |}.
Definition carol : NamedUser := {| login := "carol" |}.

(** The source team has the one member [bob], who is in the target
    organisation. *)
Definition insider : Env :=
  with_team_get_members (fun _ _ => Val [bob])
    (with_org_get_members (fun _ _ => Val [bob]) quiet).

(** The same, and the role of a member cannot be read. *)
Definition role_lookup_fails : Env :=
  with_team_get_team_membership
    (fun _ _ _ => Exc (GithubException 500 "Server Error")) insider.

(** The source team has the one member [carol], who is not in the target
    organisation. *)
Definition outsider : Env :=
  with_team_get_members (fun _ _ => Val [carol]) quiet.

(** The members of a team cannot be listed. *)
Definition listing_fails : Env :=
  with_team_get_members
    (fun _ _ => Exc (GithubException 500 "Server Error")) quiet.

(** The creation of [alpha] is refused (422); the creation of any other team
    is rate limited until the Governor has been waited for once. *)
Definition interrupted : Env :=
  with_org_create_team
    (fun h _ name _ _ =>
       if String.eqb name "alpha"
       then Exc (GithubException 422 "Validation Failed")
       else if Nat.eqb (count_calls is_rate_limit_wait h) 0
            then Exc (RateLimitExceededException 403 "API rate limit exceeded")
            else Val (a_team (Z.of_nat (length h)) name))
    quiet.

(** The details recorded for a team without members and without binding. *)
Definition plain_details (name : string) : team_details_t :=
  {| td_description := ""; td_privacy := "closed"; td_total_members := 0;
     td_members_migrated := 0; td_members_failed := 0;
     td_member_details := []; td_idp_group_name := name;
     td_idp_mapping_status := "not_attempted" |}.

End Scenario.

(* ------------------------------------------------------------------ *)
(** ** Footprints

    What a computation may call: every call it adds to the history, on
    whatever path it ends, satisfies [p]. *)

Definition only_calls {L A : Type} (p : call -> bool) (m : M L A) : Prop :=
  forall l w,
  exists added,
    calls (snd (m l w)) = (calls w ++ added)%list
    /\ forallb p added = true.

(** A computation that never raises. *)
Definition never_raises {L A : Type} (m : M L A) : Prop :=
  forall l w, exists a, fst (fst (m l w)) = Val a.

(** What a computation does to the locals: started where [P] holds, it
    returns [a] with locals that satisfy [Q a], or raises with locals that
    satisfy [E]. *)
Definition triple {L A : Type} (P : L -> Prop) (m : M L A)
    (Q : A -> L -> Prop) (E : L -> Prop) : Prop :=
  forall l w, P l ->
    match fst (m l w) with
    | (Val a, l') => Q a l'
    | (Exc _, l') => E l'
    end.

(** A property of the locals that a computation keeps, however it ends. *)
Definition keeps {L A : Type} (I : L -> Prop) (m : M L A) : Prop :=
  triple I m (fun _ => I) I.

Definition is_get_user (c : call) : bool :=
  match c with get_user_call _ _ => true | _ => false end.

Definition is_org_get_members (c : call) : bool :=
  match c with org_get_members_call _ => true | _ => false end.

Definition is_create_team (c : call) : bool :=
  match c with org_create_team_call _ _ _ _ _ => true | _ => false end.

Definition is_team_edit (c : call) : bool :=
  match c with team_edit_call _ _ _ => true | _ => false end.

Definition is_request (c : call) : bool :=
  match c with make_github_request_call _ _ _ _ => true | _ => false end.

Definition is_sleep (c : call) : bool :=
  match c with time_sleep_call _ => true | _ => false end.

Definition is_summary (c : call) : bool :=
  match c with
  | write_migration_summary_call _ _ _ _ _ _ => true
  | _ => false
  end.

Definition is_get_team_membership (c : call) : bool :=
  match c with team_get_team_membership_call _ _ => true | _ => false end.

(** A request with the given method. *)
Definition is_request_with (method : string) (c : call) : bool :=
  match c with
  | make_github_request_call m _ _ _ => String.eqb m method
  | _ => false
  end.

(* ------------------------------------------------------------------ *)
(** ** More scenarios *)

Module Scenario2.

Definition rate_limit : exn :=
  RateLimitExceededException 403 "API rate limit exceeded".

(** The members of the target organisation cannot be listed: the listing is
    rate limited. *)
Definition members_rate_limited : Env :=
  Scenario.with_org_get_members (fun _ _ => Exc rate_limit) Scenario.quiet.

(** The target cache knows the team [Platform] under its lowered name. *)
Definition platform_cache : dict Team :=
  [("platform", Scenario.a_team 7 "Platform")].

(** The target organisation has the teams [Dev] and [dev]. *)
Definition with_org_get_teams
    (f : list call -> Organization -> result (list Team)) (e : Env) : Env :=
  {| GH_TARGET_BASE_API_URL := GH_TARGET_BASE_API_URL e;
     GH_TARGET_TOKEN := GH_TARGET_TOKEN e;
     on_get_user := on_get_user e;
     on_get_organization := on_get_organization e;
     on_org_get_members := on_org_get_members e;
     on_org_create_team := on_org_create_team e;
     on_org_get_teams := f;
     on_org_get_team_by_slug := on_org_get_team_by_slug e;
     on_team_get_members := on_team_get_members e;
     on_team_get_team_membership := on_team_get_team_membership e;
     on_team_add_membership := on_team_add_membership e;
     on_team_edit := on_team_edit e;
     on_team_rate_limiting := on_team_rate_limiting e;
     on_make_github_request := on_make_github_request e;
     on_get_all_external_groups := on_get_all_external_groups e;
     on_write_migration_summary := on_write_migration_summary e;
     optimize_parent_child_migration := optimize_parent_child_migration e |}.

Definition team_Dev : Team :=
  {| team_id := 3; team_name := "Dev"; team_slug := "dev";
     team_description := None; team_privacy := "closed";
     team_parent := None |}.

Definition team_dev : Team :=
  {| team_id := 4; team_name := "dev"; team_slug := "dev-1";
     team_description := None; team_privacy := "closed";
     team_parent := None |}.

Definition two_devs : Env :=
  with_org_get_teams (fun _ _ => Val [team_Dev; team_dev]) Scenario.quiet.

(** Deleting a membership is answered by [r]. *)
Definition delete_answers (r : Response) : Env :=
  Scenario.with_make_github_request
    (fun _ method _ _ =>
       if String.eqb method "delete" then Val r else Val Scenario.not_found)
    Scenario.quiet.

Definition no_content : Response :=
  {| status_code := 204; text := ""; json_groups := None |}.

Definition bad_gateway : Response :=
  {| status_code := 502; text := "Bad Gateway"; json_groups := None |}.

End Scenario2.

(* ------------------------------------------------------------------ *)
(** ** Comparing objects *)

Definition option_string_eqb (a b : option string) : bool :=
  match a, b with
  | Some x, Some y => String.eqb x y
  | None, None => true
  | _, _ => false
  end.

Definition team_eqb (a b : Team) : bool :=
  andb (Z.eqb (team_id a) (team_id b))
  (andb (String.eqb (team_name a) (team_name b))
  (andb (String.eqb (team_slug a) (team_slug b))
  (andb (option_string_eqb (team_description a) (team_description b))
  (andb (String.eqb (team_privacy a) (team_privacy b))
        (option_string_eqb (team_parent a) (team_parent b)))))).

Definition github_eqb (a b : Github) : bool :=
  match a, b with
  | gh_source_client, gh_source_client => true
  | gh_target_client, gh_target_client => true
  | _, _ => false
  end.

(** The members processed so far: those added and those counted as failed. *)
Definition tally (l : mtm_locals) : nat :=
  (members_migrated l + members_failed l)%nat.

(** What [migrate_team_members] may call: reads, waits, and
    [add_membership] on the target team with one of the two roles. *)
Definition synchronizer_call (target_team : Team) (c : call) : bool :=
  match c with
  | team_add_membership_call team _ role =>
      andb (team_eqb team target_team)
           (orb (String.eqb role "maintainer") (String.eqb role "member"))
  | get_user_call _ _ | get_organization_call _ _ | org_get_members_call _
  | team_get_members_call _ | team_get_team_membership_call _ _
  | team_rate_limiting_call _ | smart_rate_limit_handler_call _ => true
  | _ => false
  end.

(** The user names [remove_users_from_team] acts on: those that are not
    blank. *)
Definition non_blank (users : list string) : list string :=
  filter (fun u => PyStr.truthy (PyStr.strip u)) users.

(** What [remove_users_from_team] may call. *)
Definition removal_call (c : call) : bool :=
  orb (is_request_with "delete" c) (is_sleep c).

(** Line 387 and 391: the request that removes one user. *)
Definition delete_request (env : Env)
    (org_name team_slug token username : string) : call :=
  make_github_request_call "delete"
    (GH_TARGET_BASE_API_URL env ++ "/orgs/" ++ org_name ++ "/teams/"
     ++ team_slug ++ "/memberships/" ++ PyStr.strip username)
    token None.

(** What a run of removals did, when it came to its end. *)
Definition removed (users : list string) (l : rm_locals) (w : World)
    (l' : rm_locals) (w' : World) : Prop :=
  exists added,
    calls w' = (calls w ++ added)%list
    /\ count_calls is_request added = length (non_blank users)
    /\ length (details l') = (length (details l) + length (non_blank users))%nat
    /\ (success_count l + failed_count l
        <= success_count l' + failed_count l')%nat
    /\ (success_count l' + failed_count l'
        <= success_count l + failed_count l + length (non_blank users))%nat.

(** What [create_gh_team] may call: it asks the client for the organisation
    and creates the team in that organisation. *)
Definition creator_call (gh : Github) (org_name : string) (c : call) : bool :=
  match c with
  | get_organization_call g o =>
      andb (github_eqb g gh) (String.eqb o org_name)
  | org_create_team_call org _ _ _ _ =>
      andb (github_eqb (org_client org) gh)
           (String.eqb (org_login org) org_name)
  | _ => false
  end.

(** What the IDP binding of one team may call. *)
Definition binder_call (c : call) : bool :=
  match c with
  | make_github_request_call _ _ _ _ | time_sleep_call _
  | team_get_members_call _ | smart_rate_limit_handler_call _ => true
  | _ => false
  end.

(** What the stages of [migrate_teams_optimized] before the summary may
    call, by the flags: reads of organisations and teams and waits always;
    the creation of a team in the target organisation; member calls when
    users are migrated and IDP mapping is off; requests and pauses when IDP
    mapping is on; the edit of a team when parent links are migrated. *)
Definition stage_call (gh_target : Github) (target_org : string)
    (migrate_users map_idp_groups migrate_parent_child : bool) (c : call)
  : bool :=
  match c with
  | get_organization_call _ _ | org_get_teams_call _
  | org_get_team_by_slug_call _ _ | smart_rate_limit_handler_call _ => true
  | org_create_team_call org _ _ _ _ =>
      andb (github_eqb (org_client org) gh_target)
           (String.eqb (org_login org) target_org)
  | get_user_call _ _ | org_get_members_call _
  | team_get_team_membership_call _ _ | team_add_membership_call _ _ _
  | team_rate_limiting_call _ =>
      andb migrate_users (negb map_idp_groups)
  | team_get_members_call _ => orb migrate_users map_idp_groups
  | make_github_request_call _ _ _ _ | get_all_external_groups_call _ _
  | time_sleep_call _ => map_idp_groups
  | team_edit_call _ _ _ => migrate_parent_child
  | write_migration_summary_call _ _ _ _ _ _ => false
  end.

(** What a run of [migrate_teams_optimized] may call: the calls of its
    stages, and the summary. *)
Definition scheduler_call (gh_target : Github) (target_org : string)
    (migrate_users map_idp_groups migrate_parent_child : bool) (c : call)
  : bool :=
  orb (is_summary c)
      (stage_call gh_target target_org migrate_users map_idp_groups
                  migrate_parent_child c).

Definition is_list_groups (c : call) : bool :=
  match c with get_all_external_groups_call _ _ => true | _ => false end.

(** How many summaries an invocation writes: one when it returns, none when
    it asks for a restart, and at most one when it raises. *)
Definition writes_one_summary {L : Type} (m : M L outcome) : Prop :=
  forall l w,
  exists added,
    calls (snd (m l w)) = (calls w ++ added)%list
    /\ match fst (fst (m l w)) with
       | Val (Done _) => count_calls is_summary added = 1%nat
       | Val (Restart _) => count_calls is_summary added = 0%nat
       | Exc _ => (count_calls is_summary added <= 1)%nat
       end.

(** The calls of a run that write to the platform. *)
Definition is_write (c : call) : bool :=
  match c with
  | org_create_team_call _ _ _ _ _ | team_add_membership_call _ _ _
  | team_edit_call _ _ _ => true
  | make_github_request_call method _ _ _ => negb (String.eqb method "get")
  | _ => false
  end.

(* ------------------------------------------------------------------ *)
(** ** [check_external_idp_group_exists]

    The function reads the clock and the headers of a response, which the
    rest of the module does not.  What they answer is a parameter:
    [header_reset] is [response.headers['x-ratelimit-reset']] read with
    [int] ([None] when the header is absent, [Some None] when [int]
    raises); [time_now] is [int(time.time())]; [text_reset] is the time to
    the timestamp found in the text of the response, in whole seconds
    ([None] when the text has no timestamp, [Some None] when the timestamp
    cannot be parsed). *)

Record Clock : Type := {
  header_reset : Response -> option (option Z);
  time_now : list call -> Z;
  text_reset : list call -> Response -> option (option Z)
}.

(** Reading something that depends on what happened so far. *)
Definition current {L A} (f : list call -> A) : M L A :=
  fun l w => (Val (f (calls w)), l, w).

(** How an iteration of the [while] loop ends: with a [return], or by going
    round again. *)
Inductive iteration : Type :=
| Return (b : bool)
| Continue.

Section IdpGroupCheck.

Variable env : Env.
Variable clock : Clock.

Definition max_retries : nat := 3.
Definition retry_delay : Z := 5.

(** [retry_delay * (2 ** (retry_count - 1))]; [retry_count] is at least 1
    wherever the source computes it. *)
Definition backoff (retry_count : nat) : Z :=
  retry_delay * 2 ^ (Z.of_nat retry_count - 1).

(** Lines 294-310: the time to wait after a rate-limit answer. *)
Definition rate_limit_wait (response : Response) (retry_count : nat)
  : M nat Z :=
  match header_reset clock response with
  | Some (Some reset_timestamp) =>
      now <- current (time_now clock) ;;
      ret (Z.max 1 (reset_timestamp - now + 1))
  | Some None => raise (PyException "ValueError")
  | None =>
      remaining <- current (fun h => text_reset clock h response) ;;
      match remaining with
      | Some (Some seconds) => ret (Z.max 1 (seconds + 1))
      | Some None => ret (backoff retry_count)
      | None => ret (backoff retry_count)
      end
  end.

(** Lines 273-337: one iteration of the loop; the local is [retry_count]. *)
Definition idp_check_attempt (org_name search_name url token : string)
  : M nat iteration :=
  try_except
    (log_and_print ("Checking if external IDP group '" ++ search_name
                    ++ "' exists in organization '" ++ org_name ++ "'")
                   "info" ;;
     response <- make_github_request env "get" url token None ;;
     if orb (status_code response =? 200) (status_code response =? 201) then
       let groups := match json_groups response with
                     | Some gs => gs
                     | None => []
                     end in
       let matching_groups :=
         filter (fun group => is_expected_group (group_name group)
                                                search_name) groups in
       match matching_groups with
       | group :: _ =>
           log_and_print ("Found matching external IDP group: '"
                          ++ group_name group ++ "'") "success" ;;
           ret (Return true)
       | [] =>
           log_and_print ("No matching external IDP group found for '"
                          ++ search_name ++ "'") "warning" ;;
           ret (Return false)
       end
     else if andb (status_code response =? 403)
                  (PyStr.contains "rate limit exceeded"
                                  (PyStr.lower (text response))) then
       modify S ;;
       retry_count <- get_locals ;;
       wait_time <- rate_limit_wait response retry_count ;;
       if (retry_count <=? max_retries)%nat then
         log_and_print ("Rate limit exceeded. Attempt "
                        ++ PyStr.of_nat retry_count ++ "/"
                        ++ PyStr.of_nat max_retries ++ ". Waiting "
                        ++ PyStr.of_Z wait_time
                        ++ " seconds before retry...") "warning" ;;
         time_sleep wait_time ;;
         ret Continue
       else
         log_and_print "Maximum retries reached. Rate limit still exceeded."
                       "error" ;;
         ret (Return false)
     else
       log_and_print ("Failed to check external IDP groups: "
                      ++ PyStr.of_Z (status_code response) ++ " - "
                      ++ text response) "error" ;;
       ret (Return false))
    (fun e =>
       log_and_print ("Error checking external IDP group: " ++ str_exn e)
                     "error" ;;
       retry_count <- get_locals ;;
       if andb (is_RequestException e) (retry_count <? max_retries)%nat then
         modify S ;;
         retry_count <- get_locals ;;
         let wait_time := backoff retry_count in
         log_and_print ("Connection error. Attempt "
                        ++ PyStr.of_nat retry_count ++ "/"
                        ++ PyStr.of_nat max_retries ++ ". Retrying in "
                        ++ PyStr.of_Z wait_time ++ " seconds...") "warning" ;;
         time_sleep wait_time ;;
         ret Continue
       else ret (Return false)).

(** Lines 272 and 339: [while retry_count <= max_retries: ...] followed by
    [return False].  [fuel] bounds the number of iterations; [None] means it
    ran out. *)
Fixpoint idp_check_loop (fuel : nat)
    (org_name search_name url token : string) : M nat (option bool) :=
  match fuel with
  | O => ret None
  | S fuel' =>
      retry_count <- get_locals ;;
      if (retry_count <=? max_retries)%nat then
        r <- idp_check_attempt org_name search_name url token ;;
        match r with
        | Return b => ret (Some b)
        | Continue => idp_check_loop fuel' org_name search_name url token
        end
      else ret (Some false)
  end.

(** [display_name or idp_group_name]. *)
Definition search_name_of (idp_group_name : string)
    (display_name : option string) : string :=
  match display_name with
  | Some d => if PyStr.truthy d then d else idp_group_name
  | None => idp_group_name
  end.

Definition check_external_idp_group_exists {L} (fuel : nat)
    (org_name idp_group_name token : string) (display_name : option string)
  : M L (option bool) :=
  let search_name := search_name_of idp_group_name display_name in
  let url := external_groups_url env org_name search_name in
  invoke (idp_check_loop fuel org_name search_name url token) 0%nat.

End IdpGroupCheck.

(** What [check_external_idp_group_exists] may call: the search for the
    group, and pauses of at least a second. *)
Definition idp_check_call (url token : string) (c : call) : bool :=
  match c with
  | make_github_request_call method u t None =>
      andb (String.eqb method "get")
           (andb (String.eqb u url) (String.eqb t token))
  | time_sleep_call seconds => 1 <=? seconds
  | _ => false
  end.

(** The answer that makes [check_external_idp_group_exists] say yes: a 200
    or 201 response with a group whose name matches. *)
Definition group_found (search_name : string) (response : Response) : Prop :=
  (status_code response = 200 \/ status_code response = 201)
  /\ exists group,
      In group (match json_groups response with
                | Some gs => gs
                | None => []
                end)
      /\ is_expected_group (group_name group) search_name = true.

Module Scenario3.

Definition frozen : Clock :=
  {| header_reset := fun _ => None;
     time_now := fun _ => 0;
     text_reset := fun _ _ => None |}.

(** The platform answers every request with a rate-limit error. *)
Definition throttled : Env :=
  Scenario.with_make_github_request
    (fun _ _ _ _ =>
       Val {| status_code := 403;
              text := "API rate limit exceeded for installation";
              json_groups := None |})
    Scenario.quiet.

End Scenario3.

(* ------------------------------------------------------------------ *)
(** ** The status map *)

(** The statuses [migrate_teams_optimized] records. *)
Definition recorded_states : list string :=
  ["failed"; "skipped"; "success"; "partial_success"].

(** No team is recorded twice, and every status is one of the four. *)
Definition sound_statuses (l : mto_locals) : Prop :=
  NoDup (PyDict.keys (migration_status l))
  /\ Forall (fun ts => In (snd ts) recorded_states) (migration_status l).

Definition has_status (name : string) (l : mto_locals) : Prop :=
  PyDict.get name (migration_status l) <> None.

(** While the list [teams] is worked through: the teams [names] have a
    status. *)
Definition processed (teams names : list string) (l : mto_locals) : Prop :=
  teams_to_migrate l = teams
  /\ forall name, In name names -> has_status name l.

Unset Implicit Arguments.
Local Open Scope list_scope.

(* ------------------------------------------------------------------ *)
(** ** The monad's equations *)

Section MonadFacts.

Context {L A B : Type}.

Lemma bind_val (m : M L A) (f : A -> M L B) l w a l1 w1 :
  m l w = (Val a, l1, w1) -> bind m f l w = f a l1 w1.
Proof. intros H. unfold bind. now rewrite H. Qed.

Lemma bind_exc (m : M L A) (f : A -> M L B) l w e l1 w1 :
  m l w = (Exc e, l1, w1) -> bind m f l w = (Exc e, l1, w1).
Proof. intros H. unfold bind. now rewrite H. Qed.

Lemma bind_inv_val (m : M L A) (f : A -> M L B) l w b l2 w2 :
  bind m f l w = (Val b, l2, w2) ->
  exists a l1 w1, m l w = (Val a, l1, w1) /\ f a l1 w1 = (Val b, l2, w2).
Proof.
  unfold bind. destruct (m l w) as [[r l1] w1]. destruct r as [a|e].
  - intros H. now exists a, l1, w1.
  - discriminate.
Qed.

Lemma try_val (m : M L A) (h : exn -> M L A) l w a l1 w1 :
  m l w = (Val a, l1, w1) -> try_except m h l w = (Val a, l1, w1).
Proof. intros H. unfold try_except. now rewrite H. Qed.

Lemma try_exc (m : M L A) (h : exn -> M L A) l w e l1 w1 :
  m l w = (Exc e, l1, w1) -> try_except m h l w = h e l1 w1.
Proof. intros H. unfold try_except. now rewrite H. Qed.

Lemma bind_ext (m : M L A) (f g : A -> M L B) l w :
  (forall a l1 w1, f a l1 w1 = g a l1 w1) ->
  bind m f l w = bind m g l w.
Proof.
  intros H. unfold bind. destruct (m l w) as [[r l1] w1].
  destruct r; [apply H|reflexivity].
Qed.

Lemma bind_assoc {C : Type} (m : M L A) (f : A -> M L B) (g : B -> M L C)
      l w :
  bind (bind m f) g l w = bind m (fun a => bind (f a) g) l w.
Proof.
  unfold bind. destruct (m l w) as [[r l1] w1].
  destruct r; reflexivity.
Qed.

End MonadFacts.

Ltac solve_counts :=
  repeat split; try reflexivity; cbn; unfold max_attempts;
  try lia; try (intros; (reflexivity || discriminate || lia)).

Lemma count_calls_app p h1 h2 :
  count_calls p (h1 ++ h2) = (count_calls p h1 + count_calls p h2)%nat.
Proof. unfold count_calls. now rewrite filter_app, length_app. Qed.

(* ------------------------------------------------------------------ *)
(** ** [validate_user] and [user_exists_in_org] *)

Section Validation.

Variable env : Env.
Context {L : Type}.

(** [validate_user] never raises and makes the one [get_user] call. *)
Lemma validate_user_total gh username (l : L) w :
  exists r w',
    validate_user env gh username l w = (Val r, l, w') /\
    calls w' = calls w ++ [get_user_call gh (PyStr.strip username)].
Proof.
  unfold validate_user, try_except, bind, get_user, extern.
  destruct (on_get_user env (calls w) gh (PyStr.strip username)) as [u|e];
    cbn.
  - eexists _, _. split; reflexivity.
  - destruct e; cbn; eexists _, _; split; reflexivity.
Qed.

(** One round of the loop: either it decides, after the organisation fetch
    and possibly the member listing, or the fetch was rate limited and the
    Governor was waited for. *)
Lemma org_fetch_attempt_cases gh org_name username validated (l : L) w :
  exists r w',
    org_fetch_attempt env gh org_name username validated l w = (Val r, l, w')
    /\ ((r = None /\
         calls w' = calls w ++ [get_organization_call gh org_name;
                                smart_rate_limit_handler_call (Some gh)])
        \/ (exists b, r = Some b /\
            (calls w' = calls w ++ [get_organization_call gh org_name]
             \/ calls w' = calls w ++
                  [get_organization_call gh org_name;
                   org_get_members_call
                     {| org_client := gh; org_login := org_name |}]))).
Proof.
  unfold org_fetch_attempt, try_except, bind, get_organization, extern,
    map_result.
  destruct (on_get_organization env (calls w) gh org_name) as [[]|e]; cbn.
  - unfold org_get_members, extern; cbn.
    match goal with
    | |- context [on_org_get_members env ?h ?o] =>
        destruct (on_org_get_members env h o) as [ms|e]
    end; cbn.
    + eexists _, _. split; [reflexivity|]. right. eexists. split; [reflexivity|].
      right. cbn. now rewrite <- app_assoc.
    + destruct e; cbn; eexists _, _;
        (split; [reflexivity|]);
        right; eexists; (split; [reflexivity|]); right; cbn;
        now rewrite <- app_assoc.
  - destruct e; cbn; eexists _, _; (split; [reflexivity|]);
      try (right; eexists; split; [reflexivity|]; left; reflexivity).
    left. split; [reflexivity|]. cbn. now rewrite <- app_assoc.
Qed.

Lemma org_fetch_loop_bounded n gh org_name username validated (l : L) w :
  exists b w' added,
    org_fetch_loop env n gh org_name username validated l w = (Val b, l, w')
    /\ calls w' = calls w ++ added
    /\ (count_calls is_get_organization added <= n)%nat
    /\ (count_calls is_get_organization added
        <= S (count_calls is_rate_limit_wait added))%nat
    /\ (count_calls is_rate_limit_wait added = n -> b = false)
    /\ count_calls is_add_membership added = 0%nat.
Proof.
  revert w. induction n as [|n IH]; intros w; cbn [org_fetch_loop].
  - exists false, w, []. rewrite app_nil_r. cbn. repeat split; lia.
  - destruct (org_fetch_attempt_cases gh org_name username validated l w)
      as (r & w1 & Hrun & Hcases).
    rewrite (bind_val _ _ _ _ _ _ _ Hrun).
    destruct Hcases as [[-> Hc]|(b & -> & Hc)].
    + destruct (IH w1) as (b & w' & added & Hloop & Hcalls & Hle & Hw & Hex & Hadd).
      exists b, w', ([get_organization_call gh org_name;
                      smart_rate_limit_handler_call (Some gh)] ++ added).
      rewrite Hloop, Hcalls, Hc, <- app_assoc.
      rewrite !count_calls_app. cbn.
      repeat split; try lia. intros H. apply Hex. lia.
    + destruct Hc as [Hc|Hc]; eexists b, w1, _; rewrite Hc;
        (split; [reflexivity|]); (split; [reflexivity|]); cbn;
        solve_counts.
Qed.

(** [user_exists_in_org] never raises, leaves the locals alone, and asks for
    the organisation at most [max_attempts] times. *)
Lemma user_exists_in_org_total gh org_name username (l : L) w :
  exists b w' added,
    user_exists_in_org env gh org_name username l w = (Val b, l, w')
    /\ calls w' = calls w ++ added
    /\ (count_calls is_get_organization added <= max_attempts)%nat
    /\ (count_calls is_get_organization added
        <= S (count_calls is_rate_limit_wait added))%nat
    /\ (count_calls is_rate_limit_wait added = max_attempts -> b = false)
    /\ count_calls is_add_membership added = 0%nat.
Proof.
  unfold user_exists_in_org.
  destruct (orb _ _).
  { exists false, w, []. rewrite app_nil_r. cbn.
    solve_counts. }
  destruct (validate_user_total gh username l w) as (r & w1 & Hv & Hc1).
  rewrite (bind_val _ _ _ _ _ _ _ Hv).
  destruct r as [validated|].
  2:{ eexists false, w1, _. rewrite Hc1. cbn.
      solve_counts. }
  destruct (negb (PyStr.truthy validated)).
  { eexists false, w1, _. rewrite Hc1. cbn.
    solve_counts. }
  destruct (org_fetch_loop_bounded max_attempts gh org_name username validated
                                   l w1)
    as (b & w' & added & Hloop & Hcalls & Hle & Hw & Hex & Hadd).
  exists b, w', ([get_user_call gh (PyStr.strip username)] ++ added).
  rewrite Hloop, Hcalls, Hc1, <- app_assoc, !count_calls_app. cbn.
  repeat split; try lia; assumption.
Qed.

End Validation.

(** C7: [user_exists_in_org] always returns a boolean (it terminates and never
    raises); it fetches the organisation at most twice, the second time only
    after a rate-limit wait; and once both attempts have ended in a
    rate-limit wait it returns [False]. *)
Theorem C7_user_exists_in_org_bounded_retry :
  forall (env : Env) (L : Type) gh org_name username (l : L) (w : World),
  exists b w' added,
    user_exists_in_org env gh org_name username l w = (Val b, l, w')
    /\ calls w' = calls w ++ added
    /\ (count_calls is_get_organization added <= 2)%nat
    /\ (count_calls is_get_organization added
        <= S (count_calls is_rate_limit_wait added))%nat
    /\ (count_calls is_rate_limit_wait added = 2%nat -> b = false).
Proof.
  intros env L gh org_name username l w.
  destruct (user_exists_in_org_total env gh org_name username l w)
    as (b & w' & added & H1 & H2 & H3 & H4 & H5 & _).
  exists b, w', added. repeat split; assumption.
Qed.


(** C7 where the organisation fetch is rate limited every time: two fetches,
    two waits, and the answer is [False]. *)
Lemma C7_user_exists_in_org_bounded_retry_witness :
  exists w' added,
    user_exists_in_org Scenario.always_rate_limited gh_target_client "acme"
                       "alice" tt empty_world = (Val false, tt, w')
    /\ calls w' = calls empty_world ++ added
    /\ count_calls is_get_organization added = 2%nat.
Proof.
  destruct (C7_user_exists_in_org_bounded_retry
              Scenario.always_rate_limited unit gh_target_client "acme" "alice"
              tt empty_world)
    as (b & w' & added & Hrun & Hcalls & _ & _ & Hexhausted).
  exists w', added.
  vm_compute in Hrun. injection Hrun as <- <-.
  cbn in Hcalls. subst added. repeat split.
Defined.

(* ------------------------------------------------------------------ *)
(** ** [create_gh_team] *)

Section CreateTeam.

Variable env : Env.
Context {L : Type}.

(** A creation that fails is logged and raised again, whatever the error. *)
Lemma create_gh_team_reraises gh org_name name description privacy cache
      (l : L) w e :
  on_get_organization env (calls w) gh org_name = Val tt ->
  PyDict.get (PyStr.lower name)
             (match cache with Some c => c | None => PyDict.empty end) = None ->
  on_org_create_team env (calls w ++ [get_organization_call gh org_name])
                     {| org_client := gh; org_login := org_name |}
                     name description privacy = Exc e ->
  exists w' entries,
    create_gh_team env gh org_name name description privacy cache l w
    = (Exc e, l, w')
    /\ calls w' = calls w ++
         [get_organization_call gh org_name;
          org_create_team_call {| org_client := gh; org_login := org_name |}
                               name description privacy
                               "notifications_enabled"]
    /\ logs w' = logs w ++ entries
    /\ entries <> []
    /\ Forall (fun entry => snd entry = "error"%string) entries.
Proof.
  intros Horg Hmiss Hcreate.
  unfold create_gh_team, try_except, bind, get_organization, extern,
    map_result.
  rewrite Horg. cbn. rewrite Hmiss.
  unfold org_create_team, extern. cbn. rewrite Hcreate. cbn.
  destruct e as [s m|s m|s m|s m|m|m]; cbn;
    try (destruct (s =? 422); [|destruct (s =? 403)]); cbn;
    eexists _, _; rewrite <- ?app_assoc; cbn;
    (split; [reflexivity|]); (split; [reflexivity|]);
    (split; [reflexivity|]); (split; [discriminate|]);
    repeat constructor.
Qed.

End CreateTeam.

(* ------------------------------------------------------------------ *)
(** ** The Identity Mapping Binder *)

Section Binding.

Variable env : Env.
Context {L : Type}.

(** The check of the current binding never raises and is one [get]. *)
Lemma check_mapping_total org_name team_slug token expected (l : L) w :
  exists r w',
    check_team_external_group_mapping env org_name team_slug token expected
                                      l w = (Val r, l, w')
    /\ calls w' = calls w ++ [binding_query env org_name team_slug token].
Proof.
  unfold check_team_external_group_mapping, try_except, bind,
    make_github_request, extern, binding_query.
  cbn.
  destruct (on_make_github_request env (calls w) "get"
              (binding_url env org_name team_slug) None) as [r|e]; cbn.
  2:{ eexists _, _. split; reflexivity. }
  destruct (status_code r =? 200).
  - destruct (json_groups r) as [[|g rest]|]; cbn;
      try (eexists _, _; split; reflexivity).
    destruct expected as [expected|]; cbn;
      try (eexists _, _; split; reflexivity).
    destruct (PyStr.truthy expected); cbn;
      try (eexists _, _; split; reflexivity).
    destruct (is_expected_group (group_name g) expected); cbn;
      eexists _, _; split; reflexivity.
  - destruct (status_code r =? 404); cbn; eexists _, _; split; reflexivity.
Qed.

(** A team whose current binding carries the expected name is reported as
    mapped. *)
Lemma check_mapping_bound org_name team_slug token expected (l : L) w r g rest :
  on_make_github_request env (calls w) "get"
                         (binding_url env org_name team_slug) None = Val r ->
  status_code r = 200 ->
  json_groups r = Some (g :: rest) ->
  (expected = None \/ expected = Some ""%string \/
   exists name, expected = Some name
                /\ is_expected_group (group_name g) name = true) ->
  exists w',
    check_team_external_group_mapping env org_name team_slug token expected
                                      l w = (Val (true, Some g), l, w')
    /\ calls w' = calls w ++ [binding_query env org_name team_slug token].
Proof.
  intros Hget Hstatus Hgroups Hexp.
  unfold check_team_external_group_mapping, try_except, bind,
    make_github_request, extern, binding_query.
  cbn. rewrite Hget. cbn. rewrite Hstatus. cbn. rewrite Hgroups. cbn.
  destruct Hexp as [->|[->|(name & -> & Hname)]]; cbn;
    try (eexists; split; reflexivity).
  destruct (PyStr.truthy name); cbn; [rewrite Hname; cbn|];
    eexists; split; reflexivity.
Qed.

(** The patch is one request, whatever it answers. *)
Lemma patch_binding_calls org_name team_slug token id (l : L) w :
  exists res w',
    patch_binding env org_name team_slug token id l w = (res, l, w')
    /\ calls w' = calls w ++ [binding_patch env org_name team_slug token id].
Proof.
  unfold patch_binding, bind, make_github_request, extern, binding_patch,
    log_and_print. cbn.
  destruct (on_make_github_request env (calls w) "patch"
              (binding_url env org_name team_slug) (Some id)) as [r|e]; cbn.
  2:{ eexists _, _. split; reflexivity. }
  destruct (orb _ _); cbn; [eexists _, _; split; reflexivity|].
  destruct (status_code r =? 404); cbn; [eexists _, _; split; reflexivity|].
  destruct (status_code r =? 422); cbn; [eexists _, _; split; reflexivity|].
  destruct (status_code r =? 403); cbn; [eexists _, _; split; reflexivity|].
  unfold of_result, raise_for_status.
  destruct (andb _ _); cbn; eexists _, _; split; reflexivity.
Qed.

(** The handlers of [map_external_group_to_team] log and raise again: the
    outcome and the calls of the function are those of its [try] block. *)
Lemma map_handlers_transparent (body : M L bool) (l : L) w res l' w' :
  body l w = (res, l', w') ->
  exists w'',
    try_except body
      (fun e =>
         if is_RequestException e then
           log_and_print ("Network error mapping team to external group: "
                          ++ str_exn e)%string "error" ;;
           raise e
         else
           log_and_print ("Error mapping team to external group: "
                          ++ str_exn e)%string "error" ;;
           raise e) l w = (res, l', w'')
    /\ calls w'' = calls w'
    /\ (forall b, res = Val b -> w'' = w').
Proof.
  intros Hbody. unfold try_except. rewrite Hbody.
  destruct res as [b|e].
  - exists w'. repeat split. 
  - destruct (is_RequestException e); cbn; eexists; repeat split;
      intros; discriminate.
Qed.


(** What [map_external_group_to_team] does once the binding check has said
    "not mapped" and the group id is known. *)
Lemma map_after_resolution org_name team_slug token gid cache (l : L)
      w x w1 id w2 :
  check_team_external_group_mapping env org_name team_slug token
                                    (Some team_slug) l w
  = (Val (false, x), l, w1) ->
  resolve_group_id env org_name team_slug token gid cache l w1
  = (Val (Some id), l, w2) ->
  exists res w3 w',
    patch_binding env org_name team_slug token id l w2 = (res, l, w3)
    /\ map_external_group_to_team env org_name team_slug token gid cache l w
       = (res, l, w')
    /\ calls w' = calls w3
    /\ (forall b, res = Val b -> w' = w3).
Proof.
  intros Hcheck Hres.
  destruct (patch_binding_calls org_name team_slug token id l w2)
    as (res & w3 & Hpatch & _).
  unfold map_external_group_to_team.
  match goal with
  | |- context [try_except ?body _] =>
      assert (Hbody : body l w = (res, l, w3))
  end.
  { rewrite (bind_val _ _ _ _ _ _ _ Hcheck). cbn.
    rewrite (bind_val _ _ _ _ _ _ _ Hres). exact Hpatch. }
  destruct (map_handlers_transparent _ _ _ _ _ _ Hbody)
    as (w' & Hrun & Hcalls & Hval).
  exists res, w3, w'. repeat split; assumption.
Qed.

(** The group id, when it is neither given nor cached: one search request,
    and the first group named exactly like the slug. *)
Lemma resolve_by_search org_name team_slug token cache (l : L) w r :
  PyDict.get (PyStr.lower team_slug)
             (match cache with Some c => c | None => [] end) = None ->
  on_make_github_request env (calls w) "get"
                         (external_groups_url env org_name team_slug) None
  = Val r ->
  exists w',
    resolve_group_id env org_name team_slug token None cache l w
    = (Val (if status_code r =? 200
            then option_map group_id
                            (matching_group team_slug (groups_of r))
            else None), l, w')
    /\ calls w' = calls w ++ [group_search env org_name team_slug token].
Proof.
  intros Hmiss Hget.
  unfold resolve_group_id. rewrite Hmiss.
  unfold bind, make_github_request, extern, log_and_print, group_search.
  cbn. rewrite Hget. cbn.
  destruct (status_code r =? 200); cbn.
  2:{ eexists. split; reflexivity. }
  unfold groups_of, matching_group.
  destruct (json_groups r) as [[|g gs]|]; cbn;
    try (eexists; split; reflexivity).
  destruct (String.eqb (PyStr.lower (group_name g)) (PyStr.lower team_slug));
    cbn; [eexists; split; reflexivity|].
  destruct (find _ gs); cbn; eexists; split; reflexivity.
Qed.

(** What [map_external_group_to_team] does once the binding check has said
    "not mapped" and no group id could be found. *)
Lemma map_unresolved org_name team_slug token gid cache (l : L) w x w1 w2 :
  check_team_external_group_mapping env org_name team_slug token
                                    (Some team_slug) l w
  = (Val (false, x), l, w1) ->
  resolve_group_id env org_name team_slug token gid cache l w1
  = (Val None, l, w2) ->
  map_external_group_to_team env org_name team_slug token gid cache l w
  = (Val false, l, w2).
Proof.
  intros Hcheck Hres.
  unfold map_external_group_to_team. apply try_val.
  rewrite (bind_val _ _ _ _ _ _ _ Hcheck). cbn.
  rewrite (bind_val _ _ _ _ _ _ _ Hres). reflexivity.
Qed.

Ltac policy_goals := split; [split | split; [ | split ] ].

(** The response-code policy of the patch. *)
Lemma patch_binding_policy org_name team_slug token id (l : L) w :
  let answer := on_make_github_request env (calls w) "patch"
                  (binding_url env org_name team_slug) (Some id) in
  exists res w',
    patch_binding env org_name team_slug token id l w = (res, l, w')
    /\ (res = Val true <->
        exists r, answer = Val r
                  /\ (status_code r = 200 \/ status_code r = 201))
    /\ (forall r, answer = Val r ->
                  status_code r = 404 \/ status_code r = 422
                  \/ status_code r = 403 ->
                  res = Val false
                  /\ exists first m,
                      logs w' = logs w ++ [first; (m, "error"%string)])
    /\ (forall r, answer = Val r -> 500 <= status_code r < 600 ->
                  res = Exc (HTTPError (status_code r) (text r)))
    /\ (forall e, answer = Exc e -> res = Exc e).
Proof.
  intros answer. subst answer.
  unfold patch_binding, bind, make_github_request, extern, log_and_print.
  cbn.
  destruct (on_make_github_request env (calls w) "patch"
              (binding_url env org_name team_slug) (Some id)) as [r|e]; cbn.
  2:{ eexists _, _. split; [reflexivity|]. policy_goals.
      - discriminate.
      - intros (r & H & _). discriminate.
      - discriminate.
      - discriminate.
      - intros e' H. now injection H as ->. }
  destruct (Z.eqb_spec (status_code r) 200) as [E200|N200]; cbn.
  { eexists _, _. split; [reflexivity|]. policy_goals.
    - intros _. exists r. split; [reflexivity|]. now left.
    - reflexivity.
    - intros r' H. injection H as <-. lia.
    - intros r' H. injection H as <-. lia.
    - discriminate. }
  destruct (Z.eqb_spec (status_code r) 201) as [E201|N201]; cbn.
  { eexists _, _. split; [reflexivity|]. policy_goals.
    - intros _. exists r. split; [reflexivity|]. now right.
    - reflexivity.
    - intros r' H. injection H as <-. lia.
    - intros r' H. injection H as <-. lia.
    - discriminate. }
  assert (Hnot : ~ (exists r', Val r = Val r'
                    /\ (status_code r' = 200 \/ status_code r' = 201))).
  { intros (r' & H & Hs). injection H as <-. lia. }
  destruct (Z.eqb_spec (status_code r) 404) as [E404|N404]; cbn.
  { eexists _, _. split; [reflexivity|]. policy_goals.
    - discriminate.
    - intros H. now destruct Hnot.
    - intros _ _ _. split; [reflexivity|].
      rewrite <- app_assoc. cbn. eexists _, _. reflexivity.
    - intros r' H. injection H as <-. lia.
    - discriminate. }
  destruct (Z.eqb_spec (status_code r) 422) as [E422|N422]; cbn.
  { eexists _, _. split; [reflexivity|]. policy_goals.
    - discriminate.
    - intros H. now destruct Hnot.
    - intros _ _ _. split; [reflexivity|].
      rewrite <- app_assoc. cbn. eexists _, _. reflexivity.
    - intros r' H. injection H as <-. lia.
    - discriminate. }
  destruct (Z.eqb_spec (status_code r) 403) as [E403|N403]; cbn.
  { eexists _, _. split; [reflexivity|]. policy_goals.
    - discriminate.
    - intros H. now destruct Hnot.
    - intros _ _ _. split; [reflexivity|].
      rewrite <- app_assoc. cbn. eexists _, _. reflexivity.
    - intros r' H. injection H as <-. lia.
    - discriminate. }
  unfold of_result, raise_for_status.
  destruct (Z.leb_spec 400 (status_code r)) as [Hge|Hlt];
    [destruct (Z.ltb_spec (status_code r) 600) as [Hlt|Hge']|]; cbn;
    eexists _, _; (split; [reflexivity|]); policy_goals;
    try discriminate; try (intros H; now destruct Hnot);
    try (intros r' H; injection H as <-; lia);
    try (intros r' H; injection H as <-; reflexivity).
Qed.

End Binding.








(* ------------------------------------------------------------------ *)
(** ** The Membership Synchronizer *)

Lemma dict_get_set (V : Type) (k k' : string) (v : V) (d : PyDict.dict V) :
  PyDict.get k (PyDict.set k' v d)
  = if String.eqb k k' then Some v else PyDict.get k d.
Proof.
  induction d as [|[k0 v0] d IH]; cbn.
  - reflexivity.
  - destruct (String.eqb_spec k' k0) as [->|Hne]; cbn.
    + destruct (String.eqb k k0); reflexivity.
    + rewrite IH. destruct (String.eqb_spec k k') as [->|Hne'].
      * destruct (String.eqb_spec k' k0); [contradiction|reflexivity].
      * reflexivity.
Qed.

Section Members.

Variable env : Env.

Ltac answer_cases :=
  repeat match goal with
    | |- context [on_team_get_team_membership env ?h ?t ?m] =>
        let E := fresh "Hrole" in
        destruct (on_team_get_team_membership env h t m) as [?r|?e] eqn:E;
        cbn
    | |- context [on_team_add_membership env ?h ?t ?m ?r] =>
        let E := fresh "Hadd" in
        destruct (on_team_add_membership env h t m r) as [[]|?e] eqn:E; cbn
    | |- context [on_team_rate_limiting env ?h ?t] =>
        destruct (on_team_rate_limiting env h t) as [[]|?e]; cbn
    | |- context [is_RateLimitExceededException ?e] =>
        destruct e; cbn
    | e : exn |- _ => destruct e; cbn
    end.

(** One member: the validation decides between "skipped" and the attempt to
    add; the attempt ends as "success" or as "failed"; nothing is raised. *)
Lemma member_step_cases source_team target_team gh_target target_org index
      member l w :
  let w0 := logged (member_progress_line source_team index member l) "info"
                   w in
  exists b w1 l' w',
    user_exists_in_org env gh_target target_org (login member) l w0
    = (Val b, l, w1)
    /\ member_step env source_team target_team gh_target target_org index
                   member l w = (Val tt, l', w')
    /\ (b = false -> l' = skipped_in member l /\ w' = w1)
    /\ (b = true ->
        (exists role before,
            l' = added_in member role l
            /\ calls w' = before ++
                 [team_add_membership_call target_team member role])
        \/ (exists error detail,
               l' = failed_in member error detail l))
    /\ (b = true ->
        forall r,
          on_team_get_team_membership env (calls w1) source_team member
          = Val r ->
          on_team_add_membership env
            (calls w1 ++ [team_get_team_membership_call source_team member])
            target_team member (role_of r) = Val tt ->
          l' = added_in member (role_of r) l
          /\ calls w' = calls w1 ++
               [team_get_team_membership_call source_team member;
                team_add_membership_call target_team member (role_of r)]).
Proof.
  intros w0.
  destruct (user_exists_in_org_total env gh_target target_org (login member)
              l w0) as (b & w1 & added & Hv & Hcalls & _).
  exists b, w1.
  unfold member_step, bind at 1 2. cbn. fold w0.
  unfold try_except, member_try.
  rewrite (bind_val _ _ _ _ _ _ _ Hv).
  destruct b; cbn.
  - (* validated *)
    unfold try_except, bind, team_get_team_membership, team_add_membership,
      team_rate_limiting, smart_rate_limit_handler, extern, log_and_print,
      member_except, record_success, record_failed, modify, raise, ret.
    cbn.
    answer_cases;
      eexists _, _; (split; [exact Hv|]); (split; [reflexivity|]);
      (split; [discriminate|]);
      (split;
       [intros _;
        first [ left; eexists _, _; split; [reflexivity|];
                cbn; rewrite ?app_assoc; reflexivity
              | right; eexists _, _; reflexivity ]
       | intros _ r' Hr' Ha';
         try discriminate;
         try (injection Hr' as <-; rewrite <- ?app_assoc in *; cbn in *;
              first [ split; [reflexivity|];
                      rewrite <- ?app_assoc; reflexivity
                    | congruence ])]).
  - (* not validated *)
    eexists _, _. split; [exact Hv|]. split; [reflexivity|].
    split; [intros _; split; reflexivity|].
    split; discriminate.
Qed.

Lemma counted_skipped member l : counted (skipped_in member l).
Proof. intros name st _ _. cbn. lia. Qed.

Lemma counted_failed member error detail l :
  counted (failed_in member error detail l).
Proof. intros name st _ _. cbn. lia. Qed.

Lemma counted_added member role l :
  counted l -> counted (added_in member role l).
Proof.
  intros Hl name st Hget Hst. cbn in *.
  rewrite dict_get_set in Hget.
  destruct (String.eqb name (login member)).
  - injection Hget as <-. now destruct Hst.
  - exact (Hl name st Hget Hst).
Qed.

Lemma member_step_counted source_team target_team gh_target target_org index
      member l w :
  counted l ->
  exists l' w',
    member_step env source_team target_team gh_target target_org index
                member l w = (Val tt, l', w')
    /\ counted l'.
Proof.
  intros Hl.
  destruct (member_step_cases source_team target_team gh_target target_org
              index member l w)
    as (b & w1 & l' & w' & _ & Hstep & Hskip & Hadd & _).
  exists l', w'. split; [exact Hstep|].
  destruct b.
  - destruct (Hadd eq_refl) as [(role & before & -> & _)|(e & d & ->)].
    + now apply counted_added.
    + apply counted_failed.
  - destruct (Hskip eq_refl) as [-> _]. apply counted_skipped.
Qed.

(** The loop over the members never raises. *)
Lemma members_loop_counted source_team target_team gh_target target_org
      members l w :
  counted l ->
  exists l' w',
    members_loop env source_team target_team gh_target target_org members
                 l w = (Val tt, l', w')
    /\ counted l'.
Proof.
  revert l w. induction members as [|[index member] members IH];
    intros l w Hl.
  - exists l, w. split; [reflexivity|assumption].
  - destruct (member_step_counted source_team target_team gh_target
                target_org index member l w Hl) as (l1 & w1 & Hstep & Hl1).
    destruct (IH l1 w1 Hl1) as (l' & w' & Hloop & Hl').
    exists l', w'. split; [|assumption].
    unfold members_loop. cbn [for_each fst snd].
    rewrite (bind_val _ _ _ _ _ _ _ Hstep). exact Hloop.
Qed.

(** The listing of the source members does not depend on the locals. *)
Lemma list_source_members_run (L : Type) source_team (l : L) w :
  list_source_members env source_team l w
  = (fst (fst (list_source_members env source_team tt w)), l,
     snd (list_source_members env source_team tt w)).
Proof.
  unfold list_source_members, try_except, bind, team_get_members, extern,
    log_and_print, raise.
  destruct (on_team_get_members env (calls w) source_team) as [ms|e];
    [reflexivity|].
  destruct e; cbn; try reflexivity.
Qed.

(** [migrate_team_members] always returns a result: from the counters when
    the listing succeeded, a failure with the counters still at zero when it
    did not. *)
Lemma migrate_team_members_cases source_team target_team gh_target target_org
      l w :
  exists res l' w',
    migrate_team_members env source_team target_team gh_target target_org
                         l w = (Val res, l', w')
    /\ mr_members_failed res = members_failed l'
    /\ counted l'
    /\ match fst (fst (list_source_members env source_team tt w)) with
       | Val _ => mr_success res = Nat.eqb (mr_members_failed res) 0
       | Exc _ =>
           mr_success res = false
           /\ mr_members_failed res = 0%nat
           /\ mr_members_migrated res = 0%nat
           /\ mr_total_members res = 0%nat
           /\ users_status l' = []
       end.
Proof.
  pose proof (list_source_members_run mtm_locals source_team
                (set_source_members [] mtm_init) w) as Hrun.
  destruct (list_source_members env source_team tt w) as [[r lu] w1].
  cbn [fst snd] in Hrun |- *.
  unfold migrate_team_members.
  unfold bind at 1. cbn -[list_source_members].
  unfold try_except at 1. unfold bind at 1. cbn -[list_source_members].
  unfold bind at 1. rewrite Hrun.
  destruct r as [members|e].
  - unfold bind at 1. cbn. unfold bind at 1. cbn.
    match goal with
    | |- context [members_loop env ?a ?b ?c ?d ?ms ?l0 ?w0] =>
        assert (Hc : counted l0) by (intros name st H; discriminate);
        destruct (members_loop_counted a b c d ms l0 w0 Hc)
          as (l' & w' & Hloop & Hl')
    end.
    rewrite Hloop.
    cbn.
    eexists _, _, _. split; [reflexivity|]. cbn.
    split; [reflexivity|]. split; [exact Hl'|]. cbn. reflexivity.
  - destruct e; cbn; eexists _, _, _; (split; [reflexivity|]); cbn;
      (split; [reflexivity|]);
      (split; [intros name st H; discriminate|]);
      repeat split.
Qed.

(** The loop takes the members one after the other. *)
Lemma members_loop_app source_team target_team gh_target target_org
      before index member after l w :
  members_loop env source_team target_team gh_target target_org
               (before ++ (index, member) :: after) l w
  = bind (members_loop env source_team target_team gh_target target_org
                       before)
         (fun _ =>
            bind (member_step env source_team target_team gh_target target_org
                              index member)
                 (fun _ =>
                    members_loop env source_team target_team gh_target
                                 target_org after)) l w.
Proof.
  revert l w. induction before as [|x before IH]; intros l w.
  - reflexivity.
  - unfold members_loop in *. cbn [for_each app].
    rewrite bind_assoc. apply bind_ext. intros a l1 w1. apply IH.
Qed.

(** A member that is not validated: the three mutations of the skip. *)
Lemma member_step_skips source_team target_team gh_target target_org index
      member l w w1 :
  user_exists_in_org env gh_target target_org (login member) l
    (logged (member_progress_line source_team index member l) "info" w)
  = (Val false, l, w1) ->
  member_step env source_team target_team gh_target target_org index member
              l w = (Val tt, skipped_in member l, w1)
  /\ exists added,
      calls w1 = calls w ++ added
      /\ count_calls is_add_membership added = 0%nat.
Proof.
  intros Hv.
  destruct (member_step_cases source_team target_team gh_target target_org
              index member l w)
    as (b & w1' & l' & w' & Hv' & Hstep & Hskip & _).
  rewrite Hv in Hv'. injection Hv' as <- <-.
  destruct (Hskip eq_refl) as [-> ->]. split; [exact Hstep|].
  destruct (user_exists_in_org_total env gh_target target_org (login member)
              l (logged (member_progress_line source_team index member l)
                        "info" w))
    as (b & w2 & added & Hv2 & Hcalls & _ & _ & _ & Hadd).
  rewrite Hv in Hv2. injection Hv2 as <- <-.
  exists added. split; assumption.
Qed.

End Members.

(** C5, as the code has it.  The loop of [migrate_team_members] takes the
    source members one after the other through [member_step], and for each
    of them, with [b] what [user_exists_in_org] answers (the user resolves on
    the platform and its login is, by exact match, among the members of the
    target organisation):
    - when [b] is false the member is recorded as skipped and no
      [add_membership] call is made;
    - when [b] is true the member is either added to the target team, or -
      when the role lookup or the add call raises - recorded as failed and
      not counted as migrated;
    - when [b] is true and the role lookup and the add call answer, the
      member is added with the role of the source team. *)
Theorem C5_membership_gating :
  forall (env : Env) source_team target_team gh_target target_org
         (index : nat) (member : NamedUser) (l : mtm_locals) (w : World),
    let w0 := logged (member_progress_line source_team index member l) "info"
                     w in
    (forall before after l0 w',
        members_loop env source_team target_team gh_target target_org
                     (before ++ (index, member) :: after) l0 w'
        = bind (members_loop env source_team target_team gh_target target_org
                             before)
               (fun _ =>
                  bind (member_step env source_team target_team gh_target
                                    target_org index member)
                       (fun _ =>
                          members_loop env source_team target_team gh_target
                                       target_org after)) l0 w')
    /\ exists b w1 l' w',
      user_exists_in_org env gh_target target_org (login member) l w0
      = (Val b, l, w1)
      /\ member_step env source_team target_team gh_target target_org index
                     member l w = (Val tt, l', w')
      /\ (b = false ->
          l' = skipped_in member l
          /\ exists added,
              calls w' = calls w ++ added
              /\ count_calls is_add_membership added = 0%nat)
      /\ (b = true ->
          (exists role before,
              l' = added_in member role l
              /\ calls w' = before ++
                   [team_add_membership_call target_team member role])
          \/ (exists error detail,
                 l' = failed_in member error detail l))
      /\ (b = true ->
          forall r,
            on_team_get_team_membership env (calls w1) source_team member
            = Val r ->
            on_team_add_membership env
              (calls w1 ++ [team_get_team_membership_call source_team member])
              target_team member (role_of r) = Val tt ->
            l' = added_in member (role_of r) l
            /\ calls w' = calls w1 ++
                 [team_get_team_membership_call source_team member;
                  team_add_membership_call target_team member (role_of r)]).
Proof.
  intros env source_team target_team gh_target target_org index member l w w0.
  split.
  { intros before after l0 w'. apply members_loop_app. }
  destruct (member_step_cases env source_team target_team gh_target target_org
              index member l w)
    as (b & w1 & l' & w' & Hv & Hstep & Hskip & Hadd & Hok).
  exists b, w1, l', w'. split; [exact Hv|]. split; [exact Hstep|].
  split; [|split; assumption].
  intros ->.
  destruct (member_step_skips env source_team target_team gh_target target_org
              index member l w w1 Hv) as (Hstep' & added & Hcalls & Hnone).
  rewrite Hstep in Hstep'. injection Hstep' as -> ->.
  split; [reflexivity|]. now exists added.
Qed.

(** C5 on [bob], a member of the source team who is in the target
    organisation and whose role can be read: he is added as a member. *)
Lemma C5_membership_gating_witness :
  exists l' w',
    member_step Scenario.insider (Scenario.a_team 1 "dev")
                (Scenario.a_team 2 "dev") gh_target_client "acme" 1
                Scenario.bob mtm_init empty_world = (Val tt, l', w')
    /\ l' = added_in Scenario.bob "member" mtm_init
    /\ count_calls is_add_membership (calls w') = 1%nat.
Proof.
  destruct (C5_membership_gating
              Scenario.insider (Scenario.a_team 1 "dev")
              (Scenario.a_team 2 "dev") gh_target_client "acme" 1
              Scenario.bob mtm_init empty_world)
    as (_ & b & w1 & l' & w' & Hv & Hstep & _ & _ & Hadded).
  exists l', w'. split; [exact Hstep|].
  vm_compute in Hv. injection Hv as <- <-.
  destruct (Hadded eq_refl "member"%string eq_refl eq_refl) as [-> ->].
  split; reflexivity.
Defined.

(** C5 as stated fails: [bob] is validated - he resolves on the platform and
    is a member of the target organisation - and yet he is not added, because
    his role in the source team cannot be read: he is recorded as failed and
    no [add_membership] call is made. *)
Lemma C5_counterexample :
  fst (fst (user_exists_in_org Scenario.role_lookup_fails gh_target_client
                               "acme" "bob" tt empty_world)) = Val true
  /\ let run := migrate_team_members Scenario.role_lookup_fails
                  (Scenario.a_team 1 "dev") (Scenario.a_team 2 "dev")
                  gh_target_client "acme" mtm_init empty_world in
     fst (fst run)
     = Val {| mr_success := false; mr_total_members := 1;
              mr_members_migrated := 0; mr_members_failed := 1;
              mr_member_details := ["bob: Failed - Server Error"%string] |}
     /\ count_calls is_add_membership (calls (snd run)) = 0%nat.
Proof. repeat split; vm_compute; reflexivity. Qed.

(** C6, as the code has it: [migrate_team_members] always returns an
    aggregate result and never raises; its [success] is true only if no member
    failed; when the listing of the source members succeeded, [success] is
    true exactly when the count of failed members is zero; when the listing
    failed, [success] is false although the counts are zero. *)
Theorem C6_aggregate_success :
  forall (env : Env) source_team target_team gh_target target_org
         (l : mtm_locals) (w : World),
  exists res l' w',
    migrate_team_members env source_team target_team gh_target target_org l w
    = (Val res, l', w')
    /\ (mr_success res = true -> mr_members_failed res = 0%nat)
    /\ match fst (fst (list_source_members env source_team tt w)) with
       | Val _ => mr_success res = true <-> mr_members_failed res = 0%nat
       | Exc _ => mr_success res = false
                  /\ mr_members_failed res = 0%nat
                  /\ mr_members_migrated res = 0%nat
                  /\ mr_total_members res = 0%nat
       end.
Proof.
  intros env source_team target_team gh_target target_org l w.
  destruct (migrate_team_members_cases env source_team target_team gh_target
              target_org l w)
    as (res & l' & w' & Hrun & _ & _ & Hcases).
  exists res, l', w'. split; [exact Hrun|].
  destruct (fst (fst (list_source_members env source_team tt w))) as [ms|e].
  - rewrite Hcases. split.
    + intros H. now apply Nat.eqb_eq.
    + apply Nat.eqb_eq.
  - destruct Hcases as (Hs & Hf & Hm & Ht & _). split.
    + intros _. exact Hf.
    + repeat split; assumption.
Qed.

(** C6 as stated fails: when the members of the source team cannot be listed,
    the result has no failed member and is not a success. *)
Lemma C6_counterexample :
  fst (fst (migrate_team_members Scenario.listing_fails
              (Scenario.a_team 1 "dev") (Scenario.a_team 2 "dev")
              gh_target_client "acme" mtm_init empty_world))
  = Val {| mr_success := false; mr_total_members := 0;
           mr_members_migrated := 0; mr_members_failed := 0;
           mr_member_details := ["Error: Server Error"%string] |}.
Proof. vm_compute. reflexivity. Qed.



(* ------------------------------------------------------------------ *)
(** ** The Batch Scheduler *)

Section Returns.

Context {L A B : Type}.

Lemma returns_ret (a : A) (P : A -> L -> World -> Prop) :
  (forall l w, P a l w) -> returns (ret a) P.
Proof. intros H l w a' l' w' E. injection E as <- <- <-. apply H. Qed.

Lemma returns_raise (e : exn) (P : A -> L -> World -> Prop) :
  returns (raise e) P.
Proof. intros l w a l' w' E. discriminate. Qed.

Lemma returns_bind (m : M L A) (f : A -> M L B) P :
  (forall a, returns (f a) P) -> returns (bind m f) P.
Proof.
  intros H l w b l' w' E.
  destruct (bind_inv_val _ _ _ _ _ _ _ E) as (a & l1 & w1 & _ & E2).
  exact (H a l1 w1 b l' w' E2).
Qed.

Lemma returns_bind_post (m : M L A) (f : A -> M L B) (Q : A -> Prop) P :
  returns m (fun a _ _ => Q a) ->
  (forall a, Q a -> returns (f a) P) ->
  returns (bind m f) P.
Proof.
  intros Hm H l w b l' w' E.
  destruct (bind_inv_val _ _ _ _ _ _ _ E) as (a & l1 & w1 & E1 & E2).
  exact (H a (Hm _ _ _ _ _ E1) l1 w1 b l' w' E2).
Qed.

Lemma returns_try (m : M L A) (h : exn -> M L A) P :
  returns m P -> (forall e, returns (h e) P) -> returns (try_except m h) P.
Proof.
  intros Hm Hh l w a l' w' E. unfold try_except in E.
  destruct (m l w) as [[r l1] w1] eqn:Em. destruct r as [a1|e].
  - injection E as <- <- <-. exact (Hm _ _ _ _ _ Em).
  - exact (Hh e _ _ _ _ _ E).
Qed.

End Returns.

Lemma returns_for_each_until {L A : Type} (xs : list A)
      (body : A -> M L (option outcome)) :
  (forall x, returns (body x) goes_on_or_restarts) ->
  returns (for_each_until xs body) goes_on_or_restarts.
Proof.
  intros Hbody. induction xs as [|x xs IH]; cbn [for_each_until].
  - now apply returns_ret.
  - apply returns_bind_post with (Q := fun r => goes_on_or_restarts r tt
                                                  empty_world).
    + intros l w a l' w' E. exact (Hbody x _ _ _ _ _ E).
    + intros [o|] Ho; [|exact IH].
      apply returns_ret. intros l w. exact Ho.
Qed.

Lemma returns_and_then {L : Type} (m : M L (option outcome)) (k : M L outcome)
      (P : outcome -> L -> World -> Prop) :
  returns m goes_on_or_restarts ->
  (forall teams l w, P (Restart teams) l w) ->
  returns k P ->
  returns (and_then m k) P.
Proof.
  intros Hm Hrestart Hk. unfold and_then.
  apply returns_bind_post with (Q := fun r => goes_on_or_restarts r tt
                                                  empty_world).
  - intros l w a l' w' E. exact (Hm _ _ _ _ _ E).
  - intros [[b|teams]|] Ho.
    + destruct Ho.
    + apply returns_ret. intros l w. apply Hrestart.
    + exact Hk.
Qed.

Section Scheduler.

Variable env : Env.

Ltac goes_on :=
  repeat first
    [ apply returns_raise
    | apply returns_ret; intros; exact I
    | apply returns_bind; intros
    | apply returns_try; [|intros]
    | match goal with
      | |- returns (if ?c then _ else _) _ => destruct c
      | |- returns (match ?x with _ => _ end) _ => destruct x
      end ].

Lemma fetch_source_teams_goes_on gh_source source_org_obj :
  returns (fetch_source_teams env gh_source source_org_obj)
          goes_on_or_restarts.
Proof.
  unfold fetch_source_teams.
  apply returns_bind. intros teams.
  apply returns_bind_post with (Q := fun r => goes_on_or_restarts r tt
                                                  empty_world).
  - destruct teams; goes_on.
  - intros [o|] Ho; [|goes_on].
    apply returns_ret. intros l w. exact Ho.
Qed.

Lemma fetch_target_teams_goes_on gh_target target_org_obj :
  returns (fetch_target_teams env gh_target target_org_obj)
          goes_on_or_restarts.
Proof. unfold fetch_target_teams. goes_on. Qed.

Lemma process_team_goes_on gh_target source_org_obj target_org migrate_users
      map_idp_groups batches batch_num batch total_teams batch_size index
      name :
  returns (process_team env gh_target source_org_obj target_org migrate_users
                        map_idp_groups batches batch_num batch total_teams
                        batch_size index name)
          goes_on_or_restarts.
Proof. unfold process_team. goes_on. Qed.

Lemma process_batches_goes_on gh_target source_org_obj target_org
      migrate_users map_idp_groups :
  returns (process_batches env gh_target source_org_obj target_org
                           migrate_users map_idp_groups)
          goes_on_or_restarts.
Proof.
  unfold process_batches.
  apply returns_bind. intros teams. apply returns_bind. intros _.
  apply returns_for_each_until. intros [batch_num batch].
  apply returns_bind. intros _.
  apply returns_bind_post with (Q := fun r => goes_on_or_restarts r tt
                                                  empty_world).
  - intros l w a l' w' E.
    refine (returns_for_each_until _ _ _ _ _ _ _ _ E).
    intros it. apply process_team_goes_on.
  - intros [o|] Ho; [|goes_on].
    apply returns_ret. intros l w. exact Ho.
Qed.

Lemma write_summary_summarised output_folder source_org target_org :
  returns (write_summary env output_folder source_org target_org)
          (summarised output_folder source_org target_org).
Proof.
  intros l w o l' w' E.
  unfold write_summary, bind, gets, write_migration_summary, extern, ret
    in E.
  cbn in E.
  destruct (on_write_migration_summary env (calls w)) as [[]|e];
    [|discriminate].
  injection E as <- <- <-. cbn. split; [reflexivity|].
  exists (calls w). reflexivity.
Qed.

(** An invocation that returns a value has just written the summary of its
    status map, and the value says whether every status in it is a success
    state. *)
Lemma body_summarised gh_source gh_target source_org target_org output_folder
      migrate_users map_idp_groups migrate_parent_child :
  returns (migrate_teams_optimized_body env gh_source gh_target source_org
             target_org output_folder migrate_users map_idp_groups
             migrate_parent_child)
          (summarised output_folder source_org target_org).
Proof.
  unfold migrate_teams_optimized_body.
  do 4 (apply returns_bind; intros).
  apply returns_and_then;
    [apply fetch_source_teams_goes_on|intros; exact I|].
  do 2 (apply returns_bind; intros).
  apply returns_and_then;
    [apply fetch_target_teams_goes_on|intros; exact I|].
  do 2 (apply returns_bind; intros).
  apply returns_and_then;
    [apply process_batches_goes_on|intros; exact I|].
  apply returns_bind; intros.
  apply write_summary_summarised.
Qed.

(** What the scheduler does with a team whose creation raised: any error
    but a rate-limit error marks the team as failed and the loop goes on,
    without a further call; a rate-limit error waits for the Governor and
    asks for a restart from this team. *)
Lemma process_team_create_failure gh_target source_org_obj target_org
      migrate_users map_idp_groups batches batch_num batch total_teams
      batch_size index name l w info t e w2 :
  PyDict.get (PyStr.lower name) (team_cache l) = Some info ->
  ti_team_obj info = Some t ->
  map_idp_groups = false
  \/ PyDict.mem (PyStr.lower name) (idp_group_cache l) = true ->
  let l1 := with_team_details (fun _ => fresh_team_details name info) l in
  let w1 := logged (team_progress_line batch_num batch_size index total_teams
                                       name) "info" w in
  create_gh_team env gh_target target_org name (ti_description info)
                 (ti_privacy info) (Some (target_teams_cache l)) l1 w1
  = (Exc e, l1, w2) ->
  exists res l' w',
    process_team env gh_target source_org_obj target_org migrate_users
                 map_idp_groups batches batch_num batch total_teams batch_size
                 index name l w = (res, l', w')
    /\ (is_RateLimitExceededException e = false ->
        res = Val None
        /\ PyDict.get name (migration_status l') = Some "failed"%string
        /\ calls w' = calls w2)
    /\ (is_RateLimitExceededException e = true ->
        calls w' = calls w2 ++ [smart_rate_limit_handler_call (Some gh_target)]
        /\ forall remaining,
            remaining_teams batches batch_num batch name = Some remaining ->
            res = Val (Some (Restart remaining))
            /\ migration_status l' = migration_status l).
Proof.
  intros Hget Hobj Hidp l1 w1 Hcreate.
  unfold process_team.
  unfold bind at 1. cbn [log_and_print]. fold w1.
  unfold bind at 1. cbn [gets]. rewrite Hget.
  assert (Hbody :
    bind (migrate_one_team env gh_target source_org_obj target_org
                           migrate_users map_idp_groups index name info)
         (fun _ => ret None) l w1
    = (@Exc (option outcome) e, l1, w2)).
  { apply bind_exc. unfold migrate_one_team.
    unfold bind at 1. cbn [modify]. fold l1.
    unfold bind at 1. cbn [gets].
    replace (andb map_idp_groups
               (negb (if map_idp_groups
                      then PyDict.mem (PyStr.lower name) (idp_group_cache l1)
                      else false))) with false.
    2:{ destruct Hidp as [->|H]; [reflexivity|].
        subst l1. cbn. rewrite H. now destruct map_idp_groups. }
    rewrite Hobj. unfold bind at 1. cbn [ret].
    unfold bind at 1. cbn [gets].
    apply bind_exc. exact Hcreate. }
  rewrite (try_exc _ _ _ _ _ _ _ Hbody).
  destruct e as [s m|s m|s m|s m|m|m]; cbn.
  1:{ destruct (remaining_teams batches batch_num batch name) as [rem|];
      cbn; eexists _, _, _; (split; [reflexivity|]);
      (split; [discriminate|]); intros _; (split; [reflexivity|]);
      intros remaining Hrem; try discriminate.
      injection Hrem as <-. split; reflexivity. }
  all: eexists _, _, _; (split; [reflexivity|]); cbn;
    (split; [|discriminate]); intros _; (split; [reflexivity|]);
    (split; [|reflexivity]);
    rewrite dict_get_set, String.eqb_refl; reflexivity.
Qed.

End Scheduler.

Lemma all_succeeded_iff (statuses : PyDict.dict string) :
  all_succeeded statuses = true <->
  forall team status,
    In (team, status) (PyDict.items statuses) ->
    status = "success"%string \/ status = "exists"%string.
Proof.
  unfold all_succeeded, PyDict.values, PyDict.items.
  rewrite forallb_forall. split.
  - intros H team status Hin.
    assert (Hm : PyStr.mem status success_states = true).
    { apply H. apply in_map_iff. now exists (team, status). }
    unfold PyStr.mem, success_states in Hm. cbn in Hm.
    destruct (String.eqb_spec status "success"); [now left|].
    destruct (String.eqb_spec status "exists"); [now right|discriminate].
  - intros H status Hin. apply in_map_iff in Hin.
    destruct Hin as ([team status'] & <- & Hin). cbn.
    destruct (H team status' Hin) as [->| ->]; reflexivity.
Qed.

(** A run that ends within [fuel] invocations ends the same way with more. *)
Lemma migrate_teams_optimized_more_fuel (env : Env) (fuel extra : nat)
      gh_source gh_target source_org target_org output_folder teams
      migrate_users map_idp_groups migrate_parent_child w r :
  migrate_teams_optimized env fuel gh_source gh_target source_org target_org
    output_folder teams migrate_users map_idp_groups migrate_parent_child w
  = Some r ->
  migrate_teams_optimized env (fuel + extra) gh_source gh_target source_org
    target_org output_folder teams migrate_users map_idp_groups
    migrate_parent_child w
  = Some r.
Proof.
  revert teams w. induction fuel as [|fuel IH]; intros teams w Hrun;
    [discriminate|].
  cbn [migrate_teams_optimized Nat.add] in *.
  destruct (migrate_teams_optimized_body env gh_source gh_target source_org
              target_org output_folder migrate_users map_idp_groups
              migrate_parent_child (mto_init teams) w) as [[res l1] w1].
  destruct res as [[b|teams1]|e]; try exact Hrun.
  now apply IH.
Qed.

(** An invocation that does not ask for a restart is the whole run. *)
Lemma migrate_teams_optimized_one_invocation (env : Env) (fuel : nat)
      gh_source gh_target source_org target_org output_folder teams
      migrate_users map_idp_groups migrate_parent_child w b l' w' :
  migrate_teams_optimized_body env gh_source gh_target source_org target_org
    output_folder migrate_users map_idp_groups migrate_parent_child
    (mto_init teams) w = (Val (Done b), l', w') ->
  migrate_teams_optimized env (S fuel) gh_source gh_target source_org
    target_org output_folder teams migrate_users map_idp_groups
    migrate_parent_child w
  = Some (Val b, w').
Proof.
  intros Hbody. cbn [migrate_teams_optimized]. now rewrite Hbody.
Qed.



(** The teams handed to the restart are the current team and everything
    after it, in this batch and in the later ones - provided the name of the
    current team does not occur earlier in its batch. *)
Lemma remaining_teams_from_current earlier_batches done name rest
      later_batches :
  ~ In name done ->
  remaining_teams (earlier_batches ++ (done ++ name :: rest) :: later_batches)
                  (S (length earlier_batches)) (done ++ name :: rest) name
  = Some (name :: rest ++ concat later_batches).
Proof.
  intros Hfresh. unfold remaining_teams.
  assert (Hidx : PyList.index name (done ++ name :: rest)
                 = Some (length done)).
  { induction done as [|x done IH]; cbn.
    - now rewrite String.eqb_refl.
    - destruct (String.eqb_spec x name) as [->|_].
      + destruct Hfresh. now left.
      + rewrite IH; [reflexivity|]. intros H. apply Hfresh. now right. }
  rewrite Hidx. f_equal.
  assert (Hbatch : skipn (length done) (done ++ name :: rest) = name :: rest).
  { rewrite skipn_app, skipn_all, Nat.sub_diag. reflexivity. }
  assert (Hlater : skipn (S (length earlier_batches))
                         (earlier_batches ++ (done ++ name :: rest)
                                          :: later_batches)
                   = later_batches).
  { clear. induction earlier_batches as [|x xs IH]; cbn; [reflexivity|].
    exact IH. }
  rewrite Hbatch, Hlater. reflexivity.
Qed.

(** C1, at the failing run: the creation of [alpha] is refused, so [alpha] is
    recorded as failed; the creation of [beta] is then rate limited, and the
    first invocation ends in a restart on [[beta]] - the remaining teams.  The
    restarted invocation starts from empty status and detail maps: its
    summary names [beta] alone, nothing is left of the failure of [alpha],
    and the run returns [True]. *)
Theorem C1_restart_forgets_recorded_statuses :
  let first :=
    migrate_teams_optimized_body Scenario.interrupted gh_source_client
      gh_target_client "src" "tgt" "out" false false false
      (mto_init ["alpha"%string; "beta"%string]) empty_world in
  fst (fst first) = Val (Restart ["beta"%string])
  /\ migration_status (snd (fst first)) = [("alpha"%string, "failed"%string)]
  /\ exists w',
      migrate_teams_optimized Scenario.interrupted 2 gh_source_client
        gh_target_client "src" "tgt" "out" ["alpha"%string; "beta"%string]
        false false false empty_world
      = Some (Val true, w')
      /\ filter (fun c => match c with
                          | write_migration_summary_call _ _ _ _ _ _ => true
                          | _ => false
                          end) (calls w')
         = [write_migration_summary_call "out" "src" "tgt" ["beta"%string] []
              [("beta"%string, Scenario.plain_details "beta")]].
Proof.
  split; [vm_compute; reflexivity|].
  split; [vm_compute; reflexivity|].
  eexists. split; vm_compute; reflexivity.
Qed.




(* ------------------------------------------------------------------ *)
(** ** Footprints, totality and invariants: the rules *)

Section FootprintRules.

Context {L : Type}.
Variable p : call -> bool.

Lemma only_calls_ret {A} (a : A) : only_calls p (@ret L A a).
Proof. intros l w. exists []. now rewrite app_nil_r. Qed.

Lemma only_calls_raise {A} (e : exn) : only_calls p (@raise L A e).
Proof. intros l w. exists []. now rewrite app_nil_r. Qed.

Lemma only_calls_gets {A} (f : L -> A) : only_calls p (gets f).
Proof. intros l w. exists []. now rewrite app_nil_r. Qed.

Lemma only_calls_get_locals : only_calls p (@get_locals L).
Proof. intros l w. exists []. now rewrite app_nil_r. Qed.

Lemma only_calls_modify (f : L -> L) : only_calls p (modify f).
Proof. intros l w. exists []. now rewrite app_nil_r. Qed.

Lemma only_calls_log (message level : string) :
  only_calls p (@log_and_print L message level).
Proof. intros l w. exists []. cbn. now rewrite app_nil_r. Qed.

Lemma only_calls_of_result {A} (r : result A) : only_calls p (@of_result L A r).
Proof. intros l w. exists []. now rewrite app_nil_r. Qed.

Lemma only_calls_extern {A} (c : call) (answer : list call -> result A) :
  p c = true -> only_calls p (@extern L A c answer).
Proof. intros H l w. exists [c]. cbn. now rewrite H. Qed.

Lemma only_calls_bind {A B} (m : M L A) (f : A -> M L B) :
  only_calls p m -> (forall a, only_calls p (f a)) ->
  only_calls p (bind m f).
Proof.
  intros Hm Hf l w. unfold bind.
  destruct (Hm l w) as (added1 & H1 & Hp1).
  destruct (m l w) as [[r l1] w1]. cbn in H1.
  destruct r as [a|e].
  - destruct (Hf a l1 w1) as (added2 & H2 & Hp2).
    exists (added1 ++ added2). rewrite H2, H1, app_assoc.
    split; [reflexivity|]. rewrite forallb_app, Hp1, Hp2. reflexivity.
  - exists added1. now split.
Qed.

Lemma only_calls_bind_post {A B} (m : M L A) (f : A -> M L B)
      (Q : A -> Prop) :
  only_calls p m -> returns m (fun a _ _ => Q a) ->
  (forall a, Q a -> only_calls p (f a)) ->
  only_calls p (bind m f).
Proof.
  intros Hm HQ Hf l w. unfold bind.
  destruct (Hm l w) as (added1 & H1 & Hp1).
  destruct (m l w) as [[r l1] w1] eqn:Em. cbn in H1.
  destruct r as [a|e].
  - destruct (Hf a (HQ _ _ _ _ _ Em) l1 w1) as (added2 & H2 & Hp2).
    exists (added1 ++ added2). rewrite H2, H1, app_assoc.
    split; [reflexivity|]. rewrite forallb_app, Hp1, Hp2. reflexivity.
  - exists added1. now split.
Qed.

Lemma only_calls_try {A} (m : M L A) (h : exn -> M L A) :
  only_calls p m -> (forall e, only_calls p (h e)) ->
  only_calls p (try_except m h).
Proof.
  intros Hm Hh l w. unfold try_except.
  destruct (Hm l w) as (added1 & H1 & Hp1).
  destruct (m l w) as [[r l1] w1]. cbn in H1.
  destruct r as [a|e].
  - exists added1. now split.
  - destruct (Hh e l1 w1) as (added2 & H2 & Hp2).
    exists (added1 ++ added2). rewrite H2, H1, app_assoc.
    split; [reflexivity|]. rewrite forallb_app, Hp1, Hp2. reflexivity.
Qed.

Lemma only_calls_invoke {L' A} (m : M L' A) (l0 : L') :
  only_calls p m -> only_calls p (@invoke L L' A m l0).
Proof.
  intros Hm l w. unfold invoke.
  destruct (Hm l0 w) as (added & H & Hp).
  destruct (m l0 w) as [[r l1] w1]. now exists added.
Qed.

Lemma only_calls_when (c : bool) (m : M L unit) :
  only_calls p m -> only_calls p (when c m).
Proof. intros Hm. destruct c; [exact Hm|apply only_calls_ret]. Qed.

Lemma only_calls_for_each {A} (xs : list A) (body : A -> M L unit) :
  (forall x, only_calls p (body x)) -> only_calls p (for_each xs body).
Proof.
  intros Hbody. induction xs as [|x xs IH]; cbn [for_each].
  - apply only_calls_ret.
  - apply only_calls_bind; [apply Hbody|intros _; exact IH].
Qed.

Lemma only_calls_for_each_until {A} (xs : list A)
      (body : A -> M L (option outcome)) :
  (forall x, only_calls p (body x)) -> only_calls p (for_each_until xs body).
Proof.
  intros Hbody. induction xs as [|x xs IH]; cbn [for_each_until].
  - apply only_calls_ret.
  - apply only_calls_bind; [apply Hbody|].
    intros [o|]; [apply only_calls_ret|exact IH].
Qed.

Lemma only_calls_and_then (m : M L (option outcome)) (k : M L outcome) :
  only_calls p m -> only_calls p k -> only_calls p (and_then m k).
Proof.
  intros Hm Hk. unfold and_then. apply only_calls_bind; [exact Hm|].
  intros [o|]; [apply only_calls_ret|exact Hk].
Qed.

End FootprintRules.

Lemma only_calls_weaken {L A : Type} (p q : call -> bool) (m : M L A) :
  (forall c, p c = true -> q c = true) -> only_calls p m -> only_calls q m.
Proof.
  intros Hpq Hm l w. destruct (Hm l w) as (added & H & Hp).
  exists added. split; [exact H|].
  rewrite forallb_forall in *. intros c Hc. apply Hpq, Hp, Hc.
Qed.

(** Symbolic execution of footprints: the structural rules, then the calls
    themselves. *)
Ltac footprint_step :=
  first
    [ apply only_calls_ret
    | apply only_calls_raise
    | apply only_calls_gets
    | apply only_calls_get_locals
    | apply only_calls_modify
    | apply only_calls_log
    | apply only_calls_of_result
    | apply only_calls_extern; reflexivity
    | apply only_calls_when
    | apply only_calls_invoke
    | apply only_calls_for_each; intros
    | apply only_calls_for_each_until; intros
    | apply only_calls_and_then
    | apply only_calls_bind; [|intros]
    | apply only_calls_try; [|intros]
    | match goal with
      | |- only_calls _ (if ?c then _ else _) => destruct c eqn:?
      | |- only_calls _ (match ?x with _ => _ end) => destruct x eqn:?
      | |- only_calls _ (let _ := _ in _) => cbv zeta
      end ].

Ltac footprint := repeat footprint_step.

Section TotalityRules.

Context {L : Type}.

Lemma never_raises_ret {A} (a : A) : never_raises (@ret L A a).
Proof. intros l w. now exists a. Qed.

Lemma never_raises_gets {A} (f : L -> A) : never_raises (gets f).
Proof. intros l w. now eexists. Qed.

Lemma never_raises_modify (f : L -> L) : never_raises (modify f).
Proof. intros l w. now exists tt. Qed.

Lemma never_raises_log (message level : string) :
  never_raises (@log_and_print L message level).
Proof. intros l w. now exists tt. Qed.

Lemma never_raises_bind {A B} (m : M L A) (f : A -> M L B) :
  never_raises m -> (forall a, never_raises (f a)) ->
  never_raises (bind m f).
Proof.
  intros Hm Hf l w. unfold bind.
  destruct (Hm l w) as (a & Ha).
  destruct (m l w) as [[r l1] w1]. cbn in Ha. subst r. apply Hf.
Qed.

(** A [try] whose handlers never raise never raises. *)
Lemma never_raises_try {A} (m : M L A) (h : exn -> M L A) :
  (forall e, never_raises (h e)) -> never_raises (try_except m h).
Proof.
  intros Hh l w. unfold try_except.
  destruct (m l w) as [[r l1] w1]. destruct r as [a|e].
  - now exists a.
  - apply Hh.
Qed.

Lemma never_raises_when (c : bool) (m : M L unit) :
  never_raises m -> never_raises (when c m).
Proof. intros Hm. destruct c; [exact Hm|apply never_raises_ret]. Qed.

Lemma never_raises_for_each {A} (xs : list A) (body : A -> M L unit) :
  (forall x, never_raises (body x)) -> never_raises (for_each xs body).
Proof.
  intros Hbody. induction xs as [|x xs IH]; cbn [for_each].
  - apply never_raises_ret.
  - apply never_raises_bind; [apply Hbody|intros _; exact IH].
Qed.

End TotalityRules.

(* ------------------------------------------------------------------ *)
(** ** Locals: the rules *)

Section TripleRules.

Context {L : Type}.

Lemma triple_consequence {A} (P P' : L -> Prop) (m : M L A)
      (Q Q' : A -> L -> Prop) (E E' : L -> Prop) :
  triple P m Q E ->
  (forall l, P' l -> P l) ->
  (forall a l, Q a l -> Q' a l) ->
  (forall l, E l -> E' l) ->
  triple P' m Q' E'.
Proof.
  intros Hm HP HQ HE l w Hl. specialize (Hm l w (HP l Hl)).
  destruct (fst (m l w)) as [[a|e] l']; auto.
Qed.

Lemma triple_ret {A} (a : A) (P : L -> Prop) Q E :
  (forall l, P l -> Q a l) -> triple P (ret a) Q E.
Proof. intros H l w Hl. now apply H. Qed.

Lemma triple_raise {A} (e : exn) (P : L -> Prop) (Q : A -> L -> Prop) E :
  (forall l, P l -> E l) -> triple P (raise e) Q E.
Proof. intros H l w Hl. now apply H. Qed.

Lemma triple_gets {A} (f : L -> A) (P : L -> Prop) Q E :
  (forall l, P l -> Q (f l) l) -> triple P (gets f) Q E.
Proof. intros H l w Hl. now apply H. Qed.

Lemma triple_modify (f : L -> L) (P : L -> Prop) Q E :
  (forall l, P l -> Q tt (f l)) -> triple P (modify f) Q E.
Proof. intros H l w Hl. now apply H. Qed.

Lemma triple_bind {A B} (m : M L A) (f : A -> M L B) (P : L -> Prop)
      (R : A -> L -> Prop) Q E :
  triple P m R E -> (forall a, triple (R a) (f a) Q E) ->
  triple P (bind m f) Q E.
Proof.
  intros Hm Hf l w Hl. specialize (Hm l w Hl). unfold bind.
  destruct (m l w) as [[r l1] w1]. cbn [fst] in Hm.
  destruct r as [a|e]; [|exact Hm]. exact (Hf a l1 w1 Hm).
Qed.

(** The same, with what is known of the value [m] returns. *)
Lemma triple_bind_post {A B} (m : M L A) (f : A -> M L B) (P : L -> Prop)
      (R : A -> L -> Prop) (V : A -> Prop) Q E :
  triple P m R E -> returns m (fun a _ _ => V a) ->
  (forall a, V a -> triple (R a) (f a) Q E) ->
  triple P (bind m f) Q E.
Proof.
  intros Hm HV Hf l w Hl. specialize (Hm l w Hl). unfold bind.
  destruct (m l w) as [[r l1] w1] eqn:Em. cbn [fst] in Hm.
  destruct r as [a|e]; [|exact Hm].
  exact (Hf a (HV _ _ _ _ _ Em) l1 w1 Hm).
Qed.

Lemma triple_try {A} (m : M L A) (h : exn -> M L A) (P : L -> Prop)
      (E' : L -> Prop) Q E :
  triple P m Q E' -> (forall e, triple E' (h e) Q E) ->
  triple P (try_except m h) Q E.
Proof.
  intros Hm Hh l w Hl. specialize (Hm l w Hl). unfold try_except.
  destruct (m l w) as [[r l1] w1]. cbn [fst] in Hm.
  destruct r as [a|e]; [exact Hm|]. exact (Hh e l1 w1 Hm).
Qed.

(** A loop that may end the invocation: when it goes through, the property
    has been established for every element. *)
Lemma triple_for_each_until {A} (body : A -> M L (option outcome))
      (I : list A -> L -> Prop) (E : L -> Prop) (xs : list A) :
  (forall done x,
      triple (I done) (body x)
             (fun r l => match r with
                         | None => I (done ++ [x]) l
                         | Some _ => True
                         end) E) ->
  triple (I []) (for_each_until xs body)
         (fun r l => r = None -> I xs l) E.
Proof.
  intros Hbody.
  enough (H : forall done,
             triple (I done) (for_each_until xs body)
                    (fun r l => r = None -> I (done ++ xs) l) E)
    by exact (H []).
  induction xs as [|x xs IH]; intros done; cbn [for_each_until].
  - apply triple_ret. intros l Hl _. now rewrite app_nil_r.
  - eapply triple_bind; [apply Hbody|].
    intros [o|].
    + apply triple_ret. intros l _ Ho. discriminate.
    + eapply triple_consequence; [apply (IH (done ++ [x]))| | |]; auto.
      intros r l Hr Hnone. rewrite <- app_assoc in Hr. now apply Hr.
Qed.

Variable I : L -> Prop.

Lemma keeps_ret {A} (a : A) : keeps I (@ret L A a).
Proof. now apply triple_ret. Qed.

Lemma keeps_raise {A} (e : exn) : keeps I (@raise L A e).
Proof. now apply triple_raise. Qed.

Lemma keeps_gets {A} (f : L -> A) : keeps I (gets f).
Proof. now apply triple_gets. Qed.

Lemma keeps_get_locals : keeps I (@get_locals L).
Proof. intros l w Hl. exact Hl. Qed.

Lemma keeps_modify (f : L -> L) :
  (forall l, I l -> I (f l)) -> keeps I (modify f).
Proof. intros H. now apply triple_modify. Qed.

Lemma keeps_log (message level : string) :
  keeps I (@log_and_print L message level).
Proof. intros l w Hl. exact Hl. Qed.

Lemma keeps_of_result {A} (r : result A) : keeps I (@of_result L A r).
Proof. intros l w Hl. unfold of_result. now destruct r. Qed.

Lemma keeps_extern {A} (c : call) (answer : list call -> result A) :
  keeps I (@extern L A c answer).
Proof. intros l w Hl. unfold extern. cbn. now destruct (answer (calls w)). Qed.

Lemma keeps_invoke {L' A} (m : M L' A) (l0 : L') :
  keeps I (@invoke L L' A m l0).
Proof.
  intros l w Hl. unfold invoke.
  destruct (m l0 w) as [[r l1] w1]. now destruct r.
Qed.

Lemma keeps_bind {A B} (m : M L A) (f : A -> M L B) :
  keeps I m -> (forall a, keeps I (f a)) -> keeps I (bind m f).
Proof. intros Hm Hf. eapply triple_bind; [exact Hm|exact Hf]. Qed.

Lemma keeps_bind_post {A B} (m : M L A) (f : A -> M L B) (V : A -> Prop) :
  keeps I m -> returns m (fun a _ _ => V a) ->
  (forall a, V a -> keeps I (f a)) -> keeps I (bind m f).
Proof.
  intros Hm HV Hf. eapply triple_bind_post; [exact Hm|exact HV|exact Hf].
Qed.

Lemma keeps_try {A} (m : M L A) (h : exn -> M L A) :
  keeps I m -> (forall e, keeps I (h e)) -> keeps I (try_except m h).
Proof. intros Hm Hh. eapply triple_try; [exact Hm|exact Hh]. Qed.

Lemma keeps_when (c : bool) (m : M L unit) :
  keeps I m -> keeps I (when c m).
Proof. intros Hm. destruct c; [exact Hm|apply keeps_ret]. Qed.

Lemma keeps_for_each {A} (xs : list A) (body : A -> M L unit) :
  (forall x, keeps I (body x)) -> keeps I (for_each xs body).
Proof.
  intros Hbody. induction xs as [|x xs IH]; cbn [for_each].
  - apply keeps_ret.
  - apply keeps_bind; [apply Hbody|intros _; exact IH].
Qed.

Lemma keeps_for_each_until {A} (xs : list A)
      (body : A -> M L (option outcome)) :
  (forall x, keeps I (body x)) -> keeps I (for_each_until xs body).
Proof.
  intros Hbody. induction xs as [|x xs IH]; cbn [for_each_until].
  - apply keeps_ret.
  - apply keeps_bind; [apply Hbody|].
    intros [o|]; [apply keeps_ret|exact IH].
Qed.

Lemma keeps_and_then (m : M L (option outcome)) (k : M L outcome) :
  keeps I m -> keeps I k -> keeps I (and_then m k).
Proof.
  intros Hm Hk. unfold and_then. apply keeps_bind; [exact Hm|].
  intros [o|]; [apply keeps_ret|exact Hk].
Qed.

End TripleRules.

(** The structural rules, then the updates of the locals, which [update]
    has to show harmless. *)
Ltac keeps_step update :=
  lazymatch goal with
  | |- keeps _ (ret _) => apply keeps_ret
  | |- keeps _ (raise _) => apply keeps_raise
  | |- keeps _ (gets _) => apply keeps_gets
  | |- keeps _ get_locals => apply keeps_get_locals
  | |- keeps _ (log_and_print _ _) => apply keeps_log
  | |- keeps _ (of_result _) => apply keeps_of_result
  | |- keeps _ (extern _ _) => apply keeps_extern
  | |- keeps _ (invoke _ _) => apply keeps_invoke
  | |- keeps _ (modify _) => apply keeps_modify; update
  | |- keeps _ (when _ _) => apply keeps_when
  | |- keeps _ (for_each _ _) => apply keeps_for_each; intros
  | |- keeps _ (for_each_until _ _) => apply keeps_for_each_until; intros
  | |- keeps _ (and_then _ _) => apply keeps_and_then
  | |- keeps _ (bind _ _) => apply keeps_bind; [|intros]
  | |- keeps _ (try_except _ _) => apply keeps_try; [|intros]
  | |- keeps _ (if ?c then _ else _) => destruct c eqn:?
  | |- keeps _ (match ?x with _ => _ end) => destruct x eqn:?
  | |- keeps _ (let _ := _ in _) => cbv zeta
  end.

Ltac keeps_with update := repeat (keeps_step update).

(** The functions of the module that have no locals of the caller to
    change. *)
Ltac unfold_calls :=
  unfold get_organization, org_get_members, org_create_team, org_get_teams,
    org_get_team_by_slug, team_get_members, team_edit, make_github_request,
    get_all_external_groups, smart_rate_limit_handler, time_sleep,
    write_migration_summary.

Section CalleesKeep.

Variable env : Env.
Context {L : Type}.
Variable I : L -> Prop.

Lemma create_gh_team_keeps gh org_name name description privacy cache :
  keeps I (@create_gh_team env L gh org_name name description privacy cache).
Proof. unfold create_gh_team. unfold_calls. keeps_with fail. Qed.

Lemma get_team_by_name_keeps gh org_name name :
  keeps I (@get_team_by_name env L gh org_name name).
Proof. unfold get_team_by_name. unfold_calls. keeps_with fail. Qed.

Lemma set_team_parent_keeps gh org_name team parent :
  keeps I (@set_team_parent env L gh org_name team parent).
Proof. unfold set_team_parent. unfold_calls. keeps_with fail. Qed.

Lemma check_mapping_keeps org_name team_slug token expected :
  keeps I (@check_team_external_group_mapping env L org_name team_slug token
                                              expected).
Proof.
  unfold check_team_external_group_mapping. unfold_calls. keeps_with fail.
Qed.

Lemma map_external_keeps org_name team_slug token gid cache :
  keeps I (@map_external_group_to_team env L org_name team_slug token gid
                                       cache).
Proof.
  unfold map_external_group_to_team.
  apply keeps_try; [|intros e; keeps_with fail].
  apply keeps_bind; [apply check_mapping_keeps|intros mapping].
  unfold resolve_group_id, patch_binding. unfold_calls. keeps_with fail.
Qed.

End CalleesKeep.

(* ------------------------------------------------------------------ *)
(** ** More on the validation of users *)

Section ValidationMore.

Variable env : Env.
Context {L : Type}.

Lemma validate_user_answer gh username (l : L) w :
  validate_user env gh username l w
  = (Val (match on_get_user env (calls w) gh (PyStr.strip username) with
          | Val (Some u) => Some (login u)
          | _ => None
          end), l,
     snd (validate_user env gh username l w))
  /\ calls (snd (validate_user env gh username l w))
     = calls w ++ [get_user_call gh (PyStr.strip username)].
Proof.
  unfold validate_user, try_except, bind, get_user, extern.
  destruct (on_get_user env (calls w) gh (PyStr.strip username)) as [[u|]|e];
    cbn; try (split; reflexivity).
  destruct e; cbn; split; reflexivity.
Qed.

(** A round of the loop that answers [True] has seen the validated login in
    the member list of the organisation. *)
Lemma org_fetch_attempt_true gh org_name username validated (l : L) w l' w' :
  org_fetch_attempt env gh org_name username validated l w
  = (Val (Some true), l', w') ->
  exists ms,
    on_org_get_members env (calls w ++ [get_organization_call gh org_name])
                       {| org_client := gh; org_login := org_name |} = Val ms
    /\ existsb (fun member => String.eqb (login member) validated) ms = true.
Proof.
  unfold org_fetch_attempt, try_except, bind, get_organization, extern,
    map_result, org_get_members.
  destruct (on_get_organization env (calls w) gh org_name) as [[]|e]; cbn.
  - destruct (on_org_get_members env
                (calls w ++ [get_organization_call gh org_name])
                {| org_client := gh; org_login := org_name |}) as [ms|e];
      cbn.
    + intros H. injection H as H _ _. exists ms. split; [reflexivity|].
      exact H.
    + destruct e; cbn; discriminate.
  - destruct e; cbn; discriminate.
Qed.

Lemma org_fetch_loop_true n gh org_name username validated (l : L) w l' w' :
  org_fetch_loop env n gh org_name username validated l w
  = (Val true, l', w') ->
  exists h ms,
    (exists earlier, h = calls w ++ earlier)
    /\ on_org_get_members env h {| org_client := gh; org_login := org_name |}
       = Val ms
    /\ existsb (fun member => String.eqb (login member) validated) ms = true.
Proof.
  revert w. induction n as [|n IH]; intros w Hrun; cbn [org_fetch_loop] in Hrun.
  - discriminate.
  - destruct (bind_inv_val _ _ _ _ _ _ _ Hrun) as (r & l1 & w1 & Hatt & Hrest).
    destruct (org_fetch_attempt_cases env gh org_name username validated l w)
      as (r' & w1' & Hatt' & Hcases).
    rewrite Hatt in Hatt'. injection Hatt' as E1 E2 E3.
    subst r' l1 w1'.
    destruct r as [b|].
    + injection Hrest as -> _ _.
      destruct (org_fetch_attempt_true gh org_name username validated l w _ _
                  Hatt) as (ms & Hms & Hin).
      exists (calls w ++ [get_organization_call gh org_name]), ms.
      split; [now eexists|]. now split.
    + destruct Hcases as [[_ Hc]|(b & Hb & _)]; [|discriminate].
      destruct (IH w1 Hrest) as (h & ms & (earlier & ->) & Hms & Hin).
      exists (calls w1 ++ earlier), ms. split; [|now split].
      rewrite Hc, <- app_assoc. now eexists.
Qed.

End ValidationMore.

(** X1: [validate_user] never raises: whatever the lookup of the user does,
    it returns the login of the user the platform answered, and [None] when
    the platform answered no user or the lookup raised; it makes the one
    lookup, of the stripped name. *)
Theorem X1_validate_user_never_raises :
  forall (env : Env) (L : Type) gh username (l : L) (w : World),
  exists w',
    validate_user env gh username l w
    = (Val (match on_get_user env (calls w) gh (PyStr.strip username) with
            | Val (Some u) => Some (login u)
            | _ => None
            end), l, w')
    /\ calls w' = calls w ++ [get_user_call gh (PyStr.strip username)].
Proof.
  intros env L gh username l w.
  destruct (validate_user_answer env gh username l w) as [H1 H2].
  eexists. split; [exact H1|exact H2].
Qed.



(** X3: [user_exists_in_org] answers [True] only when the platform answered
    a user for the stripped name and a listing of the members of the
    organisation, made during the call, contains the login of that user -
    compared exactly, letter case included. *)
Theorem X3_membership_is_an_exact_login_match :
  forall (env : Env) (L : Type) gh org_name username (l : L) (w : World)
         (l' : L) (w' : World),
    user_exists_in_org env gh org_name username l w = (Val true, l', w') ->
    exists u h ms,
      on_get_user env (calls w) gh (PyStr.strip username) = Val (Some u)
      /\ (exists earlier, h = calls w ++ earlier)
      /\ on_org_get_members env h {| org_client := gh; org_login := org_name |}
         = Val ms
      /\ exists member, In member ms /\ login member = login u.
Proof.
  intros env L gh org_name username l w l' w' Hrun.
  unfold user_exists_in_org in Hrun.
  destruct (orb _ _); [discriminate|].
  destruct (bind_inv_val _ _ _ _ _ _ _ Hrun) as (r & l1 & w1 & Hv & Hrest).
  destruct (validate_user_answer env gh username l w) as [Hans Hcalls].
  rewrite Hv in Hans, Hcalls. cbn [snd] in Hans, Hcalls.
  injection Hans as Hr Hl. subst r l1.
  destruct (on_get_user env (calls w) gh (PyStr.strip username))
    as [[u|]|e]; try discriminate.
  destruct (negb (PyStr.truthy (login u))); [discriminate|].
  destruct (org_fetch_loop_true env _ gh org_name username (login u) l w1 _ _
              Hrest) as (h & ms & (earlier & ->) & Hms & Hin).
  exists u, (calls w1 ++ earlier), ms. split; [reflexivity|].
  split.
  { rewrite Hcalls, <- app_assoc. now eexists. }
  split; [exact Hms|].
  apply existsb_exists in Hin. destruct Hin as (member & Hin & Heq).
  exists member. split; [exact Hin|]. now apply String.eqb_eq.
Qed.

Lemma X3_membership_is_an_exact_login_match_witness :
  exists u h ms,
    on_get_user Scenario.insider (calls empty_world) gh_target_client
                (PyStr.strip "bob") = Val (Some u)
    /\ (exists earlier, h = calls empty_world ++ earlier)
    /\ on_org_get_members Scenario.insider h
         {| org_client := gh_target_client; org_login := "acme" |} = Val ms
    /\ exists member, In member ms /\ login member = login u.
Proof.
  apply (X3_membership_is_an_exact_login_match
           Scenario.insider unit gh_target_client "acme" "bob" tt empty_world
           tt
           (snd (user_exists_in_org Scenario.insider gh_target_client "acme"
                                    "bob" tt empty_world))).
  vm_compute. reflexivity.
Defined.

(** X4: when the listing of the members of the organisation raises a
    [GithubException] - a rate-limit error included - [user_exists_in_org]
    answers [False] at once: the organisation is not fetched again and the
    Governor is not waited for. *)
Theorem X4_member_listing_error_is_not_retried :
  forall (env : Env) (L : Type) gh org_name username (l : L) (w : World)
         (u : NamedUser) (e : exn),
    PyStr.truthy (PyStr.strip username) = true ->
    on_get_user env (calls w) gh (PyStr.strip username) = Val (Some u) ->
    PyStr.truthy (login u) = true ->
    on_get_organization env
      (calls w ++ [get_user_call gh (PyStr.strip username)]) gh org_name
    = Val tt ->
    on_org_get_members env
      (calls w ++ [get_user_call gh (PyStr.strip username);
                   get_organization_call gh org_name])
      {| org_client := gh; org_login := org_name |} = Exc e ->
    is_GithubException e = true ->
    exists w',
      user_exists_in_org env gh org_name username l w = (Val false, l, w')
      /\ calls w' = calls w ++
           [get_user_call gh (PyStr.strip username);
            get_organization_call gh org_name;
            org_get_members_call {| org_client := gh; org_login := org_name |}].
Proof.
  intros env L gh org_name username l w u e Hname Huser Hlogin Horg Hms He.
  unfold user_exists_in_org.
  assert (Hn : PyStr.truthy username = true).
  { destruct username; [discriminate|reflexivity]. }
  rewrite Hn, Hname. cbn [negb orb].
  unfold bind at 1.
  destruct (validate_user_answer env gh username l w) as [Hans Hcalls].
  rewrite Hans, Huser, Hlogin. cbn [negb].
  unfold max_attempts. cbn [org_fetch_loop].
  unfold bind, org_fetch_attempt, try_except, bind, get_organization, extern,
    map_result, org_get_members.
  rewrite Hcalls, Horg. cbn.
  rewrite <- app_assoc. cbn. rewrite Hms. cbn. rewrite He. cbn.
  eexists. split; [reflexivity|]. cbn.
  now rewrite <- !app_assoc.
Qed.

Lemma X4_member_listing_error_is_not_retried_witness :
  exists w',
    user_exists_in_org Scenario2.members_rate_limited gh_target_client "acme"
                       "bob" tt empty_world = (Val false, tt, w')
    /\ calls w' = calls empty_world ++
         [get_user_call gh_target_client (PyStr.strip "bob");
          get_organization_call gh_target_client "acme";
          org_get_members_call
            {| org_client := gh_target_client; org_login := "acme" |}].
Proof.
  apply (X4_member_listing_error_is_not_retried
           Scenario2.members_rate_limited unit gh_target_client "acme" "bob"
           tt empty_world {| login := "bob" |} Scenario2.rate_limit);
    reflexivity.
Defined.

(* ------------------------------------------------------------------ *)
(** ** More on the Entity Reconciler *)



(** What [create_gh_team] returns, when it returns. *)
Lemma create_gh_team_returns (env : Env) (L : Type) gh org_name name
      description privacy cache (l : L) w r l' w' :
  create_gh_team env gh org_name name description privacy cache l w
  = (Val r, l', w') ->
  let known := PyDict.get (PyStr.lower name)
                          (match cache with
                           | Some c => c
                           | None => PyDict.empty
                           end) in
  (exists team,
      known = Some team /\ r = (Some team, "exist"%string)
      /\ calls w' = calls w ++ [get_organization_call gh org_name])
  \/ (exists team,
         known = None /\ r = (Some team, "new"%string)
         /\ on_org_create_team env
              (calls w ++ [get_organization_call gh org_name])
              {| org_client := gh; org_login := org_name |}
              name description privacy = Val team
         /\ calls w' = calls w ++
              [get_organization_call gh org_name;
               org_create_team_call
                 {| org_client := gh; org_login := org_name |}
                 name description privacy "notifications_enabled"]).
Proof.
  unfold create_gh_team, try_except, bind, get_organization, extern,
    map_result, org_create_team.
  destruct (on_get_organization env (calls w) gh org_name) as [[]|e]; cbn.
  2:{ destruct e; cbn; discriminate. }
  destruct (PyDict.get (PyStr.lower name) _) as [team|] eqn:Hknown; cbn.
  - intros H. injection H as <- <- <-. left. exists team. cbn.
    repeat split.
  - destruct (on_org_create_team env
                (calls w ++ [get_organization_call gh org_name])
                {| org_client := gh; org_login := org_name |}
                name description privacy) as [team|e] eqn:Hcreate; cbn.
    + intros H. injection H as <- <- <-. right. exists team. cbn.
      rewrite <- app_assoc. repeat split.
    + destruct e as [s m|s m|s m|s m|m|m]; cbn;
        try (destruct (s =? 422); [|destruct (s =? 403)]); cbn;
        discriminate.
Qed.



(** X7: [set_team_parent] never raises: it makes the one [edit] call, which
    keeps the name of the team and sets the id of the parent, and returns
    [True] when the call succeeded and [False] when it raised. *)
Theorem X7_set_team_parent_never_raises :
  forall (env : Env) (L : Type) gh org_name team parent_team
         (l : L) (w : World),
  exists w',
    set_team_parent env gh org_name team parent_team l w
    = (Val (match on_team_edit env (calls w) team (team_name team)
                               (team_id parent_team) with
            | Val _ => true
            | Exc _ => false
            end), l, w')
    /\ calls w' = calls w ++
         [team_edit_call team (team_name team) (team_id parent_team)].
Proof.
  intros env L gh org_name team parent_team l w.
  unfold set_team_parent, try_except, bind, team_edit, extern, log_and_print.
  cbn.
  destruct (on_team_edit env (calls w) team (team_name team)
                         (team_id parent_team)) as [[]|e]; cbn;
    eexists; split; reflexivity.
Qed.

(** X8: [get_team_by_name] never raises.  It answers the first team of the
    organisation's listing whose name is exactly the name asked for (the
    letter case counts), and [None] when there is none or when fetching the
    organisation or listing its teams raised. *)
Theorem X8_get_team_by_name_is_exact :
  forall (env : Env) (L : Type) gh org_name name (l : L) (w : World),
  exists r w',
    get_team_by_name env gh org_name name l w = (Val r, l, w')
    /\ (forall t, r = Some t ->
          team_name t = name
          /\ exists teams,
              on_org_get_teams env
                (calls w ++ [get_organization_call gh org_name])
                {| org_client := gh; org_login := org_name |} = Val teams
              /\ exists before after,
                  teams = before ++ t :: after
                  /\ forall t', In t' before -> team_name t' <> name)
    /\ (r = None ->
        (exists e, on_get_organization env (calls w) gh org_name = Exc e)
        \/ (exists e,
               on_org_get_teams env
                 (calls w ++ [get_organization_call gh org_name])
                 {| org_client := gh; org_login := org_name |} = Exc e)
        \/ (exists teams,
               on_org_get_teams env
                 (calls w ++ [get_organization_call gh org_name])
                 {| org_client := gh; org_login := org_name |} = Val teams
               /\ forall t', In t' teams -> team_name t' <> name)).
Proof.
  intros env L gh org_name name l w.
  unfold get_team_by_name, try_except, bind, get_organization, extern,
    map_result, org_get_teams.
  destruct (on_get_organization env (calls w) gh org_name) as [[]|e]; cbn.
  2:{ eexists _, _. split; [reflexivity|]. split; [discriminate|].
      intros _. left. now exists e. }
  destruct (on_org_get_teams env
              (calls w ++ [get_organization_call gh org_name])
              {| org_client := gh; org_login := org_name |}) as [teams|e];
    cbn.
  2:{ eexists _, _. split; [reflexivity|]. split; [discriminate|].
      intros _. right. left. now exists e. }
  eexists _, _. split; [reflexivity|]. split.
  - intros t Ht. clear - Ht.
    assert (Hfind : forall ts,
               find (fun team => String.eqb (team_name team) name) ts = Some t ->
               team_name t = name
               /\ exists before after,
                   ts = before ++ t :: after
                   /\ forall t', In t' before -> team_name t' <> name).
    { induction ts as [|x ts IH]; cbn; [discriminate|].
      destruct (String.eqb_spec (team_name x) name) as [E|N].
      - intros H. injection H as ->. split; [exact E|].
        exists [], ts. split; [reflexivity|]. intros t' [].
      - intros H. destruct (IH H) as (E & before & after & -> & Hb).
        split; [exact E|]. exists (x :: before), after.
        split; [reflexivity|]. intros t' [<-|Hin]; [exact N|now apply Hb]. }
    destruct (Hfind teams Ht) as (E & before & after & Hsplit & Hb).
    split; [exact E|]. exists teams. split; [reflexivity|].
    now exists before, after.
  - intros Hnone. right. right. exists teams. split; [reflexivity|].
    intros t' Hin E.
    apply (find_none _ _ Hnone) in Hin. rewrite E, String.eqb_refl in Hin.
    discriminate.
Qed.

(* ------------------------------------------------------------------ *)
(** ** More on the Membership Synchronizer *)

Lemma option_string_eqb_refl (a : option string) : option_string_eqb a a = true.
Proof. destruct a; cbn; [apply String.eqb_refl|reflexivity]. Qed.

Lemma team_eqb_refl (t : Team) : team_eqb t t = true.
Proof.
  unfold team_eqb.
  now rewrite Z.eqb_refl, !String.eqb_refl, !option_string_eqb_refl.
Qed.

Lemma role_of_cases (r : string) :
  role_of r = "maintainer"%string \/ role_of r = "member"%string.
Proof. unfold role_of. destruct (String.eqb r "maintainer"); auto. Qed.

Section MembersMore.

Variable env : Env.

(** One member: one more in the tally, one more line of detail, and the
    list of source members is left alone. *)
Lemma member_step_tally source_team target_team gh_target target_org index
      member l w :
  exists l' w',
    member_step env source_team target_team gh_target target_org index
                member l w = (Val tt, l', w')
    /\ tally l' = S (tally l)
    /\ length (member_details l') = S (length (member_details l))
    /\ source_members l' = source_members l.
Proof.
  destruct (member_step_cases env source_team target_team gh_target target_org
              index member l w)
    as (b & w1 & l' & w' & _ & Hstep & Hskip & Hadd & _).
  exists l', w'. split; [exact Hstep|].
  destruct b.
  - destruct (Hadd eq_refl) as [(role & before & -> & _)|(e & d & ->)];
      unfold tally; cbn; rewrite length_app; cbn;
      repeat split; lia.
  - destruct (Hskip eq_refl) as [-> _].
    unfold tally; cbn; rewrite length_app; cbn; repeat split; lia.
Qed.

Lemma members_loop_tally source_team target_team gh_target target_org
      members l w :
  exists l' w',
    members_loop env source_team target_team gh_target target_org members
                 l w = (Val tt, l', w')
    /\ tally l' = (tally l + length members)%nat
    /\ length (member_details l')
       = (length (member_details l) + length members)%nat
    /\ source_members l' = source_members l.
Proof.
  revert l w. induction members as [|[index member] members IH]; intros l w.
  - exists l, w. cbn. repeat split; lia.
  - destruct (member_step_tally source_team target_team gh_target target_org
                index member l w) as (l1 & w1 & Hstep & Ht & Hd & Hs).
    destruct (IH l1 w1) as (l' & w' & Hloop & Ht' & Hd' & Hs').
    exists l', w'. split.
    + unfold members_loop. cbn [for_each fst snd].
      rewrite (bind_val _ _ _ _ _ _ _ Hstep). exact Hloop.
    + cbn [length]. repeat split; try lia. congruence.
Qed.

(** The result of [migrate_team_members] when the members were listed: the
    counters the loop ends with. *)
Lemma migrate_team_members_listed source_team target_team gh_target
      target_org l w members w1 :
  list_source_members env source_team tt w = (Val members, tt, w1) ->
  exists l' w',
    migrate_team_members env source_team target_team gh_target target_org
                         l w
    = (Val {| mr_success := Nat.eqb (members_failed l') 0;
              mr_total_members := length (source_members l');
              mr_members_migrated := members_migrated l';
              mr_members_failed := members_failed l';
              mr_member_details := member_details l' |}, l', w')
    /\ tally l' = length members
    /\ length (member_details l') = length members
    /\ source_members l' = members.
Proof.
  intros Hlist.
  pose proof (list_source_members_run env mtm_locals source_team
                (set_source_members [] mtm_init) w) as Hrun.
  rewrite Hlist in Hrun. cbn [fst snd] in Hrun.
  unfold migrate_team_members.
  unfold bind at 1. cbn -[list_source_members].
  unfold try_except at 1. unfold bind at 1. cbn -[list_source_members].
  unfold bind at 1. rewrite Hrun.
  unfold bind at 1. cbn. unfold bind at 1. cbn.
  match goal with
  | |- context [members_loop env ?a ?b ?c ?d ?ms ?l0 ?w0] =>
      destruct (members_loop_tally a b c d ms l0 w0)
        as (l' & w' & Hloop & Ht & Hd & Hs)
  end.
  rewrite Hloop. cbn.
  exists l', w'. split; [reflexivity|].
  unfold PyList.enumerate1 in Ht, Hd.
  rewrite length_combine, length_seq, Nat.min_id in Ht, Hd.
  cbn in Ht, Hd, Hs. repeat split; assumption.
Qed.

(** The role handed to [add_membership] is one of the two. *)
Lemma role_lookup_returns source_team member :
  returns
    (try_except
       (log_and_print ("Checking current role for user '"
                       ++ login member ++ "' in team '"
                       ++ team_name source_team ++ "'")%string "info" ;;
        r <- team_get_team_membership env source_team member ;;
        @ret mtm_locals _ (role_of r))
       (fun e =>
          if is_RateLimitExceededException e then
            log_and_print
              ("Rate limit exceeded when checking role for '"
               ++ login member ++ "'. Waiting for reset...")%string
              "warning" ;;
            r <- team_get_team_membership env source_team member ;;
            ret (role_of r)
          else raise e))
    (fun role _ _ => role = "maintainer"%string \/ role = "member"%string).
Proof.
  apply returns_try.
  - apply returns_bind. intros _. apply returns_bind. intros r.
    apply returns_ret. intros _ _. apply role_of_cases.
  - intros e. destruct (is_RateLimitExceededException e).
    + apply returns_bind. intros _. apply returns_bind. intros r.
      apply returns_ret. intros _ _. apply role_of_cases.
    + apply returns_raise.
Qed.

Lemma user_exists_in_org_footprint (L : Type) (p : call -> bool)
      gh org_name username :
  (forall c, orb (is_get_user c)
                 (orb (is_get_organization c)
                      (orb (is_org_get_members c) (is_rate_limit_wait c)))
             = true -> p c = true) ->
  only_calls p (@user_exists_in_org env L gh org_name username).
Proof.
  intros Hp.
  apply only_calls_weaken
    with (p := fun c => orb (is_get_user c)
                            (orb (is_get_organization c)
                                 (orb (is_org_get_members c)
                                      (is_rate_limit_wait c))));
    [exact Hp|].
  unfold user_exists_in_org, validate_user, max_attempts.
  cbn [org_fetch_loop].
  unfold org_fetch_attempt, get_user, get_organization, org_get_members,
    smart_rate_limit_handler.
  footprint.
Qed.

Lemma member_step_footprint source_team target_team gh_target target_org
      index member :
  only_calls (synchronizer_call target_team)
             (member_step env source_team target_team gh_target target_org
                          index member).
Proof.
  unfold member_step.
  apply only_calls_bind; [footprint|intros line].
  apply only_calls_bind; [footprint|intros _].
  apply only_calls_try.
  2:{ intros e. unfold member_except, record_failed. footprint. }
  unfold member_try.
  apply only_calls_bind.
  { apply user_exists_in_org_footprint.
    intros c. destruct c; cbn; intros H; try discriminate; reflexivity. }
  intros b. destruct (negb b).
  { unfold record_skipped. footprint. }
  apply only_calls_bind_post
    with (Q := fun role => role = "maintainer"%string
                           \/ role = "member"%string).
  { unfold team_get_team_membership. footprint. }
  { apply role_lookup_returns. }
  intros role Hrole.
  assert (Hadd : synchronizer_call target_team
                   (team_add_membership_call target_team member role) = true).
  { cbn. rewrite team_eqb_refl. destruct Hrole as [-> | ->]; reflexivity. }
  unfold team_add_membership, team_rate_limiting, smart_rate_limit_handler,
    record_success.
  apply only_calls_bind; [footprint|intros _].
  apply only_calls_bind.
  { apply only_calls_try; [now apply only_calls_extern|].
    intros e. destruct (is_RateLimitExceededException e); [|footprint].
    apply only_calls_bind; [footprint|intros _].
    apply only_calls_bind; [footprint|intros _].
    apply only_calls_bind; [footprint|intros _].
    now apply only_calls_extern. }
  intros _. footprint.
Qed.

Lemma migrate_team_members_footprint source_team target_team gh_target
      target_org :
  only_calls (synchronizer_call target_team)
             (migrate_team_members env source_team target_team gh_target
                                   target_org).
Proof.
  unfold migrate_team_members.
  apply only_calls_bind; [footprint|intros _].
  apply only_calls_try; [|intros e; footprint].
  apply only_calls_bind; [footprint|intros _].
  apply only_calls_bind.
  { unfold list_source_members, team_get_members. footprint. }
  intros members.
  apply only_calls_bind; [footprint|intros _].
  apply only_calls_bind; [footprint|intros _].
  apply only_calls_bind; [|intros _; footprint].
  unfold members_loop. apply only_calls_for_each. intros im.
  apply member_step_footprint.
Qed.

End MembersMore.

(** X9: when the members of the source team could be listed, every one of
    them is counted exactly once: the members migrated and the members
    failed add up to the total, the total is the number of members listed,
    and there is one line of detail per member. *)
Theorem X9_every_member_is_counted_once :
  forall (env : Env) source_team target_team gh_target target_org
         (l : mtm_locals) (w : World) (members : list NamedUser) (w1 : World),
    list_source_members env source_team tt w = (Val members, tt, w1) ->
    exists res l' w',
      migrate_team_members env source_team target_team gh_target target_org
                           l w = (Val res, l', w')
      /\ (mr_members_migrated res + mr_members_failed res)%nat
         = mr_total_members res
      /\ mr_total_members res = length members
      /\ length (mr_member_details res) = length members.
Proof.
  intros env source_team target_team gh_target target_org l w members w1
         Hlist.
  destruct (migrate_team_members_listed env source_team target_team gh_target
              target_org l w members w1 Hlist)
    as (l' & w' & Hrun & Ht & Hd & Hs).
  eexists _, l', w'. split; [exact Hrun|]. cbn.
  unfold tally in Ht. rewrite Hs. repeat split; assumption.
Qed.

Lemma X9_every_member_is_counted_once_witness :
  exists res l' w',
    migrate_team_members Scenario.outsider (Scenario.a_team 1 "dev")
      (Scenario.a_team 2 "dev") gh_target_client "acme" mtm_init empty_world
    = (Val res, l', w')
    /\ (mr_members_migrated res + mr_members_failed res)%nat
       = mr_total_members res
    /\ mr_total_members res = length [Scenario.carol]
    /\ length (mr_member_details res) = length [Scenario.carol].
Proof.
  apply (X9_every_member_is_counted_once
           Scenario.outsider (Scenario.a_team 1 "dev")
           (Scenario.a_team 2 "dev") gh_target_client "acme" mtm_init
           empty_world [Scenario.carol]
           (called (team_get_members_call (Scenario.a_team 1 "dev"))
                   empty_world)).
  reflexivity.
Defined.

(** X10: [migrate_team_members] writes nothing but memberships of the target
    team: every call it makes is a read or a wait, or an [add_membership] on
    the target team whose role is "maintainer" or "member" - no team is
    created or edited, no request is sent, whatever the platform answers. *)
Theorem X10_synchronizer_only_adds_to_the_target_team :
  forall (env : Env) source_team target_team gh_target target_org
         (l : mtm_locals) (w : World),
  exists added,
    calls (snd (migrate_team_members env source_team target_team gh_target
                                     target_org l w))
    = calls w ++ added
    /\ forall c, In c added ->
         match c with
         | team_add_membership_call team _ role =>
             team = target_team
             /\ (role = "maintainer"%string \/ role = "member"%string)
         | get_user_call _ _ | get_organization_call _ _
         | org_get_members_call _ | team_get_members_call _
         | team_get_team_membership_call _ _ | team_rate_limiting_call _
         | smart_rate_limit_handler_call _ => True
         | _ => False
         end.
Proof.
  intros env source_team target_team gh_target target_org l w.
  destruct (migrate_team_members_footprint env source_team target_team
              gh_target target_org l w) as (added & Hcalls & Hp).
  exists added. split; [exact Hcalls|].
  rewrite forallb_forall in Hp. intros c Hin. specialize (Hp c Hin).
  destruct c; cbn in Hp; try discriminate; try exact I.
  apply andb_prop in Hp. destruct Hp as [Ht Hr]. split.
  - unfold team_eqb in Ht.
    repeat (apply andb_prop in Ht; destruct Ht as [? Ht]).
    destruct team as [i n s d p q], target_team as [i' n' s' d' p' q'].
    cbn in *.
    repeat match goal with
           | H : (_ =? _)%string = true |- _ => apply String.eqb_eq in H
           | H : (_ =? _)%Z = true |- _ => apply Z.eqb_eq in H
           end.
    assert (Hd : d = d').
    { destruct d, d'; cbn in *; try discriminate; [|reflexivity].
      f_equal. now apply String.eqb_eq. }
    assert (Hq : q = q').
    { destruct q, q'; cbn in *; try discriminate; [|reflexivity].
      f_equal. now apply String.eqb_eq. }
    now subst.
  - apply orb_prop in Hr.
    destruct Hr as [H|H]; apply String.eqb_eq in H; auto.
Qed.

(* ------------------------------------------------------------------ *)
(** ** Batches *)

Lemma chunks_fuel_concat (A : Type) (n fuel : nat) (l : list A) :
  (0 < n)%nat -> (length l <= fuel)%nat ->
  concat (PyList.chunks_fuel fuel n l) = l.
Proof.
  intros Hn. revert l. induction fuel as [|fuel IH]; intros l Hlen.
  - destruct l; [reflexivity|cbn in Hlen; lia].
  - destruct l as [|x l]; [reflexivity|].
    cbn [PyList.chunks_fuel concat].
    rewrite IH.
    + apply firstn_skipn.
    + rewrite length_skipn. cbn [length] in *. lia.
Qed.

Lemma chunks_fuel_sizes (A : Type) (n fuel : nat) (l : list A) :
  (0 < n)%nat ->
  Forall (fun b => (0 < length b <= n)%nat) (PyList.chunks_fuel fuel n l).
Proof.
  intros Hn. revert l. induction fuel as [|fuel IH]; intros l.
  - constructor.
  - destruct l as [|x l]; [constructor|].
    cbn [PyList.chunks_fuel]. constructor; [|apply IH].
    rewrite length_firstn. cbn [length]. lia.
Qed.

(** X11: batching loses nothing and reorders nothing: for a positive batch
    size the batches, put end to end, are the list that was batched, and
    every batch has at least one element and at most the batch size. *)
Theorem X11_batches_partition_the_list :
  forall (A : Type) (n : nat) (l : list A),
    (0 < n)%nat ->
    concat (PyList.chunks n l) = l
    /\ Forall (fun b => (0 < length b <= n)%nat) (PyList.chunks n l).
Proof.
  intros A n l Hn. unfold PyList.chunks. split.
  - now apply chunks_fuel_concat.
  - now apply chunks_fuel_sizes.
Qed.

Lemma X11_batches_partition_the_list_witness :
  concat (PyList.chunks 2 ["a"; "b"; "c"; "d"; "e"]%string)
  = ["a"; "b"; "c"; "d"; "e"]%string
  /\ Forall (fun b => (0 < length b <= 2)%nat)
            (PyList.chunks 2 ["a"; "b"; "c"; "d"; "e"]%string).
Proof.
  apply (X11_batches_partition_the_list string 2
           ["a"; "b"; "c"; "d"; "e"]%string).
  lia.
Defined.

(* ------------------------------------------------------------------ *)
(** ** The removal of members *)

Section Removal.

Variable env : Env.

(** One user name: nothing at all for a blank one; otherwise one request,
    and, unless the step raises, one line of detail and at most one more in
    the two counters. *)
Lemma remove_one_effect org_name team_slug token username l w :
  if PyStr.truthy (PyStr.strip username) then
    calls (snd (remove_one env org_name team_slug token username l w))
    = calls w ++ [delete_request env org_name team_slug token username]
    /\ forall l' w',
        remove_one env org_name team_slug token username l w
        = (Val tt, l', w') ->
        length (details l') = S (length (details l))
        /\ (success_count l + failed_count l
            <= success_count l' + failed_count l')%nat
        /\ (success_count l' + failed_count l'
            <= S (success_count l + failed_count l))%nat
  else
    remove_one env org_name team_slug token username l w = (Val tt, l, w).
Proof.
  unfold remove_one.
  destruct (PyStr.truthy (PyStr.strip username)); cbn [negb];
    [|reflexivity].
  unfold try_except, bind, make_github_request, extern, log_and_print,
    modify, of_result, raise_for_status, raise, delete_request.
  cbn.
  match goal with
  | |- context [on_make_github_request env ?h ?m ?u ?d] =>
      destruct (on_make_github_request env h m u d) as [r|e]
  end; cbn.
  - destruct (orb _ _); cbn.
    { split; [reflexivity|]. intros l' w' H. injection H as <- <-. cbn.
      rewrite length_app. cbn. repeat split; lia. }
    destruct (status_code r =? 403); cbn.
    { split; [reflexivity|]. intros l' w' H. injection H as <- <-. cbn.
      rewrite length_app. cbn. repeat split; lia. }
    destruct (status_code r >=? 500); cbn.
    + destruct (andb _ _); cbn.
      * split; [reflexivity|]. intros l' w' H. discriminate.
      * split; [reflexivity|]. intros l' w' H. injection H as <- <-. cbn.
        rewrite length_app. cbn. repeat split; lia.
    + split; [reflexivity|]. intros l' w' H. injection H as <- <-. cbn.
      rewrite length_app. cbn. repeat split; lia.
  - destruct e; cbn; (split; [reflexivity|]); intros l' w' H;
      try discriminate; injection H as <- <-; cbn;
      rewrite length_app; cbn; repeat split; lia.
Qed.

Lemma removed_nil l w : removed [] l w l w.
Proof.
  exists []. rewrite app_nil_r. cbn. repeat split; lia.
Qed.

Lemma removed_app users1 users2 l w l1 w1 l2 w2 :
  removed users1 l w l1 w1 -> removed users2 l1 w1 l2 w2 ->
  removed (users1 ++ users2) l w l2 w2.
Proof.
  intros (a1 & Hc1 & Hn1 & Hd1 & Hlo1 & Hhi1)
         (a2 & Hc2 & Hn2 & Hd2 & Hlo2 & Hhi2).
  exists (a1 ++ a2). unfold non_blank in *.
  rewrite filter_app, length_app, count_calls_app, Hc2, Hc1, app_assoc.
  repeat split; lia.
Qed.

Lemma remove_batch_removed org_name team_slug token batch l w l' w' :
  for_each batch (remove_one env org_name team_slug token) l w
  = (Val tt, l', w') ->
  removed batch l w l' w'.
Proof.
  revert l w. induction batch as [|u batch IH]; intros l w Hrun.
  - injection Hrun as <- <-. apply removed_nil.
  - cbn [for_each] in Hrun.
    destruct (bind_inv_val _ _ _ _ _ _ _ Hrun) as ([] & l1 & w1 & Hone & Hrest).
    apply (removed_app [u] batch l w l1 w1 l' w'); [|now apply IH].
    pose proof (remove_one_effect org_name team_slug token u l w) as Heff.
    unfold removed, non_blank. cbn [filter].
    destruct (PyStr.truthy (PyStr.strip u)).
    + destruct Heff as [Hcalls Hval]. rewrite Hone in Hcalls.
      destruct (Hval l1 w1 Hone) as (Hd & Hlo & Hhi).
      eexists. split; [exact Hcalls|]. cbn. repeat split; lia.
    + rewrite Hone in Heff. injection Heff as <- <-.
      exists []. rewrite app_nil_r. cbn. repeat split; lia.
Qed.

Lemma remove_batches_removed org_name team_slug token all_batches batches
      l w l' w' :
  for_each batches
    (fun batch =>
       for_each batch (remove_one env org_name team_slug token) ;;
       when (andb (Nat.ltb 1 (length all_batches))
                  (negb (PyList.list_eqb batch (last all_batches []))))
            (time_sleep 1)) l w
  = (Val tt, l', w') ->
  removed (concat batches) l w l' w'.
Proof.
  revert l w. induction batches as [|batch batches IH]; intros l w Hrun.
  - injection Hrun as <- <-. apply removed_nil.
  - cbn [for_each concat] in Hrun |- *.
    destruct (bind_inv_val _ _ _ _ _ _ _ Hrun) as ([] & l2 & w2 & Hb & Hrest).
    destruct (bind_inv_val _ _ _ _ _ _ _ Hb) as ([] & l1 & w1 & Hbatch & Hs).
    apply (removed_app batch (concat batches) l w l2 w2 l' w');
      [|now apply IH].
    apply remove_batch_removed in Hbatch.
    destruct Hbatch as (added & Hc & Hn & Hd & Hlo & Hhi).
    destruct (andb _ _); cbn in Hs; injection Hs as <- <-.
    + exists (added ++ [time_sleep_call 1]). cbn.
      rewrite Hc, app_assoc, count_calls_app. cbn.
      repeat split; lia.
    + exists added. repeat split; assumption.
Qed.

Lemma remove_users_from_team_footprint org_name team_slug token users :
  only_calls removal_call
             (remove_users_from_team env org_name team_slug token users).
Proof.
  unfold remove_users_from_team, remove_one, make_github_request, time_sleep.
  footprint.
Qed.

End Removal.



(** When the removal of the first user raises, so does the whole removal,
    in the same state. *)
Lemma remove_users_first_raises (env : Env) org_name team_slug token user
      others l w e l' w' :
  remove_one env org_name team_slug token user l w = (Exc e, l', w') ->
  remove_users_from_team env org_name team_slug token (user :: others) l w
  = (Exc e, l', w').
Proof.
  intros Hone.
  unfold remove_users_from_team. cbv zeta.
  unfold PyList.chunks. cbn [length PyList.chunks_fuel].
  cbn [for_each].
  apply bind_exc. apply bind_exc. apply bind_exc.
  cbn [firstn for_each].
  apply bind_exc. exact Hone.
Qed.



(** X14: [remove_users_from_team] sends nothing but [delete] requests: every
    call it makes, on whatever path it ends, is a [delete] request or the
    pause between two batches. *)
Theorem X14_removal_only_deletes :
  forall (env : Env) org_name team_slug token (users : list string)
         (l : rm_locals) (w : World),
  exists added,
    calls (snd (remove_users_from_team env org_name team_slug token users
                                       l w))
    = calls w ++ added
    /\ forall c, In c added ->
         (exists url tok data,
             c = make_github_request_call "delete" url tok data)
         \/ (exists seconds, c = time_sleep_call seconds).
Proof.
  intros env org_name team_slug token users l w.
  destruct (remove_users_from_team_footprint env org_name team_slug token
              users l w) as (added & Hcalls & Hp).
  exists added. split; [exact Hcalls|].
  rewrite forallb_forall in Hp. intros c Hin. specialize (Hp c Hin).
  unfold removal_call in Hp.
  destruct c; cbn in Hp; try discriminate.
  - left. rewrite ?orb_false_r in Hp. apply String.eqb_eq in Hp. subst.
    now eexists _, _, _.
  - right. now eexists.
Qed.

(* ------------------------------------------------------------------ *)
(** ** More on the Identity Mapping Binder *)

Section BinderMore.

Variable env : Env.
Context {L : Type}.

(** The answer of the check, read off the answer of the binding query. *)
Lemma check_mapping_answer org_name team_slug token expected (l : L) w :
  exists r w',
    check_team_external_group_mapping env org_name team_slug token expected
                                      l w = (Val r, l, w')
    /\ calls w' = calls w ++ [binding_query env org_name team_slug token]
    /\ (fst r = true ->
        exists response g rest,
          on_make_github_request env (calls w) "get"
            (binding_url env org_name team_slug) None = Val response
          /\ status_code response = 200
          /\ json_groups response = Some (g :: rest)
          /\ snd r = Some g
          /\ (expected = None \/ expected = Some ""%string
              \/ exists name,
                  expected = Some name
                  /\ is_expected_group (group_name g) name = true))
    /\ ((exists e, on_make_github_request env (calls w) "get"
                     (binding_url env org_name team_slug) None = Exc e)
        \/ (exists response,
               on_make_github_request env (calls w) "get"
                 (binding_url env org_name team_slug) None = Val response
               /\ status_code response <> 200) ->
        r = (false, None)).
Proof.
  unfold check_team_external_group_mapping, try_except, bind,
    make_github_request, extern, binding_query.
  cbn [calls logs log_and_print].
  destruct (on_make_github_request env (calls w) "get"
              (binding_url env org_name team_slug) None) as [r|e]; cbn.
  2:{ eexists _, _. split; [reflexivity|]. split; [reflexivity|].
      split; [discriminate|]. reflexivity. }
  destruct (Z.eqb_spec (status_code r) 200) as [E|N].
  - destruct (json_groups r) as [[|g rest]|] eqn:Hg; cbn;
      try (eexists _, _; split; [reflexivity|]; split; [reflexivity|];
           split; [discriminate|];
           intros [(e & He)|(r' & Hr' & Hs)];
           [discriminate|injection Hr' as <-; contradiction]).
    destruct expected as [name|]; cbn.
    + destruct name as [|a tail]; cbn.
      * eexists _, _. split; [reflexivity|]. split; [reflexivity|]. split.
        -- intros _. exists r, g, rest. repeat split; auto.
        -- intros [(e & He)|(r' & Hr' & Hs)];
             [discriminate|injection Hr' as <-; contradiction].
      * destruct (is_expected_group (group_name g) (String a tail))
          eqn:Hexp; cbn;
          eexists _, _; (split; [reflexivity|]); (split; [reflexivity|]);
          split;
          try (intros [(e & He)|(r' & Hr' & Hs)];
               [discriminate|injection Hr' as <-; contradiction]).
        -- intros _. exists r, g, rest. repeat split; auto.
           right. right. now eexists.
        -- discriminate.
    + eexists _, _. split; [reflexivity|]. split; [reflexivity|]. split.
      * intros _. exists r, g, rest. repeat split; auto.
      * intros [(e & He)|(r' & Hr' & Hs)];
          [discriminate|injection Hr' as <-; contradiction].
  - destruct (status_code r =? 404); cbn;
      eexists _, _; (split; [reflexivity|]); (split; [reflexivity|]);
      (split; [discriminate|]); reflexivity.
Qed.

(** The lookup of the group id is at most the one search request. *)
Lemma resolve_group_id_calls org_name team_slug token gid cache (l : L) w :
  exists r w',
    resolve_group_id env org_name team_slug token gid cache l w = (r, l, w')
    /\ (calls w' = calls w
        \/ calls w' = calls w ++ [group_search env org_name team_slug token]).
Proof.
  unfold resolve_group_id.
  destruct gid as [id|].
  { eexists _, _. split; [reflexivity|]. now left. }
  destruct (PyDict.get _ _) as [g|].
  { eexists _, _. split; [reflexivity|]. now left. }
  unfold bind, make_github_request, extern, log_and_print, group_search.
  cbn.
  match goal with
  | |- context [on_make_github_request env ?h ?m ?u ?d] =>
      destruct (on_make_github_request env h m u d) as [r|e]
  end; cbn.
  2:{ eexists _, _. split; [reflexivity|]. now right. }
  destruct (negb _); cbn.
  { eexists _, _. split; [reflexivity|]. now right. }
  destruct (json_groups r) as [[|g gs]|]; cbn;
    try (eexists _, _; split; [reflexivity|]; now right).
  destruct (String.eqb _ _); cbn.
  { eexists _, _. split; [reflexivity|]. now right. }
  destruct (find _ gs); cbn; eexists _, _; (split; [reflexivity|]);
    now right.
Qed.

(** A group id that is given, or else cached under the lowered slug, is
    used as it is. *)
Lemma resolve_known org_name team_slug token gid cache (l : L) w id :
  match gid with
  | Some given => Some given
  | None => option_map group_id
              (PyDict.get (PyStr.lower team_slug)
                          (match cache with Some c => c | None => [] end))
  end = Some id ->
  exists w',
    resolve_group_id env org_name team_slug token gid cache l w
    = (Val (Some id), l, w')
    /\ calls w' = calls w.
Proof.
  unfold resolve_group_id.
  destruct gid as [given|].
  - intros H. injection H as ->. eexists. split; reflexivity.
  - destruct (PyDict.get _ _) as [g|]; cbn; [|discriminate].
    intros H. injection H as <-. eexists. split; reflexivity.
Qed.

(** The calls of [map_external_group_to_team]: the binding query, then
    possibly the search, then possibly the patch. *)
Lemma map_external_calls org_name team_slug token gid cache (l : L) w :
  exists added,
    calls (snd (map_external_group_to_team env org_name team_slug token gid
                                           cache l w))
    = calls w ++ binding_query env org_name team_slug token :: added
    /\ (added = []
        \/ added = [group_search env org_name team_slug token]
        \/ (exists id,
               added = [binding_patch env org_name team_slug token id])
        \/ (exists id,
               added = [group_search env org_name team_slug token;
                        binding_patch env org_name team_slug token id])).
Proof.
  destruct (check_mapping_total env org_name team_slug token (Some team_slug)
              l w) as ([mapped x] & w1 & Hcheck & Hc1).
  unfold map_external_group_to_team.
  match goal with
  | |- context [try_except ?body ?h] =>
      destruct (body l w) as [[res lb] wb] eqn:Hbody;
      destruct (map_handlers_transparent body l w res lb wb Hbody)
        as (w'' & Hrun & Hcalls & _)
  end.
  rewrite Hrun. cbn [snd]. rewrite Hcalls. clear Hrun Hcalls w''.
  rewrite (bind_val _ _ _ _ _ _ _ Hcheck) in Hbody. cbn [fst] in Hbody.
  destruct mapped.
  { cbn in Hbody. injection Hbody as <- <- <-. exists []. cbn.
    split; [exact Hc1|]. now left. }
  destruct (resolve_group_id_calls org_name team_slug token gid cache l w1)
    as (r & w2 & Hres & Hc2).
  unfold bind at 1 in Hbody. rewrite Hres in Hbody.
  destruct r as [[id|]|e].
  - destruct (patch_binding_calls env org_name team_slug token id l w2)
      as (res' & w3 & Hpatch & Hc3).
    rewrite Hpatch in Hbody. injection Hbody as <- <- <-.
    destruct Hc2 as [Hc2|Hc2]; rewrite Hc3, Hc2, Hc1, <- !app_assoc; cbn.
    + eexists. split; [reflexivity|]. right. right. left. now exists id.
    + eexists. split; [reflexivity|]. right. right. right. now exists id.
  - injection Hbody as <- <- <-.
    destruct Hc2 as [Hc2|Hc2]; rewrite Hc2, Hc1, <- ?app_assoc; cbn.
    + exists []. split; [reflexivity|]. now left.
    + eexists. split; [reflexivity|]. right. now left.
  - injection Hbody as <- <- <-.
    destruct Hc2 as [Hc2|Hc2]; rewrite Hc2, Hc1, <- ?app_assoc; cbn.
    + exists []. split; [reflexivity|]. now left.
    + eexists. split; [reflexivity|]. right. now left.
Qed.

End BinderMore.


(** X16: a group id that is given to [map_external_group_to_team], or else
    found in the cache under the lowered slug, is the one the team is bound
    to, and no search is made: after the binding query the only call is the
    patch with that id.  The given id wins over the cache. *)
Theorem X16_known_group_id_needs_no_search :
  forall (env : Env) (L : Type) org_name team_slug token gid cache
         (l : L) (w : World) x (w1 : World) (id : Z),
    check_team_external_group_mapping env org_name team_slug token
                                      (Some team_slug) l w
    = (Val (false, x), l, w1) ->
    match gid with
    | Some given => Some given
    | None => option_map group_id
                (PyDict.get (PyStr.lower team_slug)
                            (match cache with Some c => c | None => [] end))
    end = Some id ->
    exists res w',
      map_external_group_to_team env org_name team_slug token gid cache l w
      = (res, l, w')
      /\ calls w' = calls w1 ++
                    [binding_patch env org_name team_slug token id].
Proof.
  intros env L org_name team_slug token gid cache l w x w1 id Hcheck Hknown.
  destruct (resolve_known env org_name team_slug token gid cache l w1 id
              Hknown) as (w2 & Hres & Hc2).
  destruct (map_after_resolution env org_name team_slug token gid cache l w
              x w1 id w2 Hcheck Hres)
    as (res & w3 & w' & Hpatch & Hrun & Hcalls & _).
  destruct (patch_binding_calls env org_name team_slug token id l w2)
    as (res' & w3' & Hpatch' & Hc3).
  rewrite Hpatch in Hpatch'. injection Hpatch' as <- <-.
  exists res, w'. split; [exact Hrun|]. now rewrite Hcalls, Hc3, Hc2.
Qed.

Lemma X16_known_group_id_needs_no_search_witness :
  exists res w',
    map_external_group_to_team Scenario.substring_only "acme" "platform-team"
      "t0ken" None
      (Some [("platform-team"%string,
              {| group_id := 11; group_name := "Platform-Team" |})])
      tt empty_world
    = (res, tt, w')
    /\ calls w' =
       calls (called (binding_query Scenario.substring_only "acme"
                                    "platform-team" "t0ken") empty_world)
       ++ [binding_patch Scenario.substring_only "acme" "platform-team"
                         "t0ken" 11].
Proof.
  destruct (X16_known_group_id_needs_no_search
              Scenario.substring_only unit "acme" "platform-team" "t0ken"
              None
              (Some [("platform-team"%string,
                      {| group_id := 11; group_name := "Platform-Team" |})])
              tt empty_world None
              (called (binding_query Scenario.substring_only "acme"
                                     "platform-team" "t0ken")
                      (logged "Team 'platform-team' not found or has no external group mapping" "info"
                         (logged "Checking if team 'platform-team' is already mapped to an external group" "info"
                                 empty_world)))
              11 eq_refl eq_refl) as (res & w' & Hrun & Hcalls).
  exists res, w'. split; [exact Hrun|exact Hcalls].
Defined.

(** X17: whatever the platform answers, [map_external_group_to_team] starts
    with the binding query and makes at most two more requests - the search
    and the patch; it changes the target at most once, and never sends a
    [delete]. *)
Theorem X17_binder_mutates_at_most_once :
  forall (env : Env) (L : Type) org_name team_slug token gid cache
         (l : L) (w : World),
  exists added,
    calls (snd (map_external_group_to_team env org_name team_slug token gid
                                           cache l w))
    = calls w ++ binding_query env org_name team_slug token :: added
    /\ (length added <= 2)%nat
    /\ (count_calls is_mutating added <= 1)%nat
    /\ count_calls (is_request_with "delete") added = 0%nat
    /\ Forall (fun c => is_request c = true) added.
Proof.
  intros env L org_name team_slug token gid cache l w.
  destruct (map_external_calls env org_name team_slug token gid cache l w)
    as (added & Hcalls & Hcases).
  exists added. split; [exact Hcalls|].
  destruct Hcases as [->|[->|[(id & ->)|(id & ->)]]]; cbn;
    repeat split; try lia; repeat constructor.
Qed.

(* ------------------------------------------------------------------ *)
(** ** More on the Batch Scheduler *)

Lemma in_split_first (name : string) (l : list string) :
  In name l ->
  exists done rest, l = done ++ name :: rest /\ ~ In name done.
Proof.
  induction l as [|x l IH]; [intros []|].
  destruct (String.eqb_spec x name) as [->|Hne].
  - intros _. exists [], l. split; [reflexivity|]. intros [].
  - intros [E|Hin]; [contradiction|].
    destruct (IH Hin) as (done & rest & -> & Hfresh).
    exists (x :: done), rest. split; [reflexivity|].
    intros [E|H]; [contradiction|now apply Hfresh].
Qed.

(** X18: while a team list is processed in batches, the teams handed to the
    restart after a rate limit are the current team and all the teams after
    it in the list - in this batch and in the later ones.  When a name
    occurs twice in a batch the restart goes back to its first occurrence. *)
Theorem X18_restart_resumes_at_the_current_team :
  forall (n : nat) (teams : list string) (earlier : list (list string))
         (batch : list string) (later : list (list string)) (name : string),
    (0 < n)%nat ->
    PyList.chunks n teams = earlier ++ batch :: later ->
    In name batch ->
    exists done rest,
      teams = concat earlier ++ done ++ name :: rest
      /\ ~ In name done
      /\ remaining_teams (PyList.chunks n teams) (S (length earlier)) batch
                         name
         = Some (name :: rest).
Proof.
  intros n teams earlier batch later name Hn Hchunks Hin.
  destruct (in_split_first name batch Hin) as (done & tail & -> & Hfresh).
  exists done, (tail ++ concat later).
  split; [|split; [exact Hfresh|]].
  - assert (Hc : concat (PyList.chunks n teams) = teams).
    { unfold PyList.chunks. now apply chunks_fuel_concat. }
    rewrite Hchunks, concat_app in Hc. cbn [concat] in Hc.
    rewrite <- Hc, <- !app_assoc. reflexivity.
  - rewrite Hchunks.
    now apply remaining_teams_from_current.
Qed.

Lemma X18_restart_resumes_at_the_current_team_witness :
  exists done rest,
    ["a"; "b"; "c"; "d"; "e"]%string
    = concat [["a"; "b"]%string] ++ done ++ "d"%string :: rest
    /\ ~ In "d"%string done
    /\ remaining_teams (PyList.chunks 2 ["a"; "b"; "c"; "d"; "e"]%string)
                       (S (length [["a"; "b"]%string]))
                       ["c"; "d"]%string "d"
       = Some ("d"%string :: rest).
Proof.
  apply (X18_restart_resumes_at_the_current_team
           2 ["a"; "b"; "c"; "d"; "e"]%string [["a"; "b"]%string]
           ["c"; "d"]%string [["e"%string]] "d"%string).
  - lia.
  - reflexivity.
  - cbn. auto.
Defined.

(** X19: a team that is not in the source cache under its lowered name -
    because it could not be fetched, for one - is recorded as failed at
    once: no call is made for it, no details are recorded, and the loop goes
    on. *)
Theorem X19_unknown_team_is_failed_without_a_call :
  forall (env : Env) gh_target source_org_obj target_org migrate_users
         map_idp_groups batches batch_num batch total_teams batch_size index
         (name : string) (l : mto_locals) (w : World),
    PyDict.get (PyStr.lower name) (team_cache l) = None ->
    exists w',
      process_team env gh_target source_org_obj target_org migrate_users
                   map_idp_groups batches batch_num batch total_teams
                   batch_size index name l w
      = (Val None, set_status name "failed" l, w')
      /\ calls w' = calls w
      /\ PyDict.get name (migration_status (set_status name "failed" l))
         = Some "failed"%string
      /\ migration_details (set_status name "failed" l)
         = migration_details l.
Proof.
  intros env gh_target source_org_obj target_org migrate_users map_idp_groups
         batches batch_num batch total_teams batch_size index name l w Hmiss.
  unfold process_team, bind, gets, log_and_print, modify. cbn.
  rewrite Hmiss. cbn.
  eexists. split; [reflexivity|]. split; [reflexivity|].
  split; [|reflexivity].
  now rewrite dict_get_set, String.eqb_refl.
Qed.

Lemma X19_unknown_team_is_failed_without_a_call_witness :
  exists w',
    process_team Scenario.quiet gh_target_client
      {| org_client := gh_source_client; org_login := "src" |} "acme"
      true false [["ghost"%string]] 1 ["ghost"%string] 1 100 1 "ghost"
      (mto_init ["ghost"%string]) empty_world
    = (Val None, set_status "ghost" "failed" (mto_init ["ghost"%string]), w')
    /\ calls w' = calls empty_world
    /\ PyDict.get "ghost"
         (migration_status
            (set_status "ghost" "failed" (mto_init ["ghost"%string])))
       = Some "failed"%string
    /\ migration_details
         (set_status "ghost" "failed" (mto_init ["ghost"%string]))
       = migration_details (mto_init ["ghost"%string]).
Proof.
  apply (X19_unknown_team_is_failed_without_a_call
           Scenario.quiet gh_target_client
           {| org_client := gh_source_client; org_login := "src" |} "acme"
           true false [["ghost"%string]] 1%nat ["ghost"%string] 1%nat
           100%nat 1%nat "ghost"%string (mto_init ["ghost"%string])
           empty_world).
  reflexivity.
Defined.

(** X20: with IDP mapping requested, a team whose lowered name is not a key
    of the IDP group cache is skipped before anything is created: its status
    is "skipped", its details carry the mapping status "group_not_found",
    and no call is made for it. *)
Theorem X20_team_without_idp_group_is_skipped :
  forall (env : Env) gh_target source_org_obj target_org migrate_users
         batches batch_num batch total_teams batch_size index
         (name : string) (l : mto_locals) (w : World) (info : team_info_t),
    PyDict.get (PyStr.lower name) (team_cache l) = Some info ->
    PyDict.get (PyStr.lower name) (idp_group_cache l) = None ->
    exists l' w',
      process_team env gh_target source_org_obj target_org migrate_users
                   true batches batch_num batch total_teams batch_size index
                   name l w
      = (Val None, l', w')
      /\ calls w' = calls w
      /\ PyDict.get name (migration_status l') = Some "skipped"%string
      /\ PyDict.get name (migration_details l')
         = Some (set_idp_mapping_status "group_not_found"
                   (fresh_team_details name info))
      /\ target_teams_cache l' = target_teams_cache l.
Proof.
  intros env gh_target source_org_obj target_org migrate_users batches
         batch_num batch total_teams batch_size index name l w info
         Hinfo Hmiss.
  unfold process_team, bind, gets, log_and_print, modify. cbn.
  rewrite Hinfo.
  unfold try_except, bind, migrate_one_team, bind, gets, modify,
    log_and_print, store_team_details, bind, gets, modify. cbn.
  unfold PyDict.mem. rewrite Hmiss. cbn.
  eexists _, _. split; [reflexivity|]. cbn.
  split; [reflexivity|].
  rewrite !dict_get_set, String.eqb_refl. repeat split.
Qed.

Lemma X20_team_without_idp_group_is_skipped_witness :
  exists l' w',
    process_team Scenario.quiet gh_target_client
      {| org_client := gh_source_client; org_login := "src" |} "acme"
      false true [["alpha"%string]] 1 ["alpha"%string] 1 100 1 "alpha"
      (cache_team (Scenario.a_team 1 "alpha") (mto_init ["alpha"%string]))
      empty_world
    = (Val None, l', w')
    /\ calls w' = calls empty_world
    /\ PyDict.get "alpha" (migration_status l') = Some "skipped"%string
    /\ PyDict.get "alpha" (migration_details l')
       = Some (set_idp_mapping_status "group_not_found"
                 (fresh_team_details "alpha"
                    (team_info_of (Scenario.a_team 1 "alpha"))))
    /\ target_teams_cache l'
       = target_teams_cache
           (cache_team (Scenario.a_team 1 "alpha")
                       (mto_init ["alpha"%string])).
Proof.
  apply (X20_team_without_idp_group_is_skipped
           Scenario.quiet gh_target_client
           {| org_client := gh_source_client; org_login := "src" |} "acme"
           false [["alpha"%string]] 1%nat ["alpha"%string] 1%nat 100%nat
           1%nat "alpha"%string
           (cache_team (Scenario.a_team 1 "alpha")
                       (mto_init ["alpha"%string]))
           empty_world (team_info_of (Scenario.a_team 1 "alpha")));
    reflexivity.
Defined.

Section TargetCache.

Variable env : Env.

Lemma dict_set_keeps_key (V : Type) (k k' : string) (v : V)
      (d : PyDict.dict V) :
  PyDict.get k d <> None -> PyDict.get k (PyDict.set k' v d) <> None.
Proof.
  intros H. rewrite dict_get_set.
  destruct (String.eqb k k'); [discriminate|exact H].
Qed.

(** Caching the teams of a listing puts every one of them in the cache,
    under its lowered name and under its lowered slug, and keeps the keys
    the cache had. *)
Lemma cache_target_teams_keys teams l w :
  exists l' w',
    for_each teams
      (fun team =>
         modify (with_target_teams_cache
                   (PyDict.set (PyStr.lower (team_name team)) team)) ;;
         modify (with_target_teams_cache
                   (PyDict.set (PyStr.lower (team_slug team)) team))) l w
    = (Val tt, l', w')
    /\ calls w' = calls w
    /\ (forall k, PyDict.get k (target_teams_cache l) <> None ->
                  PyDict.get k (target_teams_cache l') <> None)
    /\ (forall t, In t teams ->
          PyDict.get (PyStr.lower (team_name t)) (target_teams_cache l')
          <> None
          /\ PyDict.get (PyStr.lower (team_slug t)) (target_teams_cache l')
             <> None)
    /\ (forall k t,
          PyDict.get k (target_teams_cache l') = Some t ->
          PyDict.get k (target_teams_cache l) = Some t \/ In t teams).
Proof.
  revert l w. induction teams as [|team teams IH]; intros l w.
  - exists l, w. repeat split; auto; try now intros t [].
  - cbn [for_each]. unfold bind at 1. unfold bind at 1. cbn [modify].
    destruct (IH (with_target_teams_cache
                    (PyDict.set (PyStr.lower (team_slug team)) team)
                    (with_target_teams_cache
                       (PyDict.set (PyStr.lower (team_name team)) team) l))
                 w) as (l' & w' & Hrun & Hcalls & Hkeep & Hall & Hfrom).
    exists l', w'. split; [exact Hrun|]. split; [exact Hcalls|].
    cbn in Hkeep, Hfrom. split; [|split].
    + intros k Hk. apply Hkeep. now do 2 apply dict_set_keeps_key.
    + intros t [<-|Hin]; [|now apply Hall].
      split; apply Hkeep.
      * apply dict_set_keeps_key. rewrite dict_get_set, String.eqb_refl.
        discriminate.
      * rewrite dict_get_set, String.eqb_refl. discriminate.
    + intros k t Hget. destruct (Hfrom k t Hget) as [H|Hin]; [|now right; right].
      rewrite !dict_get_set in H.
      destruct (String.eqb k (PyStr.lower (team_slug team))).
      { injection H as <-. right. now left. }
      destruct (String.eqb k (PyStr.lower (team_name team))).
      { injection H as <-. right. now left. }
      now left.
Qed.

End TargetCache.



(* ------------------------------------------------------------------ *)
(** ** What a whole run may call *)

Lemma github_eqb_refl (gh : Github) : github_eqb gh gh = true.
Proof. now destruct gh. Qed.

Section RunFootprint.

Variable env : Env.

Lemma get_organization_returns (L : Type) gh org_name :
  returns (@get_organization env L gh org_name)
          (fun org _ _ => org = {| org_client := gh; org_login := org_name |}).
Proof.
  intros l w a l' w' E. unfold get_organization, extern in E.
  destruct (on_get_organization env (calls w) gh org_name); cbn in E;
    [|discriminate].
  now injection E as <- _ _.
Qed.

Lemma create_gh_team_footprint (L : Type) gh org_name name description
      privacy cache :
  only_calls (creator_call gh org_name)
             (@create_gh_team env L gh org_name name description privacy
                              cache).
Proof.
  unfold create_gh_team.
  apply only_calls_try; [|intros e; footprint].
  apply only_calls_bind_post
    with (Q := fun org => org = {| org_client := gh; org_login := org_name |}).
  - unfold get_organization. apply only_calls_extern. cbn.
    now rewrite github_eqb_refl, String.eqb_refl.
  - apply get_organization_returns.
  - intros org ->. cbv zeta.
    destruct (PyDict.get _ _); [footprint|].
    apply only_calls_try; [|intros e; footprint].
    apply only_calls_bind; [|intros; footprint].
    unfold org_create_team. apply only_calls_extern. cbn.
    now rewrite github_eqb_refl, String.eqb_refl.
Qed.

Lemma create_gh_team_finds_a_team (L : Type) gh org_name name description
      privacy cache :
  returns (@create_gh_team env L gh org_name name description privacy cache)
          (fun created _ _ => exists team, fst created = Some team).
Proof.
  intros l w r l' w' E.
  destruct (create_gh_team_returns env L gh org_name name description privacy
              cache l w r l' w' E)
    as [(team & _ & -> & _)|(team & _ & -> & _)];
    now exists team.
Qed.

Lemma get_team_by_name_footprint (L : Type) (p : call -> bool) gh org_name
      name :
  (forall c, orb (is_get_organization c)
                 (match c with org_get_teams_call _ => true | _ => false end)
             = true -> p c = true) ->
  only_calls p (@get_team_by_name env L gh org_name name).
Proof.
  intros Hp. eapply only_calls_weaken; [exact Hp|].
  unfold get_team_by_name, get_organization, org_get_teams. footprint.
Qed.

Lemma set_team_parent_footprint (L : Type) gh org_name team parent :
  only_calls is_team_edit (@set_team_parent env L gh org_name team parent).
Proof. unfold set_team_parent, team_edit. footprint. Qed.

Lemma check_mapping_footprint (L : Type) org_name team_slug token expected :
  only_calls is_request
             (@check_team_external_group_mapping env L org_name team_slug
                                                 token expected).
Proof.
  unfold check_team_external_group_mapping, make_github_request. footprint.
Qed.

Lemma map_external_footprint (L : Type) org_name team_slug token gid cache :
  only_calls is_request
             (@map_external_group_to_team env L org_name team_slug token gid
                                          cache).
Proof.
  unfold map_external_group_to_team.
  apply only_calls_try; [|intros e; footprint].
  apply only_calls_bind; [apply check_mapping_footprint|intros mapping].
  destruct (fst mapping); [footprint|].
  unfold resolve_group_id, patch_binding, make_github_request.
  footprint.
Qed.

Lemma bind_idp_group_footprint gh_target target_org index name target_team :
  only_calls binder_call
             (bind_idp_group env gh_target target_org index name target_team).
Proof.
  unfold bind_idp_group.
  apply only_calls_try; [|intros e; footprint].
  apply only_calls_bind;
    [unfold smart_rate_limit_handler; footprint|intros _].
  apply only_calls_bind.
  { eapply only_calls_weaken; [|apply check_mapping_footprint].
    now intros []. }
  intros mapping. destruct (negb (fst mapping)); [|footprint].
  apply only_calls_bind.
  { unfold team_get_members, smart_rate_limit_handler. footprint. }
  intros members.
  apply only_calls_bind.
  { apply only_calls_when.
    apply only_calls_bind; [footprint|intros _].
    apply only_calls_bind; [|intros; footprint].
    apply only_calls_invoke.
    eapply only_calls_weaken; [|apply remove_users_from_team_footprint].
    intros c. unfold removal_call. now destruct c. }
  intros _.
  apply only_calls_bind; [footprint|intros cache]. cbv zeta.
  apply only_calls_bind; [|intros; footprint].
  eapply only_calls_weaken; [|apply map_external_footprint].
  now intros [].
Qed.

Lemma migrate_one_team_footprint gh_target source_org_obj target_org
      migrate_users map_idp_groups migrate_parent_child index name team_info :
  only_calls (stage_call gh_target target_org migrate_users map_idp_groups
                             migrate_parent_child)
             (migrate_one_team env gh_target source_org_obj target_org
                               migrate_users map_idp_groups index name
                               team_info).
Proof.
  unfold migrate_one_team.
  apply only_calls_bind; [footprint|intros _].
  apply only_calls_bind; [footprint|intros idp_cache]. cbv zeta.
  match goal with
  | |- only_calls _ (if ?c then _ else _) => destruct c
  end.
  { unfold store_team_details. footprint. }
  apply only_calls_bind.
  { unfold org_get_team_by_slug. footprint. }
  intros source_team.
  apply only_calls_bind; [footprint|intros cache].
  apply only_calls_bind_post
    with (Q := fun created : option Team * string =>
                 exists team, fst created = Some team).
  { eapply only_calls_weaken; [|apply create_gh_team_footprint].
    intros c. now destruct c. }
  { apply create_gh_team_finds_a_team. }
  intros [[target_team|] new_or_exist] (team & Hteam); [|discriminate].
  cbn [fst snd].
  apply only_calls_bind; [|intros _; unfold store_team_details; footprint].
  apply only_calls_bind; [footprint|intros _].
  apply only_calls_bind.
  { destruct map_idp_groups; [|cbn; apply only_calls_ret].
    apply only_calls_when.
    eapply only_calls_weaken; [|apply bind_idp_group_footprint].
    intros c. destruct c; cbn; try discriminate; try reflexivity.
    intros _. apply orb_true_r. }
  intros _.
  destruct (andb migrate_users (negb map_idp_groups)) eqn:Hflag; [|footprint].
  apply only_calls_bind;
    [unfold smart_rate_limit_handler; footprint|intros _].
  apply only_calls_bind; [|intros; footprint].
  apply only_calls_invoke.
  eapply only_calls_weaken; [|apply migrate_team_members_footprint].
  intros c. destruct c; cbn; try discriminate; try reflexivity;
    rewrite ?Hflag; try reflexivity.
  apply andb_prop in Hflag. destruct Hflag as [-> _]. reflexivity.
Qed.

Lemma process_team_footprint gh_target source_org_obj target_org migrate_users
      map_idp_groups migrate_parent_child batches batch_num batch total_teams
      batch_size index name :
  only_calls (stage_call gh_target target_org migrate_users map_idp_groups
                             migrate_parent_child)
             (process_team env gh_target source_org_obj target_org
                           migrate_users map_idp_groups batches batch_num
                           batch total_teams batch_size index name).
Proof.
  unfold process_team.
  apply only_calls_bind; [footprint|intros _].
  apply only_calls_bind; [footprint|intros cache].
  destruct (PyDict.get _ _); [|footprint].
  apply only_calls_try.
  - apply only_calls_bind; [apply migrate_one_team_footprint|footprint].
  - intros e. unfold smart_rate_limit_handler, store_team_details. footprint.
Qed.

Lemma link_parent_footprint gh_target target_org child parent :
  only_calls (fun c => orb (is_team_edit c)
                           (orb (is_get_organization c)
                                (match c with
                                 | org_get_teams_call _ => true
                                 | _ => false
                                 end)))
             (link_parent env gh_target target_org child parent).
Proof.
  unfold link_parent.
  apply only_calls_bind; [footprint|intros statuses].
  apply only_calls_when.
  apply only_calls_try; [|intros e; footprint].
  apply only_calls_bind; [footprint|intros cache]. cbv zeta.
  apply only_calls_bind.
  { destruct (PyDict.get _ _); [footprint|].
    apply only_calls_bind; [|intros; footprint].
    apply get_team_by_name_footprint. intros c H.
    now rewrite H, orb_true_r. }
  intros target_team.
  apply only_calls_bind.
  { destruct (PyDict.get _ _); [footprint|].
    apply only_calls_bind; [|intros; footprint].
    apply get_team_by_name_footprint. intros c H.
    now rewrite H, orb_true_r. }
  intros parent_team.
  destruct target_team as [t|]; [|footprint].
  destruct parent_team as [pt|]; [|footprint].
  apply only_calls_bind; [|intros; footprint].
  eapply only_calls_weaken; [|apply set_team_parent_footprint].
  intros c H. now rewrite H.
Qed.

Lemma link_parents_footprint gh_target target_org migrate_users
      map_idp_groups migrate_parent_child :
  only_calls (stage_call gh_target target_org migrate_users map_idp_groups
                             migrate_parent_child)
             (link_parents env gh_target target_org migrate_parent_child).
Proof.
  unfold link_parents.
  apply only_calls_bind; [footprint|intros rels].
  destruct migrate_parent_child; [|cbn; apply only_calls_ret].
  apply only_calls_when.
  apply only_calls_bind; [footprint|intros _]. cbv zeta.
  apply only_calls_for_each. intros nb.
  apply only_calls_bind; [footprint|intros _].
  apply only_calls_bind;
    [|intros _; unfold smart_rate_limit_handler; footprint].
  apply only_calls_for_each. intros cp.
  eapply only_calls_weaken; [|apply link_parent_footprint].
  intros c. now destruct c.
Qed.

Lemma fetch_source_teams_footprint (p : call -> bool) gh_source
      source_org_obj :
  (forall c, orb (is_rate_limit_wait c)
                 (match c with
                  | org_get_teams_call _ | org_get_team_by_slug_call _ _ =>
                      true
                  | _ => false
                  end) = true -> p c = true) ->
  only_calls p (fetch_source_teams env gh_source source_org_obj).
Proof.
  intros Hp. eapply only_calls_weaken; [exact Hp|].
  unfold fetch_source_teams, fetch_named_team, org_get_team_by_slug,
    org_get_teams, smart_rate_limit_handler.
  footprint.
Qed.

Lemma fetch_target_teams_footprint (p : call -> bool) gh_target
      target_org_obj :
  (forall c, orb (is_rate_limit_wait c)
                 (match c with
                  | org_get_teams_call _ => true
                  | _ => false
                  end) = true -> p c = true) ->
  only_calls p (fetch_target_teams env gh_target target_org_obj).
Proof.
  intros Hp. eapply only_calls_weaken; [exact Hp|].
  unfold fetch_target_teams, org_get_teams, smart_rate_limit_handler.
  footprint.
Qed.

Lemma prefetch_idp_groups_footprint target_org map_idp_groups :
  only_calls (fun c => andb map_idp_groups (is_list_groups c))
             (prefetch_idp_groups env target_org map_idp_groups).
Proof.
  unfold prefetch_idp_groups.
  apply only_calls_bind; [footprint|intros _].
  destruct map_idp_groups; [|cbn; apply only_calls_ret].
  unfold get_all_external_groups. footprint.
Qed.

Lemma order_parent_child_footprint (p : call -> bool) migrate_parent_child :
  only_calls p (order_parent_child env migrate_parent_child).
Proof. unfold order_parent_child. footprint. Qed.

Lemma process_batches_footprint gh_target source_org_obj target_org
      migrate_users map_idp_groups migrate_parent_child :
  only_calls (stage_call gh_target target_org migrate_users map_idp_groups
                         migrate_parent_child)
             (process_batches env gh_target source_org_obj target_org
                              migrate_users map_idp_groups).
Proof.
  unfold process_batches.
  apply only_calls_bind; [footprint|intros teams]. cbv zeta.
  apply only_calls_bind; [footprint|intros _].
  apply only_calls_for_each_until. intros nb.
  apply only_calls_bind; [footprint|intros _].
  apply only_calls_bind;
    [|intros; unfold smart_rate_limit_handler; footprint].
  apply only_calls_for_each_until. intros it.
  apply process_team_footprint.
Qed.

(** The stages of an invocation before the summary, under any footprint
    that contains [stage_call]. *)
Lemma stages_footprint (p : call -> bool) gh_target target_org migrate_users
      map_idp_groups migrate_parent_child :
  (forall c, stage_call gh_target target_org migrate_users map_idp_groups
                        migrate_parent_child c = true -> p c = true) ->
  (forall gh org_name, only_calls p (@get_organization env mto_locals gh
                                                       org_name))
  /\ (forall gh org, only_calls p (fetch_source_teams env gh org))
  /\ (forall org, only_calls p (fetch_target_teams env gh_target org))
  /\ only_calls p (prefetch_idp_groups env target_org map_idp_groups)
  /\ only_calls p (order_parent_child env migrate_parent_child)
  /\ (forall org, only_calls p (process_batches env gh_target org target_org
                                                migrate_users map_idp_groups))
  /\ only_calls p (link_parents env gh_target target_org
                                migrate_parent_child).
Proof.
  intros Hp. repeat split; intros.
  - unfold get_organization. apply only_calls_extern. now apply Hp.
  - apply fetch_source_teams_footprint.
    intros c Hc. apply Hp. now destruct c.
  - apply fetch_target_teams_footprint.
    intros c Hc. apply Hp. now destruct c.
  - eapply only_calls_weaken; [|apply prefetch_idp_groups_footprint].
    intros c Hc. apply Hp.
    destruct map_idp_groups; [|discriminate]. now destruct c.
  - apply order_parent_child_footprint.
  - eapply only_calls_weaken; [exact Hp|].
    apply process_batches_footprint.
  - eapply only_calls_weaken; [exact Hp|].
    apply link_parents_footprint.
Qed.

Lemma body_footprint gh_source gh_target source_org target_org output_folder
      migrate_users map_idp_groups migrate_parent_child :
  only_calls (scheduler_call gh_target target_org migrate_users map_idp_groups
                             migrate_parent_child)
             (migrate_teams_optimized_body env gh_source gh_target source_org
                target_org output_folder migrate_users map_idp_groups
                migrate_parent_child).
Proof.
  destruct (stages_footprint
              (scheduler_call gh_target target_org migrate_users
                              map_idp_groups migrate_parent_child)
              gh_target target_org migrate_users map_idp_groups
              migrate_parent_child)
    as (Horg & Hsource & Htarget & Hidp & Horder & Hbatches & Hlinks).
  { intros c Hc. unfold scheduler_call. now rewrite Hc, orb_true_r. }
  unfold migrate_teams_optimized_body.
  do 3 (apply only_calls_bind; [footprint|intros _]).
  apply only_calls_bind; [apply Horg|intros source_org_obj].
  apply only_calls_and_then; [apply Hsource|].
  apply only_calls_bind; [footprint|intros _].
  apply only_calls_bind; [apply Horg|intros target_org_obj].
  apply only_calls_and_then; [apply Htarget|].
  apply only_calls_bind; [exact Hidp|intros _].
  apply only_calls_bind; [exact Horder|intros _].
  apply only_calls_and_then; [apply Hbatches|].
  apply only_calls_bind; [exact Hlinks|intros _].
  unfold write_summary, write_migration_summary. footprint.
Qed.

(** The calls of a whole run, through all its restarts. *)
Lemma run_footprint (fuel : nat) gh_source gh_target source_org target_org
      output_folder teams migrate_users map_idp_groups migrate_parent_child
      w r w' :
  migrate_teams_optimized env fuel gh_source gh_target source_org target_org
    output_folder teams migrate_users map_idp_groups migrate_parent_child w
  = Some (r, w') ->
  exists added,
    calls w' = calls w ++ added
    /\ forallb (scheduler_call gh_target target_org migrate_users
                               map_idp_groups migrate_parent_child) added
       = true.
Proof.
  revert teams w.
  induction fuel as [|fuel IH]; intros teams w Hrun;
    cbn [migrate_teams_optimized] in Hrun; [discriminate|].
  destruct (body_footprint gh_source gh_target source_org target_org
              output_folder migrate_users map_idp_groups migrate_parent_child
              (mto_init teams) w) as (added1 & H1 & Hp1).
  destruct (migrate_teams_optimized_body env gh_source gh_target source_org
              target_org output_folder migrate_users map_idp_groups
              migrate_parent_child (mto_init teams) w)
    as [[res l1] w1].
  cbn [snd] in H1.
  destruct res as [[b|teams1]|e].
  - injection Hrun as <- <-. now exists added1.
  - destruct (IH teams1 w1 Hrun) as (added2 & H2 & Hp2).
    exists (added1 ++ added2). rewrite H2, H1, app_assoc.
    split; [reflexivity|]. now rewrite forallb_app, Hp1, Hp2.
  - injection Hrun as <- <-. now exists added1.
Qed.

(** *** The summary is written once *)

Lemma count_calls_none (p q : call -> bool) (added : list call) :
  (forall c, p c = true -> q c = false) ->
  forallb p added = true -> count_calls q added = 0%nat.
Proof.
  intros Hpq Hp. unfold count_calls.
  induction added as [|c added IH]; [reflexivity|].
  cbn in Hp |- *. apply andb_prop in Hp. destruct Hp as [Hc Hrest].
  rewrite (Hpq c Hc). now apply IH.
Qed.

Lemma writes_one_summary_bind {L A : Type} (m : M L A)
      (f : A -> M L outcome) :
  only_calls (fun c => negb (is_summary c)) m ->
  (forall a, writes_one_summary (f a)) ->
  writes_one_summary (bind m f).
Proof.
  intros Hm Hf l w. unfold bind.
  destruct (Hm l w) as (added1 & H1 & Hp1).
  assert (H0 : count_calls is_summary added1 = 0%nat).
  { apply (count_calls_none (fun c => negb (is_summary c))); [|exact Hp1].
    intros c. now destruct (is_summary c). }
  destruct (m l w) as [[r l1] w1]. cbn [snd] in H1.
  destruct r as [a|e].
  - destruct (Hf a l1 w1) as (added2 & H2 & Hcount).
    exists (added1 ++ added2). rewrite H2, H1, app_assoc.
    split; [reflexivity|].
    rewrite count_calls_app, H0. exact Hcount.
  - exists added1. split; [exact H1|]. cbn. lia.
Qed.

Lemma writes_one_summary_and_then {L : Type} (m : M L (option outcome))
      (k : M L outcome) :
  only_calls (fun c => negb (is_summary c)) m ->
  returns m goes_on_or_restarts ->
  writes_one_summary k ->
  writes_one_summary (and_then m k).
Proof.
  intros Hm Hgo Hk l w. unfold and_then, bind.
  destruct (Hm l w) as (added1 & H1 & Hp1).
  assert (H0 : count_calls is_summary added1 = 0%nat).
  { apply (count_calls_none (fun c => negb (is_summary c))); [|exact Hp1].
    intros c. now destruct (is_summary c). }
  destruct (m l w) as [[r l1] w1] eqn:Em. cbn [snd] in H1.
  destruct r as [[[b|teams]|]|e].
  - destruct (Hgo _ _ _ _ _ Em).
  - exists added1. now split.
  - destruct (Hk l1 w1) as (added2 & H2 & Hcount).
    exists (added1 ++ added2). rewrite H2, H1, app_assoc.
    split; [reflexivity|].
    rewrite count_calls_app, H0. exact Hcount.
  - exists added1. split; [exact H1|]. cbn. lia.
Qed.

Lemma write_summary_once output_folder source_org target_org :
  writes_one_summary (write_summary env output_folder source_org target_org).
Proof.
  intros l w.
  unfold write_summary, bind, gets, write_migration_summary, extern, ret.
  cbn.
  eexists [_]. split; [destruct (on_write_migration_summary _ _); reflexivity|].
  destruct (on_write_migration_summary _ _); cbn; [reflexivity|lia].
Qed.

Lemma body_writes_one_summary gh_source gh_target source_org target_org
      output_folder migrate_users map_idp_groups migrate_parent_child :
  writes_one_summary
    (migrate_teams_optimized_body env gh_source gh_target source_org
       target_org output_folder migrate_users map_idp_groups
       migrate_parent_child).
Proof.
  destruct (stages_footprint (fun c => negb (is_summary c))
              gh_target target_org migrate_users map_idp_groups
              migrate_parent_child)
    as (Horg & Hsource & Htarget & Hidp & Horder & Hbatches & Hlinks).
  { intros c Hc. now destruct c. }
  unfold migrate_teams_optimized_body.
  do 3 (apply writes_one_summary_bind; [footprint|intros _]).
  apply writes_one_summary_bind; [apply Horg|intros source_org_obj].
  apply writes_one_summary_and_then;
    [apply Hsource|apply fetch_source_teams_goes_on|].
  apply writes_one_summary_bind; [footprint|intros _].
  apply writes_one_summary_bind; [apply Horg|intros target_org_obj].
  apply writes_one_summary_and_then;
    [apply Htarget|apply fetch_target_teams_goes_on|].
  apply writes_one_summary_bind; [exact Hidp|intros _].
  apply writes_one_summary_bind; [exact Horder|intros _].
  apply writes_one_summary_and_then;
    [apply Hbatches|apply process_batches_goes_on|].
  apply writes_one_summary_bind; [exact Hlinks|intros _].
  apply write_summary_once.
Qed.

End RunFootprint.

Lemma github_eqb_eq (a b : Github) : github_eqb a b = true -> a = b.
Proof. now destruct a, b. Qed.

Lemma all_succeeded_no_failure (statuses : PyDict.dict string) :
  all_succeeded statuses = true <-> failed_of statuses = [].
Proof.
  unfold all_succeeded, failed_of, PyDict.values, PyDict.items.
  induction statuses as [|[team status] statuses IH]; [now split|].
  cbn [map filter forallb snd].
  destruct (PyStr.mem status success_states); cbn [negb andb map].
  - exact IH.
  - split; discriminate.
Qed.

Lemma summary_lists_cover (statuses : PyDict.dict string) :
  (length (successful_of statuses) + length (failed_of statuses))%nat
  = length statuses.
Proof.
  unfold successful_of, failed_of, PyDict.items.
  induction statuses as [|[team status] statuses IH]; [reflexivity|].
  cbn [filter snd].
  destruct (PyStr.mem status success_states); cbn [negb map length] in *; lia.
Qed.

(** X22: unless users are to be migrated and IDP mapping is off, a run of
    [migrate_teams_optimized] leaves the members alone: through all its
    restarts it adds no one to a team, looks up no role, validates no user
    and lists the members of no organisation. *)
Theorem X22_members_are_synchronised_only_on_request :
  forall (env : Env) (fuel : nat) gh_source gh_target source_org target_org
         output_folder teams migrate_users map_idp_groups migrate_parent_child
         (w : World) (r : result bool) (w' : World),
    migrate_teams_optimized env fuel gh_source gh_target source_org target_org
      output_folder teams migrate_users map_idp_groups migrate_parent_child w
    = Some (r, w') ->
    andb migrate_users (negb map_idp_groups) = false ->
    exists added,
      calls w' = calls w ++ added
      /\ forall c, In c added ->
           is_add_membership c = false
           /\ is_get_team_membership c = false
           /\ is_get_user c = false
           /\ is_org_get_members c = false.
Proof.
  intros env fuel gh_source gh_target source_org target_org output_folder
         teams migrate_users map_idp_groups migrate_parent_child w r w'
         Hrun Hflag.
  destruct (run_footprint env fuel gh_source gh_target source_org target_org
              output_folder teams migrate_users map_idp_groups
              migrate_parent_child w r w' Hrun) as (added & Hcalls & Hp).
  exists added. split; [exact Hcalls|].
  rewrite forallb_forall in Hp. intros c Hin. specialize (Hp c Hin).
  unfold scheduler_call in Hp.
  destruct c; cbn in Hp; rewrite ?Hflag in Hp; try discriminate;
    repeat split.
Qed.

Lemma X22_members_are_synchronised_only_on_request_witness :
  exists r w',
    migrate_teams_optimized Scenario.quiet 1 gh_source_client gh_target_client
      "src" "tgt" "out" ["alpha"%string; "beta"%string] false false true
      empty_world
    = Some (r, w')
    /\ exists added,
      calls w' = calls empty_world ++ added
      /\ forall c, In c added ->
           is_add_membership c = false
           /\ is_get_team_membership c = false
           /\ is_get_user c = false
           /\ is_org_get_members c = false.
Proof.
  eexists _, _. split.
  - vm_compute. reflexivity.
  - eapply (X22_members_are_synchronised_only_on_request
             Scenario.quiet 1 gh_source_client gh_target_client "src" "tgt"
             "out" ["alpha"%string; "beta"%string] false false true
             empty_world).
    + vm_compute. reflexivity.
    + reflexivity.
Defined.

(** X23: without IDP mapping a run of [migrate_teams_optimized] sends no
    HTTP request at all - so it removes no member from a team and patches
    no binding - lists no IDP groups and never pauses between removals. *)
Theorem X23_no_request_without_idp_mapping :
  forall (env : Env) (fuel : nat) gh_source gh_target source_org target_org
         output_folder teams migrate_users migrate_parent_child
         (w : World) (r : result bool) (w' : World),
    migrate_teams_optimized env fuel gh_source gh_target source_org target_org
      output_folder teams migrate_users false migrate_parent_child w
    = Some (r, w') ->
    exists added,
      calls w' = calls w ++ added
      /\ forall c, In c added ->
           is_request c = false
           /\ is_list_groups c = false
           /\ is_sleep c = false.
Proof.
  intros env fuel gh_source gh_target source_org target_org output_folder
         teams migrate_users migrate_parent_child w r w' Hrun.
  destruct (run_footprint env fuel gh_source gh_target source_org target_org
              output_folder teams migrate_users false migrate_parent_child
              w r w' Hrun) as (added & Hcalls & Hp).
  exists added. split; [exact Hcalls|].
  rewrite forallb_forall in Hp. intros c Hin. specialize (Hp c Hin).
  unfold scheduler_call in Hp.
  destruct c; cbn in Hp; try discriminate; repeat split.
Qed.

Lemma X23_no_request_without_idp_mapping_witness :
  exists r w',
    migrate_teams_optimized Scenario.quiet 1 gh_source_client gh_target_client
      "src" "tgt" "out" ["alpha"%string] true false false empty_world
    = Some (r, w')
    /\ exists added,
      calls w' = calls empty_world ++ added
      /\ forall c, In c added ->
           is_request c = false
           /\ is_list_groups c = false
           /\ is_sleep c = false.
Proof.
  eexists _, _. split.
  - vm_compute. reflexivity.
  - eapply (X23_no_request_without_idp_mapping
             Scenario.quiet 1 gh_source_client gh_target_client "src" "tgt"
             "out" ["alpha"%string] true false empty_world).
    vm_compute. reflexivity.
Defined.

(** X24: without [migrate_parent_child] a run of [migrate_teams_optimized]
    edits no team: no parent is ever set. *)
Theorem X24_no_parent_is_set_unless_asked :
  forall (env : Env) (fuel : nat) gh_source gh_target source_org target_org
         output_folder teams migrate_users map_idp_groups
         (w : World) (r : result bool) (w' : World),
    migrate_teams_optimized env fuel gh_source gh_target source_org target_org
      output_folder teams migrate_users map_idp_groups false w
    = Some (r, w') ->
    exists added,
      calls w' = calls w ++ added
      /\ forall c, In c added -> is_team_edit c = false.
Proof.
  intros env fuel gh_source gh_target source_org target_org output_folder
         teams migrate_users map_idp_groups w r w' Hrun.
  destruct (run_footprint env fuel gh_source gh_target source_org target_org
              output_folder teams migrate_users map_idp_groups false
              w r w' Hrun) as (added & Hcalls & Hp).
  exists added. split; [exact Hcalls|].
  rewrite forallb_forall in Hp. intros c Hin. specialize (Hp c Hin).
  unfold scheduler_call in Hp.
  destruct c; cbn in Hp; try discriminate; reflexivity.
Qed.

Lemma X24_no_parent_is_set_unless_asked_witness :
  exists r w',
    migrate_teams_optimized Scenario.quiet 1 gh_source_client gh_target_client
      "src" "tgt" "out" ["alpha"%string] true true false empty_world
    = Some (r, w')
    /\ exists added,
      calls w' = calls empty_world ++ added
      /\ forall c, In c added -> is_team_edit c = false.
Proof.
  eexists _, _. split.
  - vm_compute. reflexivity.
  - eapply (X24_no_parent_is_set_unless_asked
             Scenario.quiet 1 gh_source_client gh_target_client "src" "tgt"
             "out" ["alpha"%string] true true empty_world).
    vm_compute. reflexivity.
Defined.

(** X25: a run of [migrate_teams_optimized] creates teams in one place only:
    every team creation, through all restarts, is made with the target
    client in the target organisation - never in the source. *)
Theorem X25_teams_are_created_in_the_target_only :
  forall (env : Env) (fuel : nat) gh_source gh_target source_org target_org
         output_folder teams migrate_users map_idp_groups migrate_parent_child
         (w : World) (r : result bool) (w' : World),
    migrate_teams_optimized env fuel gh_source gh_target source_org target_org
      output_folder teams migrate_users map_idp_groups migrate_parent_child w
    = Some (r, w') ->
    exists added,
      calls w' = calls w ++ added
      /\ forall c, In c added -> is_create_team c = true ->
           exists name description privacy notification_setting,
             c = org_create_team_call
                   {| org_client := gh_target; org_login := target_org |}
                   name description privacy notification_setting.
Proof.
  intros env fuel gh_source gh_target source_org target_org output_folder
         teams migrate_users map_idp_groups migrate_parent_child w r w' Hrun.
  destruct (run_footprint env fuel gh_source gh_target source_org target_org
              output_folder teams migrate_users map_idp_groups
              migrate_parent_child w r w' Hrun) as (added & Hcalls & Hp).
  exists added. split; [exact Hcalls|].
  rewrite forallb_forall in Hp. intros c Hin Hcreate. specialize (Hp c Hin).
  unfold scheduler_call in Hp.
  destruct c; try discriminate. cbn in Hp.
  apply andb_prop in Hp. destruct Hp as [Hgh Hlogin].
  apply github_eqb_eq in Hgh. apply String.eqb_eq in Hlogin.
  destruct org as [client login_]. cbn in Hgh, Hlogin. subst.
  now eexists _, _, _, _.
Qed.

Lemma X25_teams_are_created_in_the_target_only_witness :
  exists r w',
    migrate_teams_optimized Scenario.quiet 1 gh_source_client gh_target_client
      "src" "tgt" "out" ["alpha"%string; "beta"%string] false false false
      empty_world
    = Some (r, w')
    /\ exists added,
      calls w' = calls empty_world ++ added
      /\ forall c, In c added -> is_create_team c = true ->
           exists name description privacy notification_setting,
             c = org_create_team_call
                   {| org_client := gh_target_client; org_login := "tgt" |}
                   name description privacy notification_setting.
Proof.
  eexists _, _. split.
  - vm_compute. reflexivity.
  - eapply (X25_teams_are_created_in_the_target_only
             Scenario.quiet 1 gh_source_client gh_target_client "src" "tgt"
             "out" ["alpha"%string; "beta"%string] false false false
             empty_world).
    vm_compute. reflexivity.
Defined.

(** X26: a run of [migrate_teams_optimized] that returns a value has written
    the migration summary exactly once, whatever the number of restarts on
    the way: an invocation that ends in a restart writes none.  A run that
    ends with an error has written at most one. *)
Theorem X26_the_summary_is_written_once :
  forall (env : Env) (fuel : nat) gh_source gh_target source_org target_org
         output_folder teams migrate_users map_idp_groups migrate_parent_child
         (w : World) (r : result bool) (w' : World),
    migrate_teams_optimized env fuel gh_source gh_target source_org target_org
      output_folder teams migrate_users map_idp_groups migrate_parent_child w
    = Some (r, w') ->
    exists added,
      calls w' = calls w ++ added
      /\ match r with
         | Val _ => count_calls is_summary added = 1%nat
         | Exc _ => (count_calls is_summary added <= 1)%nat
         end.
Proof.
  intros env fuel gh_source gh_target source_org target_org output_folder
         teams migrate_users map_idp_groups migrate_parent_child.
  revert teams.
  induction fuel as [|fuel IH]; intros teams w r w' Hrun;
    cbn [migrate_teams_optimized] in Hrun; [discriminate|].
  destruct (body_writes_one_summary env gh_source gh_target source_org
              target_org output_folder migrate_users map_idp_groups
              migrate_parent_child (mto_init teams) w)
    as (added1 & H1 & Hcount).
  destruct (migrate_teams_optimized_body env gh_source gh_target source_org
              target_org output_folder migrate_users map_idp_groups
              migrate_parent_child (mto_init teams) w)
    as [[res l1] w1].
  cbn [fst snd] in H1, Hcount.
  destruct res as [[b|teams1]|e].
  - injection Hrun as <- <-. now exists added1.
  - destruct (IH teams1 w1 r w' Hrun) as (added2 & H2 & Hcount2).
    exists (added1 ++ added2). rewrite H2, H1, app_assoc.
    split; [reflexivity|].
    rewrite count_calls_app, Hcount. exact Hcount2.
  - injection Hrun as <- <-. now exists added1.
Qed.

Lemma X26_the_summary_is_written_once_witness :
  exists w',
    migrate_teams_optimized Scenario.interrupted 2 gh_source_client
      gh_target_client "src" "tgt" "out" ["alpha"%string; "beta"%string]
      false false false empty_world
    = Some (Val true, w')
    /\ exists added,
      calls w' = calls empty_world ++ added
      /\ count_calls is_summary added = 1%nat.
Proof.
  eexists. split.
  - vm_compute. reflexivity.
  - apply (X26_the_summary_is_written_once
             Scenario.interrupted 2 gh_source_client gh_target_client "src"
             "tgt" "out" ["alpha"%string; "beta"%string] false false false
             empty_world (Val true)).
    vm_compute. reflexivity.
Defined.



(* ------------------------------------------------------------------ *)
(** ** [check_external_idp_group_exists] *)

Section IdpGroupCheckProofs.

Variable env : Env.
Variable clock : Clock.

Lemma backoff_at_least_one (retry_count : nat) :
  (1 <= retry_count)%nat -> 1 <= backoff retry_count.
Proof.
  intros H. unfold backoff, retry_delay.
  assert (0 < 2 ^ (Z.of_nat retry_count - 1)) by (apply Z.pow_pos_nonneg; lia).
  lia.
Qed.

(** The time to wait after a rate-limit answer is at least a second, when
    it can be computed at all. *)
Lemma rate_limit_wait_cases response retry_count l w :
  (1 <= retry_count)%nat ->
  (exists seconds,
      rate_limit_wait clock response retry_count l w = (Val seconds, l, w)
      /\ 1 <= seconds)
  \/ (exists e,
         rate_limit_wait clock response retry_count l w = (Exc e, l, w)
         /\ is_RequestException e = false).
Proof.
  intros Hrc. unfold rate_limit_wait.
  destruct (header_reset clock response) as [[ts|]|].
  - left. eexists. split; [reflexivity|]. lia.
  - right. eexists. split; reflexivity.
  - left. unfold bind, current. cbn.
    destruct (text_reset clock (calls w) response) as [[seconds|]|];
      eexists; (split; [reflexivity|]);
      try lia; now apply backoff_at_least_one.
Qed.

(** One iteration makes the one request.  It returns [True] only on an
    answer with a matching group, and it goes round again only after a
    pause of at least a second, with one more retry counted and no more
    than [max_retries] of them. *)
Lemma idp_check_attempt_cases org_name search_name url token retry_count w :
  exists r retry_count' w',
    idp_check_attempt env clock org_name search_name url token retry_count w
    = (Val r, retry_count', w')
    /\ match r with
       | Return b =>
           calls w' = calls w ++ [make_github_request_call "get" url token
                                                           None]
           /\ (b = true ->
               exists response,
                 on_make_github_request env (calls w) "get" url None
                 = Val response
                 /\ group_found search_name response)
       | Continue =>
           retry_count' = S retry_count
           /\ (retry_count' <= max_retries)%nat
           /\ exists seconds,
               1 <= seconds
               /\ calls w' = calls w ++
                    [make_github_request_call "get" url token None;
                     time_sleep_call seconds]
       end.
Proof.
  unfold idp_check_attempt, try_except.
  unfold bind at 1. cbn [log_and_print].
  unfold bind at 1, make_github_request, extern. cbn [calls logs].
  destruct (on_make_github_request env (calls w) "get" url None)
    as [response|e] eqn:Hanswer.
  - destruct (orb (status_code response =? 200) (status_code response =? 201))
      eqn:Hok.
    { cbv zeta.
      destruct (filter _ _) as [|group others] eqn:Hmatching.
      - eexists _, _, _. split; [reflexivity|]. cbn.
        split; [reflexivity|discriminate].
      - eexists _, _, _. split; [reflexivity|]. cbn.
        split; [reflexivity|]. intros _.
        exists response. split; [reflexivity|]. split.
        + apply orb_prop in Hok. destruct Hok as [H|H]; [left|right]; lia.
        + exists group.
          apply (filter_In (fun g => is_expected_group (group_name g)
                                                       search_name)).
          rewrite Hmatching. now left. }
    destruct (andb (status_code response =? 403) _) eqn:Hlimit.
    2:{ eexists _, _, _. split; [reflexivity|]. cbn.
        split; [reflexivity|discriminate]. }
    unfold bind at 1. cbn [modify].
    unfold bind at 1. cbn [get_locals].
    unfold bind at 1.
    match goal with
    | |- context [rate_limit_wait clock response ?rc ?l0 ?w0] =>
        destruct (rate_limit_wait_cases response rc l0 w0)
          as [(seconds & -> & Hpos)|(e & -> & He)]; [lia| |]
    end.
    + destruct (S retry_count <=? max_retries)%nat eqn:Hretry.
      * eexists _, _, _. split; [reflexivity|]. cbn.
        split; [reflexivity|]. split; [now apply Nat.leb_le|].
        exists seconds. split; [exact Hpos|].
        now rewrite <- app_assoc.
      * eexists _, _, _. split; [reflexivity|]. cbn.
        split; [reflexivity|discriminate].
    + unfold bind at 1. cbn [log_and_print].
      unfold bind at 1. cbn [get_locals]. rewrite He. cbn [andb].
      eexists _, _, _. split; [reflexivity|]. cbn.
      split; [reflexivity|discriminate].
  - unfold bind at 1. cbn [log_and_print].
    unfold bind at 1. cbn [get_locals].
    destruct (andb (is_RequestException e) (retry_count <? max_retries)%nat)
      eqn:Hretry.
    + eexists _, _, _. split; [reflexivity|]. cbn.
      apply andb_prop in Hretry. destruct Hretry as [_ Hlt].
      apply Nat.ltb_lt in Hlt.
      split; [reflexivity|]. split; [exact Hlt|].
      exists (backoff (S retry_count)).
      split; [apply backoff_at_least_one; lia|].
      now rewrite <- app_assoc.
    + eexists _, _, _. split; [reflexivity|]. cbn.
      split; [reflexivity|discriminate].
Qed.

Lemma idp_check_loop_bounded org_name search_name url token :
  forall (fuel retry_count : nat) (w : World),
    (1 <= fuel)%nat ->
    (max_retries + 1 - retry_count <= fuel)%nat ->
    exists b retry_count' w' added,
      idp_check_loop env clock fuel org_name search_name url token
                     retry_count w
      = (Val (Some b), retry_count', w')
      /\ calls w' = calls w ++ added
      /\ (count_calls is_request added <= max_retries + 1 - retry_count)%nat
      /\ (count_calls is_sleep added <= max_retries - retry_count)%nat
      /\ forallb (idp_check_call url token) added = true
      /\ (b = true ->
          exists before response,
            calls w' = before ++ [make_github_request_call "get" url token
                                                           None]
            /\ on_make_github_request env before "get" url None
               = Val response
            /\ group_found search_name response).
Proof.
  induction fuel as [|fuel IH]; intros retry_count w Hfuel Henough; [lia|].
  cbn [idp_check_loop]. unfold bind at 1. cbn [get_locals].
  destruct (retry_count <=? max_retries)%nat eqn:Hcond.
  2:{ exists false, retry_count, w, []. rewrite app_nil_r.
      split; [reflexivity|]. split; [reflexivity|].
      split; [cbn; lia|]. split; [cbn; lia|].
      split; [reflexivity|discriminate]. }
  apply Nat.leb_le in Hcond.
  destruct (idp_check_attempt_cases org_name search_name url token
              retry_count w) as (r & rc1 & w1 & Hattempt & Hcases).
  rewrite (bind_val _ _ _ _ _ _ _ Hattempt).
  destruct r as [b|].
  - destruct Hcases as (Hcalls & Hfound).
    exists b, rc1, w1, [make_github_request_call "get" url token None].
    split; [reflexivity|]. split; [exact Hcalls|].
    change (count_calls is_request
              [make_github_request_call "get" url token None]) with 1%nat.
    change (count_calls is_sleep
              [make_github_request_call "get" url token None]) with 0%nat.
    unfold max_retries in *.
    split; [lia|]. split; [lia|].
    split; [cbn; now rewrite !String.eqb_refl|].
    intros Hb. destruct (Hfound Hb) as (response & Hanswer & Hgroup).
    exists (calls w), response.
    split; [exact Hcalls|]. split; [exact Hanswer|exact Hgroup].
  - destruct Hcases as (-> & Hle & seconds & Hpos & Hcalls).
    unfold max_retries in *.
    destruct (IH (S retry_count) w1) as (b & rc2 & w2 & added & Hrun & Hc2
                                        & Hreq & Hsleep & Hp & Hfound);
      [lia|lia|].
    exists b, rc2, w2,
      ([make_github_request_call "get" url token None;
        time_sleep_call seconds] ++ added).
    split; [exact Hrun|].
    split; [now rewrite Hc2, Hcalls, <- app_assoc|].
    rewrite !count_calls_app.
    change (count_calls is_request
              [make_github_request_call "get" url token None;
               time_sleep_call seconds]) with 1%nat.
    change (count_calls is_sleep
              [make_github_request_call "get" url token None;
               time_sleep_call seconds]) with 1%nat.
    split; [lia|]. split; [lia|].
    split.
    { rewrite forallb_app, Hp. cbn. rewrite !String.eqb_refl. cbn.
      replace (1 <=? seconds) with true by (symmetry; lia). reflexivity. }
    exact Hfound.
Qed.

End IdpGroupCheckProofs.



(* ------------------------------------------------------------------ *)
(** ** The status map *)

Lemma dict_set_keys (V : Type) (k : string) (v : V) (d : PyDict.dict V) x :
  In x (PyDict.keys (PyDict.set k v d)) -> x = k \/ In x (PyDict.keys d).
Proof.
  induction d as [|[k0 v0] d IH]; cbn.
  - intros [<-|[]]. now left.
  - destruct (String.eqb k k0); cbn.
    + intros [<-|H]; right; [now left|now right].
    + intros [<-|H]; [right; now left|].
      destruct (IH H) as [->|Hin]; [now left|right; now right].
Qed.

Lemma dict_set_keys_nodup (V : Type) (k : string) (v : V)
      (d : PyDict.dict V) :
  NoDup (PyDict.keys d) -> NoDup (PyDict.keys (PyDict.set k v d)).
Proof.
  induction d as [|[k0 v0] d IH]; cbn.
  - intros _. constructor; [intros []|constructor].
  - intros Hd. inversion Hd as [|? ? Hfresh Hrest]; subst.
    destruct (String.eqb_spec k k0) as [->|Hne]; cbn.
    + now constructor.
    + constructor; [|now apply IH].
      intros Hin. destruct (dict_set_keys V k v d k0 Hin) as [->|H];
        [now apply Hne|now apply Hfresh].
Qed.

Lemma dict_set_Forall (V : Type) (P : V -> Prop) (k : string) (v : V)
      (d : PyDict.dict V) :
  P v -> Forall (fun kv => P (snd kv)) d ->
  Forall (fun kv => P (snd kv)) (PyDict.set k v d).
Proof.
  intros Hv. induction d as [|[k0 v0] d IH]; cbn; intros Hd.
  - now constructor.
  - inversion Hd as [|? ? H0 Hrest]; subst.
    destruct (String.eqb k k0); constructor; auto.
Qed.

Lemma dict_get_In (V : Type) (k : string) (v : V) (d : PyDict.dict V) :
  PyDict.get k d = Some v -> In (k, v) d.
Proof.
  induction d as [|[k0 v0] d IH]; cbn; [discriminate|].
  destruct (String.eqb_spec k k0) as [->|Hne].
  - intros H. injection H as ->. now left.
  - intros H. right. now apply IH.
Qed.

Lemma sound_set_status name status l :
  In status recorded_states ->
  sound_statuses l -> sound_statuses (set_status name status l).
Proof.
  intros Hs [Hkeys Hall]. split; cbn.
  - now apply dict_set_keys_nodup.
  - now apply (dict_set_Forall string (fun s => In s recorded_states)).
Qed.

Lemma has_status_set name n status l :
  has_status n l -> has_status n (set_status name status l).
Proof. unfold has_status. cbn. apply dict_set_keeps_key. Qed.

Lemma has_status_set_same name status l :
  has_status name (set_status name status l).
Proof.
  unfold has_status. cbn. rewrite dict_get_set, String.eqb_refl. discriminate.
Qed.

Lemma processed_weaken teams names name l :
  processed teams (names ++ [name]) l -> processed teams names l.
Proof.
  intros [HT H]. split; [exact HT|].
  intros n Hn. apply H, in_or_app. now left.
Qed.

Lemma processed_set_status teams names name status l :
  processed teams names l ->
  processed teams (names ++ [name]) (set_status name status l).
Proof.
  intros [HT H]. split; [exact HT|].
  intros n Hn. apply in_app_or in Hn. destruct Hn as [Hn|[<-|[]]].
  - apply has_status_set. now apply H.
  - apply has_status_set_same.
Qed.

Lemma processed_keep_status teams names name status l :
  processed teams names l -> processed teams names (set_status name status l).
Proof.
  intros [HT H]. split; [exact HT|].
  intros n Hn. apply has_status_set. now apply H.
Qed.

(** An update of the locals that leaves the status map sound: it does not
    touch the map, or empties it, or records one of the four statuses. *)
Ltac status_update :=
  first
    [ now (intros ? ?; assumption)
    | now (intros ? _; split; constructor)
    | intros ? ?; apply sound_set_status; [|assumption];
      repeat match goal with
             | |- context [if ?c then _ else _] => destruct c
             end;
      cbn; tauto ].

(** An update that leaves the teams processed so far processed. *)
Ltac processed_update :=
  first
    [ now (intros ? ?; assumption)
    | now (intros ? ?; apply processed_keep_status) ].

Section StatusMap.

Variable env : Env.

Lemma bind_idp_group_keeps (I : mto_locals -> Prop) gh_target target_org index
      name target_team :
  (forall f l, I l -> I (with_team_details f l)) ->
  keeps I (bind_idp_group env gh_target target_org index name target_team).
Proof.
  intros Hdetails. unfold bind_idp_group.
  apply keeps_try;
    [|intros e; keeps_with ltac:(intros ? ?; now apply Hdetails)].
  apply keeps_bind; [unfold_calls; keeps_with fail|intros _].
  apply keeps_bind; [apply check_mapping_keeps|intros mapping].
  destruct (negb (fst mapping));
    [|keeps_with ltac:(intros ? ?; now apply Hdetails)].
  apply keeps_bind; [unfold_calls; keeps_with fail|intros members].
  apply keeps_bind; [keeps_with fail|intros _].
  apply keeps_bind; [keeps_with fail|intros cache]. cbv zeta.
  apply keeps_bind; [apply map_external_keeps|intros mapped].
  keeps_with ltac:(intros ? ?; now apply Hdetails).
Qed.

Lemma migrate_one_team_sound gh_target source_org_obj target_org
      migrate_users map_idp_groups index name team_info :
  keeps sound_statuses
        (migrate_one_team env gh_target source_org_obj target_org
                          migrate_users map_idp_groups index name team_info).
Proof.
  unfold migrate_one_team.
  apply keeps_bind; [keeps_with status_update|intros _].
  apply keeps_bind; [keeps_with status_update|intros idp_cache]. cbv zeta.
  match goal with
  | |- keeps _ (if ?c then _ else _) => destruct c
  end.
  { unfold store_team_details. keeps_with status_update. }
  apply keeps_bind; [unfold_calls; keeps_with status_update|].
  intros source_team.
  apply keeps_bind; [keeps_with status_update|intros cache].
  apply keeps_bind_post
    with (V := fun created : option Team * string =>
                 exists team, fst created = Some team).
  { apply create_gh_team_keeps. }
  { apply create_gh_team_finds_a_team. }
  intros [[target_team|] new_or_exist] (team & Hteam); [|discriminate].
  cbn [fst snd].
  apply keeps_bind;
    [|intros _; unfold store_team_details; keeps_with status_update].
  apply keeps_bind; [keeps_with status_update|intros _].
  apply keeps_bind.
  { apply keeps_when. apply bind_idp_group_keeps. now intros f l H. }
  intros _. unfold_calls. keeps_with status_update.
Qed.

Lemma process_team_sound gh_target source_org_obj target_org migrate_users
      map_idp_groups batches batch_num batch total_teams batch_size index
      name :
  keeps sound_statuses
        (process_team env gh_target source_org_obj target_org migrate_users
                      map_idp_groups batches batch_num batch total_teams
                      batch_size index name).
Proof.
  unfold process_team.
  apply keeps_bind; [keeps_with status_update|intros _].
  apply keeps_bind; [keeps_with status_update|intros cache].
  destruct (PyDict.get _ _); [|keeps_with status_update].
  apply keeps_try.
  - apply keeps_bind;
      [apply migrate_one_team_sound|intros; keeps_with status_update].
  - intros e. unfold store_team_details. unfold_calls.
    keeps_with status_update.
Qed.

Lemma link_parent_keeps (I : mto_locals -> Prop) gh_target target_org child
      parent :
  (forall f l, I l -> I (with_target_teams_cache f l)) ->
  keeps I (link_parent env gh_target target_org child parent).
Proof.
  intros Hcache. unfold link_parent.
  apply keeps_bind; [keeps_with fail|intros statuses].
  apply keeps_when.
  apply keeps_try; [|intros e; keeps_with fail].
  apply keeps_bind; [keeps_with fail|intros cache]. cbv zeta.
  apply keeps_bind.
  { destruct (PyDict.get _ _); [keeps_with fail|].
    apply keeps_bind; [apply get_team_by_name_keeps|intros t].
    keeps_with ltac:(intros ? ?; now apply Hcache). }
  intros target_team.
  apply keeps_bind.
  { destruct (PyDict.get _ _); [keeps_with fail|].
    apply keeps_bind; [apply get_team_by_name_keeps|intros t].
    keeps_with ltac:(intros ? ?; now apply Hcache). }
  intros parent_team.
  destruct target_team as [t|]; [|keeps_with fail].
  destruct parent_team as [pt|]; [|keeps_with fail].
  apply keeps_bind; [apply set_team_parent_keeps|intros; keeps_with fail].
Qed.

Lemma link_parents_keeps (I : mto_locals -> Prop) gh_target target_org
      migrate_parent_child :
  (forall f l, I l -> I (with_target_teams_cache f l)) ->
  keeps I (link_parents env gh_target target_org migrate_parent_child).
Proof.
  intros Hcache. unfold link_parents.
  apply keeps_bind; [keeps_with fail|intros rels].
  apply keeps_when.
  apply keeps_bind; [keeps_with fail|intros _]. cbv zeta.
  apply keeps_for_each. intros nb.
  apply keeps_bind; [keeps_with fail|intros _].
  apply keeps_bind; [|intros _; unfold_calls; keeps_with fail].
  apply keeps_for_each. intros cp.
  now apply link_parent_keeps.
Qed.

Lemma body_sound gh_source gh_target source_org target_org output_folder
      migrate_users map_idp_groups migrate_parent_child :
  keeps sound_statuses
        (migrate_teams_optimized_body env gh_source gh_target source_org
           target_org output_folder migrate_users map_idp_groups
           migrate_parent_child).
Proof.
  unfold migrate_teams_optimized_body.
  do 3 (apply keeps_bind; [keeps_with status_update|intros _]).
  apply keeps_bind; [unfold_calls; keeps_with fail|intros source_org_obj].
  apply keeps_and_then.
  { unfold fetch_source_teams, fetch_named_team, cache_team. unfold_calls.
    keeps_with status_update. }
  apply keeps_bind; [keeps_with fail|intros _].
  apply keeps_bind; [unfold_calls; keeps_with fail|intros target_org_obj].
  apply keeps_and_then.
  { unfold fetch_target_teams. unfold_calls. keeps_with status_update. }
  apply keeps_bind.
  { unfold prefetch_idp_groups. unfold_calls. keeps_with status_update. }
  intros _.
  apply keeps_bind.
  { unfold order_parent_child. keeps_with status_update. }
  intros _.
  apply keeps_and_then.
  { unfold process_batches.
    apply keeps_bind; [keeps_with fail|intros teams]. cbv zeta.
    apply keeps_bind; [keeps_with fail|intros _].
    apply keeps_for_each_until. intros nb.
    apply keeps_bind; [keeps_with fail|intros _].
    apply keeps_bind; [|intros; unfold_calls; keeps_with fail].
    apply keeps_for_each_until. intros it.
    apply process_team_sound. }
  apply keeps_bind.
  { apply link_parents_keeps. now intros f l H. }
  intros _. unfold write_summary. unfold_calls. keeps_with fail.
Qed.

End StatusMap.

Lemma filter_keys_incl (V : Type) (p : string * V -> bool)
      (d : PyDict.dict V) x :
  In x (map fst (filter p d)) -> In x (PyDict.keys d).
Proof.
  unfold PyDict.keys. rewrite !in_map_iff.
  intros (kv & <- & Hin). apply filter_In in Hin. exists kv. tauto.
Qed.

Lemma summary_lists_nodup (statuses : PyDict.dict string) :
  NoDup (PyDict.keys statuses) ->
  NoDup (successful_of statuses ++ failed_of statuses).
Proof.
  unfold successful_of, failed_of, PyDict.items.
  induction statuses as [|[team status] statuses IH]; cbn [filter map snd].
  - intros _. constructor.
  - cbn [PyDict.keys map fst]. intros Hd.
    inversion Hd as [|? ? Hfresh Hrest]; subst.
    specialize (IH Hrest).
    assert (Hnew : ~ In team
                     (map fst (filter (fun ts => PyStr.mem (snd ts)
                                                           success_states)
                                      statuses)
                      ++ map fst (filter (fun ts =>
                                            negb (PyStr.mem (snd ts)
                                                            success_states))
                                         statuses))).
    { intros Hin. apply Hfresh. apply in_app_or in Hin.
      destruct Hin as [H|H]; exact (filter_keys_incl _ _ _ _ H). }
    destruct (PyStr.mem status success_states); cbn [negb map fst].
    + cbn [app]. now constructor.
    + apply (NoDup_Add (Add_app team _ _)). now split.
Qed.

Lemma status_is_listed (statuses : PyDict.dict string) name :
  PyDict.get name statuses <> None ->
  In name (successful_of statuses) \/ In name (failed_of statuses).
Proof.
  intros Hget. destruct (PyDict.get name statuses) as [status|] eqn:E;
    [|contradiction].
  apply dict_get_In in E.
  unfold successful_of, failed_of, PyDict.items.
  destruct (PyStr.mem status success_states) eqn:Hmem; [left|right];
    apply in_map_iff; exists (name, status); (split; [reflexivity|]);
    apply filter_In; (split; [exact E|]); cbn [snd]; now rewrite Hmem.
Qed.

Lemma map_snd_enumerate1 (A : Type) (l : list A) :
  map snd (PyList.enumerate1 l) = l.
Proof.
  unfold PyList.enumerate1. generalize 1%nat.
  induction l as [|x l IH]; intros start; [reflexivity|].
  cbn. now rewrite IH.
Qed.

Section Completeness.

Variable env : Env.

Lemma triple_step {L A B : Type} (P E : L -> Prop) (m : M L A)
      (f : A -> M L B) Q :
  keeps P m -> (forall l, P l -> E l) ->
  (forall a, triple P (f a) Q E) ->
  triple P (bind m f) Q E.
Proof.
  intros Hm HE Hf. apply triple_bind with (R := fun _ => P); [|exact Hf].
  eapply triple_consequence; [exact Hm| | |]; auto.
Qed.

Lemma store_team_details_keeps teams names name :
  keeps (processed teams names) (store_team_details name).
Proof. unfold store_team_details. keeps_with processed_update. Qed.

(** One team: when its [try] block comes to its end, the team has a
    status; and whatever happens, the teams before it keep theirs. *)
Lemma migrate_one_team_records teams names gh_target source_org_obj target_org
      migrate_users map_idp_groups index name team_info :
  triple (processed teams names)
         (migrate_one_team env gh_target source_org_obj target_org
                           migrate_users map_idp_groups index name team_info)
         (fun _ => processed teams (names ++ [name]))
         (processed teams names).
Proof.
  unfold migrate_one_team.
  apply triple_step; [keeps_with processed_update|auto|intros _].
  apply triple_step; [keeps_with processed_update|auto|intros idp_cache].
  cbv zeta.
  assert (Hstore : triple (processed teams (names ++ [name]))
                          (store_team_details name)
                          (fun _ => processed teams (names ++ [name]))
                          (processed teams names)).
  { eapply triple_consequence;
      [apply (store_team_details_keeps teams (names ++ [name]) name)| | |];
      auto.
    intros l. apply processed_weaken. }
  match goal with
  | |- triple _ (if ?c then _ else _) _ _ => destruct c
  end.
  - apply triple_step; [keeps_with processed_update|auto|intros _].
    apply triple_bind
      with (R := fun _ => processed teams (names ++ [name])).
    { apply triple_modify. intros l H. now apply processed_set_status. }
    intros _.
    apply triple_bind
      with (R := fun _ => processed teams (names ++ [name]));
      [|intros _; exact Hstore].
    apply triple_modify. intros l H. exact H.
  - apply triple_step;
      [unfold_calls; keeps_with processed_update|auto|intros source_team].
    apply triple_step; [keeps_with processed_update|auto|intros cache].
    apply triple_bind_post
      with (R := fun _ => processed teams names)
           (V := fun created : option Team * string =>
                   exists team, fst created = Some team).
    { apply create_gh_team_keeps. }
    { apply create_gh_team_finds_a_team. }
    intros [[target_team|] new_or_exist] (team & Hteam); [|discriminate].
    cbn [fst snd].
    apply triple_bind
      with (R := fun _ => processed teams (names ++ [name]));
      [|intros _; exact Hstore].
    apply triple_step; [keeps_with processed_update|auto|intros _].
    apply triple_step;
      [apply keeps_when; apply bind_idp_group_keeps; now intros f l H
      |auto|intros _].
    destruct (andb migrate_users (negb map_idp_groups)).
    + apply triple_step;
        [unfold_calls; keeps_with processed_update|auto|intros _].
      apply triple_step; [keeps_with processed_update|auto|intros results].
      apply triple_bind
        with (R := fun _ => processed teams (names ++ [name])).
      { apply triple_modify. intros l H. now apply processed_set_status. }
      intros _. apply triple_modify. intros l H. exact H.
    + apply triple_modify. intros l H. now apply processed_set_status.
Qed.

Lemma process_team_records teams names gh_target source_org_obj target_org
      migrate_users map_idp_groups batches batch_num batch total_teams
      batch_size index name :
  triple (processed teams names)
         (process_team env gh_target source_org_obj target_org migrate_users
                       map_idp_groups batches batch_num batch total_teams
                       batch_size index name)
         (fun r l => match r with
                     | None => processed teams (names ++ [name]) l
                     | Some _ => True
                     end)
         (fun _ => True).
Proof.
  unfold process_team.
  apply triple_step; [keeps_with processed_update|auto|intros _].
  apply triple_step; [keeps_with processed_update|auto|intros cache].
  assert (Hfailed :
            forall message,
              triple (processed teams names)
                     (log_and_print message "error" ;;
                      modify (set_status name "failed") ;;
                      store_team_details name ;;
                      ret (@None outcome))
                     (fun r l => match r with
                                 | None => processed teams (names ++ [name]) l
                                 | Some _ => True
                                 end)
                     (fun _ => True)).
  { intros message.
    apply triple_step; [keeps_with processed_update|auto|intros _].
    apply triple_bind
      with (R := fun _ => processed teams (names ++ [name])).
    { apply triple_modify. intros l H. now apply processed_set_status. }
    intros _.
    apply triple_step; [apply store_team_details_keeps|auto|intros _].
    now apply triple_ret. }
  destruct (PyDict.get _ _).
  - apply triple_try with (E' := processed teams names).
    + apply triple_bind
        with (R := fun _ => processed teams (names ++ [name]));
        [apply migrate_one_team_records|].
      intros _. now apply triple_ret.
    + intros e. destruct e; try apply Hfailed.
      apply triple_step; [keeps_with processed_update|auto|intros _].
      apply triple_step;
        [unfold_calls; keeps_with processed_update|auto|intros _].
      destruct (remaining_teams _ _ _ _);
        [now apply triple_ret|now apply triple_raise].
  - apply triple_step; [keeps_with processed_update|auto|intros _].
    apply triple_bind
      with (R := fun _ => processed teams (names ++ [name])).
    { apply triple_modify. intros l H. now apply processed_set_status. }
    intros _. now apply triple_ret.
Qed.

Lemma triple_pure {L A : Type} (fact : Prop) (P : L -> Prop) (m : M L A)
      Q E :
  (fact -> triple P m Q E) -> triple (fun l => fact /\ P l) m Q E.
Proof. intros H l w [Hfact Hl]. exact (H Hfact l w Hl). Qed.

Lemma triple_and_then {L : Type} (P R : L -> Prop)
      (m : M L (option outcome)) (k : M L outcome) Q E :
  triple P m (fun r l => r = None -> R l) E ->
  returns m goes_on_or_restarts ->
  (forall teams l, Q (Restart teams) l) ->
  triple R k Q E ->
  triple P (and_then m k) Q E.
Proof.
  intros Hm Hgo HQ Hk. unfold and_then.
  apply triple_bind_post
    with (R := fun r l => r = None -> R l)
         (V := fun r => match r with Some (Done _) => False | _ => True end);
    [exact Hm|exact Hgo|].
  intros [[b|teams]|] HV; [destruct HV| |].
  - apply triple_ret. intros l _. apply HQ.
  - eapply triple_consequence; [exact Hk| | |]; auto.
Qed.

(** The same for a stage that keeps [P]. *)
Lemma keeps_and_then_triple {L : Type} (P : L -> Prop)
      (m : M L (option outcome)) (k : M L outcome) Q (E : L -> Prop) :
  keeps P m -> (forall l, P l -> E l) ->
  returns m goes_on_or_restarts ->
  (forall teams l, Q (Restart teams) l) ->
  triple P k Q E ->
  triple P (and_then m k) Q E.
Proof.
  intros Hm HE Hgo HQ Hk.
  apply triple_and_then with (R := P); [|exact Hgo|exact HQ|exact Hk].
  eapply triple_consequence; [exact Hm| | |]; auto.
Qed.

(** The batches: when the loop goes through, every team of the list has a
    status. *)
Lemma process_batches_records gh_target source_org_obj target_org
      migrate_users map_idp_groups teams :
  triple (fun l => teams_to_migrate l = teams)
         (process_batches env gh_target source_org_obj target_org
                          migrate_users map_idp_groups)
         (fun r l => r = None -> processed teams teams l)
         (fun _ => True).
Proof.
  unfold process_batches.
  apply triple_bind
    with (R := fun ts l => ts = teams /\ processed teams [] l).
  { apply triple_gets. intros l H.
    split; [exact H|]. split; [exact H|intros n []]. }
  intros ts. apply triple_pure. intros ->. cbv zeta.
  apply triple_step; [keeps_with processed_update|auto|intros _].
  eapply triple_consequence;
    [apply (triple_for_each_until
              _ (fun done l =>
                   processed teams (concat (map snd done)) l)
              (fun _ => True))
    |auto| |auto].
  2:{ intros r l H Hr. specialize (H Hr). cbn beta in H.
      rewrite map_snd_enumerate1 in H.
      unfold PyList.chunks in H.
      rewrite chunks_fuel_concat in H by lia.
      exact H. }
  intros done nb. cbv zeta.
  apply triple_step; [keeps_with processed_update|auto|intros _].
  apply triple_bind
    with (R := fun (r : option outcome) l =>
                 r = None ->
                 processed teams (concat (map snd done) ++ snd nb) l).
  { eapply triple_consequence;
      [apply (triple_for_each_until
                _ (fun done' l =>
                     processed teams
                       (concat (map snd done) ++ map snd done') l)
                (fun _ => True))
      | | |auto].
    - intros it_done it. cbn beta. rewrite map_app, app_assoc. cbn [map].
      apply process_team_records.
    - intros l H. cbn [map]. now rewrite app_nil_r.
    - intros r l H Hr. specialize (H Hr). cbn beta in H.
      now rewrite map_snd_enumerate1 in H. }
  intros [o|].
  - now apply triple_ret.
  - apply triple_bind
      with (R := fun _ l =>
                   processed teams (concat (map snd done) ++ snd nb) l).
    { intros l w H. specialize (H eq_refl). revert l w H.
      change (triple (processed teams (concat (map snd done) ++ snd nb))
                     (when (fst nb <? length (PyList.chunks 100 teams))%nat
                           (smart_rate_limit_handler (Some gh_target)))
                     (fun _ => processed teams
                                 (concat (map snd done) ++ snd nb))
                     (fun _ => True)).
      eapply triple_consequence;
        [apply (keeps_when
                  (processed teams (concat (map snd done) ++ snd nb)));
         unfold_calls; keeps_with processed_update
        | | |]; auto. }
    intros _. apply triple_ret. intros l H.
    rewrite map_app, concat_app. cbn [map concat]. now rewrite app_nil_r.
Qed.

Lemma fetch_source_teams_keeps_list gh_source source_org_obj teams :
  teams <> [] ->
  keeps (fun l => teams_to_migrate l = teams)
        (fetch_source_teams env gh_source source_org_obj).
Proof.
  intros Hteams. unfold fetch_source_teams.
  apply keeps_bind; [keeps_with fail|intros ts].
  apply keeps_bind.
  { unfold fetch_named_team, cache_team. unfold_calls.
    keeps_with ltac:(now (intros ? ?; assumption)). }
  intros r. destruct r; [keeps_with fail|].
  apply triple_bind
    with (R := fun ts' l => ts' = teams /\ teams_to_migrate l = teams).
  { apply triple_gets. intros l H. now split. }
  intros ts'. apply triple_pure. intros ->.
  destruct teams as [|t teams']; [contradiction|].
  cbn [when]. intros l w H. exact H.
Qed.

(** An invocation on a list that it does not reorder: when it returns,
    every team of the list has a status. *)
Lemma body_records gh_source gh_target source_org target_org output_folder
      migrate_users map_idp_groups teams :
  teams <> [] ->
  triple (fun l => teams_to_migrate l = teams)
         (migrate_teams_optimized_body env gh_source gh_target source_org
            target_org output_folder migrate_users map_idp_groups false)
         (fun o l => match o with
                     | Done _ => forall name, In name teams ->
                                              has_status name l
                     | Restart _ => True
                     end)
         (fun _ => True).
Proof.
  intros Hteams. unfold migrate_teams_optimized_body.
  do 3 (apply triple_step;
        [keeps_with ltac:(now (intros ? ?; assumption))|auto|intros _]).
  apply triple_step; [unfold_calls; keeps_with fail|auto|].
  intros source_org_obj.
  apply keeps_and_then_triple;
    [now apply fetch_source_teams_keeps_list|auto
    |apply fetch_source_teams_goes_on|intros; exact I|].
  apply triple_step; [keeps_with fail|auto|intros _].
  apply triple_step; [unfold_calls; keeps_with fail|auto|].
  intros target_org_obj.
  apply keeps_and_then_triple;
    [unfold fetch_target_teams; unfold_calls;
     keeps_with ltac:(now (intros ? ?; assumption))
    |auto|apply fetch_target_teams_goes_on|intros; exact I|].
  apply triple_step;
    [unfold prefetch_idp_groups; unfold_calls;
     keeps_with ltac:(now (intros ? ?; assumption))|auto|intros _].
  apply triple_step;
    [unfold order_parent_child; cbn [when];
     keeps_with ltac:(now (intros ? ?; assumption))|auto|intros _].
  apply triple_and_then with (R := processed teams teams);
    [apply process_batches_records|apply process_batches_goes_on
    |intros; exact I|].
  apply triple_step;
    [apply link_parents_keeps; now intros f l H|auto|intros _].
  unfold write_summary.
  apply triple_step; [keeps_with fail|auto|intros statuses].
  apply triple_step; [keeps_with fail|auto|intros details].
  apply triple_step; [unfold_calls; keeps_with fail|auto|intros _].
  apply triple_ret. intros l [_ H]. exact H.
Qed.

End Completeness.



(** X30: no team is dropped.  An invocation of [migrate_teams_optimized]
    that is given a list of teams and does not reorder it for parent links
    reports every team of the list when it returns: each one is in the
    list of successful or in the list of failed migrations of the summary -
    also a team that could not be fetched, was skipped or whose migration
    raised. *)
Theorem X30_every_team_is_reported :
  forall (env : Env) gh_source gh_target source_org target_org output_folder
         (teams : list string) migrate_users map_idp_groups
         (w : World) (b : bool) (l' : mto_locals) (w' : World),
    teams <> [] ->
    migrate_teams_optimized_body env gh_source gh_target source_org target_org
      output_folder migrate_users map_idp_groups false (mto_init teams) w
    = (Val (Done b), l', w') ->
    exists before successful failed details,
      calls w' = before ++
        [write_migration_summary_call output_folder source_org target_org
           successful failed details]
      /\ forall name, In name teams ->
           In name successful \/ In name failed.
Proof.
  intros env gh_source gh_target source_org target_org output_folder teams
         migrate_users map_idp_groups w b l' w' Hteams Hbody.
  destruct (body_summarised env gh_source gh_target source_org target_org
              output_folder migrate_users map_idp_groups false _ _ _ _ _
              Hbody) as (_ & before & Hcalls).
  assert (Hrec := body_records env gh_source gh_target source_org target_org
                    output_folder migrate_users map_idp_groups teams Hteams
                    (mto_init teams) w eq_refl).
  rewrite Hbody in Hrec. cbn in Hrec.
  exists before, (successful_of (migration_status l')),
    (failed_of (migration_status l')), (migration_details l').
  split; [exact Hcalls|].
  intros name Hin. apply status_is_listed. exact (Hrec name Hin).
Qed.

Lemma X30_every_team_is_reported_witness :
  exists b l' w',
    migrate_teams_optimized_body Scenario.validation_fails gh_source_client
      gh_target_client "src" "tgt" "out" false false false
      (mto_init ["alpha"%string; "beta"%string]) empty_world
    = (Val (Done b), l', w')
    /\ exists before successful failed details,
      calls w' = before ++
        [write_migration_summary_call "out" "src" "tgt" successful failed
                                      details]
      /\ forall name, In name ["alpha"%string; "beta"%string] ->
           In name successful \/ In name failed.
Proof.
  eexists _, _, _. split.
  - vm_compute. reflexivity.
  - eapply (X30_every_team_is_reported
              Scenario.validation_fails gh_source_client gh_target_client
              "src" "tgt" "out" ["alpha"%string; "beta"%string] false false
              empty_world).
    + discriminate.
    + vm_compute. reflexivity.
Defined.
